(** * A two-pass assembler for Mano's basic computer: model and properties

    Shallow embedding of [src/assembler.py] (class [Assembler]).

    - Tokens and words are [string]s, as in the source.
    - [self.__asm] is a [list (list string)] (one token list per line), as
      [read_code] leaves it; reading the file is not modelled.
    - The opcode tables and the address symbol table are dictionaries that
      are only looked up and inserted into: [gmap string string].
    - [self.__bin] is indexed through [list(self.__bin.keys())[i - 1]], so
      the insertion order of its keys is observable: it is an
      insertion-ordered association list ([pydict]).
    - Python exceptions are values of [exn]; every fallible operation
      returns a [result], and the operations of a statement are sequenced
      in Python's evaluation order (the right-hand side of an assignment
      before the subscript of its target).
    - [assert] statements are executed (the interpreter runs without
      [-O]); [print] appends a line to [stdout].
    - [assemble] is run once, on an object whose symbol table and image
      are empty.

    Characters are 8-bit ([ascii]); text outside that range is not
    modelled. *)

From Stdlib Require Import ZArith NArith Ascii String HexString BinaryString
  DecimalString Lia.
From stdpp Require Import base option list gmap strings.

Local Open Scope Z_scope.

(** ** Exceptions and results *)

Inductive exn : Type :=
  | IndexError
  | KeyError (key : string)
  | ValueError
  | AssertionError (msg : string)
  | Exception (msg : string).

Inductive result (A : Type) : Type :=
  | Ok (a : A)
  | Err (e : exn).
Arguments Ok {A} a.
Arguments Err {A} e.

Definition bind {A B : Type} (r : result A) (k : A → result B) : result B :=
  match r with
  | Ok a => k a
  | Err e => Err e
  end.

Notation "'do' x <- r ; k" := (bind r (λ x, k))
  (at level 10, x name, r at level 100, k at level 200,
   format "'[v' 'do'  x  <-  r ; '/' k ']'").

Definition is_ok {A : Type} (r : result A) : bool :=
  match r with Ok _ => true | Err _ => false end.

(** ** Python primitives used by the assembler *)

Module Py.

(** [l[i]] for a non-negative index. *)
Definition index {A : Type} (l : list A) (i : nat) : result A :=
  match l !! i with
  | Some x => Ok x
  | None => Err IndexError
  end.

(** [d[k]] on a dictionary with string keys. *)
Definition getitem (d : gmap string string) (k : string) : result string :=
  match d !! k with
  | Some v => Ok v
  | None => Err (KeyError k)
  end.

(** [k in d.keys()]. *)
Definition contains (d : gmap string string) (k : string) : bool :=
  bool_decide (is_Some (d !! k)).

(** [x in l] on a list of strings. *)
Definition elem (x : string) (l : list string) : bool :=
  existsb (String.eqb x) l.

(** [s.endswith(suffix)], [s.startswith(prefix)]. *)
Fixpoint endswith (s suf : string) : bool :=
  String.eqb s suf ||
  match s with
  | EmptyString => false
  | String _ r => endswith r suf
  end.

Definition startswith (s pre : string) : bool := String.prefix pre s.

(** Whitespace as [int()] strips it: the six ASCII characters and, of the
    code points from 128 to 255, NEL (133) and the no-break space (160).
    The separators 28 to 31, which [str.split] takes for whitespace, are
    no whitespace here. *)
Definition is_space (c : ascii) : bool :=
  let n := nat_of_ascii c in
  ((9 <=? n)%nat && (n <=? 13)%nat) || (n =? 32)%nat
  || (n =? 133)%nat || (n =? 160)%nat.

Fixpoint lstrip (s : string) : string :=
  match s with
  | String c r => if is_space c then lstrip r else s
  | EmptyString => EmptyString
  end.

Fixpoint rstrip (s : string) : string :=
  match s with
  | String c r =>
      match rstrip r with
      | EmptyString => if is_space c then EmptyString else String c EmptyString
      | r' => String c r'
      end
  | EmptyString => EmptyString
  end.

Definition strip (s : string) : string := rstrip (lstrip s).

(** Value of a digit character in a base of at most 16. *)
Definition digit (base : N) (c : ascii) : option N :=
  match HexString.ascii_to_digit c with
  | Some d => if (d <? base)%N then Some d else None
  | None => None
  end.

(** The digit part of an integer literal: digits separated by single
    underscores; [sep] records that a digit must come next (at the start
    and after an underscore). *)
Fixpoint digits (base : N) (sep : bool) (acc : N) (s : string) : option N :=
  match s with
  | EmptyString => if sep then None else Some acc
  | String c r =>
      if Ascii.eqb c "_" then
        if sep then None else digits base true acc r
      else
        match digit base c with
        | Some d => digits base false (d + base * acc)%N r
        | None => None
        end
  end.

(** The number of digits of a digit part (underscores are not counted). *)
Fixpoint count_digits (s : string) : N :=
  match s with
  | EmptyString => 0%N
  | String c r =>
      if Ascii.eqb c "_" then count_digits r else N.succ (count_digits r)
  end.

(** The interpreter's default limit on the number of digits of a decimal
    string ([sys.int_max_str_digits]); it does not apply to base 16. *)
Definition max_str_digits : N := 4300.

(** [int(s, base)] for [base] 10 or 16: surrounding whitespace, an optional
    sign, for base 16 an optional [0x] prefix (which may be followed by one
    underscore), then the digits. *)
Definition int (s : string) (base : N) : result Z :=
  let s1 := strip s in
  let '(neg, s2) :=
    match s1 with
    | String "-" r => (true, r)
    | String "+" r => (false, r)
    | _ => (false, s1)
    end in
  let s3 :=
    if (base =? 16)%N then
      match s2 with
      | String "0" (String x r) =>
          if Ascii.eqb x "x" || Ascii.eqb x "X" then
            match r with
            | String "_" r' => r'
            | _ => r
            end
          else s2
      | _ => s2
      end
    else s2 in
  if (base =? 10)%N && (max_str_digits <? count_digits s3)%N
  then Err ValueError
  else
    match digits base true 0%N s3 with
    | Some n => Ok (if neg then - Z.of_N n else Z.of_N n)
    | None => Err ValueError
    end.

(** [hex(z)]. *)
Definition hex (z : Z) : string := HexString.of_Z z.

(** ['{:b}'.format(z)]. *)
Definition format_b (z : Z) : string :=
  match z with
  | Z0 => "0"
  | Zpos p => BinaryString.Raw.of_pos p ""
  | Zneg p => String "-" (BinaryString.Raw.of_pos p "")
  end.

(** ['{}'.format(n)] for a natural number. *)
Definition format_d (n : nat) : string :=
  NilZero.string_of_uint (Nat.to_uint n).

Fixpoint zeros (n : nat) : string :=
  match n with
  | O => ""
  | S k => String "0" (zeros k)
  end.

(** [s.zfill(width)]: zeros are inserted after a leading sign. *)
Definition zfill (s : string) (width : nat) : string :=
  let n := String.length s in
  if (width <=? n)%nat then s
  else
    match s with
    | String c r =>
        if Ascii.eqb c "+" || Ascii.eqb c "-"
        then String c (zeros (width - n) +:+ r)
        else zeros (width - n) +:+ s
    | EmptyString => zeros width
    end.

(** [s[2::]]. *)
Definition drop2 (s : string) : string :=
  match s with
  | String _ (String _ r) => r
  | _ => ""
  end.

End Py.

(** ** Insertion-ordered dictionaries

    [self.__bin] maps address strings to words or [None].  Assigning to a
    key that is present keeps its position; a new key goes to the end. *)

Abbreviation pydict := (list (string * option string)).

Module Dict.

Definition keys (d : pydict) : list string := d.*1.
Definition values (d : pydict) : list (option string) := d.*2.

(** [d[k] = v]. *)
Fixpoint set (k : string) (v : option string) (d : pydict) : pydict :=
  match d with
  | [] => [(k, v)]
  | (k', v') :: r =>
      if String.eqb k k' then (k', v) :: r else (k', v') :: set k v r
  end.

(** [d.get(k)]: the entry of [k], if any. *)
Fixpoint get (k : string) (d : pydict) : option (option string) :=
  match d with
  | [] => None
  | (k', v') :: r => if String.eqb k k' then Some v' else get k r
  end.

(** [d.pop(k)] (the popped value is not used by the assembler). *)
Fixpoint pop (k : string) (d : pydict) : result pydict :=
  match d with
  | [] => Err (KeyError k)
  | (k', v') :: r =>
      if String.eqb k k' then Ok r
      else do r' <- pop k r; Ok ((k', v') :: r')
  end.

End Dict.

(** ** The assembler *)

Module Assembler.

(** The three instruction tables, as [__load_table] leaves them. *)
Record tables : Type := Tables {
  mri_table : gmap string string;
  rri_table : gmap string string;
  ioi_table : gmap string string
}.

(** [__islabel]. *)
Definition islabel (s : string) : bool := Py.endswith s ",".

(** [__rm_comments]: every line is cut at its first token that starts
    with [/]. *)
Fixpoint rm_comment_line (line : list string) : list string :=
  match line with
  | [] => []
  | t :: r => if Py.startswith t "/" then [] else t :: rm_comment_line r
  end.

Definition rm_comments (asm : list (list string)) : list (list string) :=
  rm_comment_line <$> asm.

(** [__format2bin]. *)
Definition format2bin (num numformat : string) (format_bits : nat)
    : result string :=
  if String.eqb numformat "dec" then
    do n <- Py.int num 10; Ok (Py.zfill (Py.format_b n) format_bits)
  else if String.eqb numformat "hex" then
    do n <- Py.int num 16; Ok (Py.zfill (Py.format_b n) format_bits)
  else Err (Exception "format2bin: not supported format provided.").

(** *** Pass 1 *)

(** The local variables of [__first_pass] together with the two
    dictionaries it updates.  [ctr] is unbound before the first iteration;
    it is never read before being assigned, and starts as the empty
    string here. *)
Record pass1 : Type := Pass1 {
  linecounter : nat;
  inc : Z;
  org : string;
  ctr : string;
  symtab : gmap string string;
  bin : pydict
}.

(** The address of the current line:
    [__format2bin(hex(int(org, 16) + inc)[2::], 'hex', 12)]. *)
Definition location (org : string) (inc : Z) : result string :=
  do o <- Py.int org 16;
  format2bin (Py.drop2 (Py.hex (o + inc))) "hex" 12.

Definition assert_msg (linecounter : nat) : string :=
  "Invalid Assembly Code, in line " +:+ Py.format_d (linecounter + 1).

(** One iteration of the loop of [__first_pass], after the test for
    [end]; [tok0] is [self.__asm[i][0]]. *)
Definition first_pass_step (line : list string) (tok0 : string) (st : pass1)
    : result pass1 :=
  do oi <- (if String.eqb tok0 "org"
            then do o <- Py.index line 1; Ok (o, -1)
            else Ok (org st, inc st));
  let '(org', inc') := oi in
  let linecounter' := S (linecounter st) in
  do c <- location org' inc';
  let inc'' := inc' + 1 in
  do tab <- (if islabel tok0
             then if (2 <=? length line)%nat
                  then Ok (<[tok0 := c]> (symtab st))
                  else Err (AssertionError (assert_msg linecounter'))
             else Ok (symtab st));
  Ok (Pass1 linecounter' inc'' org' c tab (Dict.set c None (bin st))).

(** The loop over [range(1, len(self.__asm) - 1)]; [lines] are the lines
    still to visit. *)
Fixpoint first_pass_loop (lines : list (list string)) (st : pass1)
    : result pass1 :=
  match lines with
  | [] => Ok st
  | line :: rest =>
      do tok0 <- Py.index line 0;
      if String.eqb tok0 "end" then Ok st
      else do st' <- first_pass_step line tok0 st; first_pass_loop rest st'
  end.

(** The lines visited by both passes: indices [1 .. len(asm) - 2]. *)
Definition body (asm : list (list string)) : list (list string) :=
  removelast (tail asm).

(** [__first_pass], from the dictionaries the object holds. *)
Definition first_pass (asm : list (list string))
    (tab : gmap string string) (b : pydict) : result pass1 :=
  do l0 <- Py.index asm 0;
  do o <- Py.index l0 1;
  first_pass_loop (body asm) (Pass1 0 0 o "" tab b).

(** *** Pass 2 *)

(** [flag], [self.__bin] and the lines printed so far. *)
Record pass2 : Type := Pass2 {
  flag : bool;
  image : pydict;
  stdout : list string
}.

(** [self.__bin[list(self.__bin.keys())[i - 1]] = w], the right-hand side
    [w] being already evaluated. *)
Definition store (i : nat) (w : string) (st : pass2) : result pass2 :=
  do k <- Py.index (Dict.keys (image st)) (i - 1);
  Ok (Pass2 (flag st) (Dict.set k (Some w) (image st)) (stdout st)).

(** The indirection bit: ['i' in self.__asm[i][1::]]. *)
Definition indirect_bit (line : list string) : string :=
  if Py.elem "i" (drop 1 line) then "1" else "0".

(** One iteration of the loop of [__second_pass], after the test for
    [end]. *)
Definition second_pass_step (t : tables) (tab : gmap string string)
    (i : nat) (line : list string) (tok0 : string) (st : pass2)
    : result pass2 :=
  if Py.elem "hlt" line then
    do w <- Py.getitem (rri_table t) "hlt";
    do st' <- store i w st;
    Ok (Pass2 true (image st') (stdout st'))
  else if Py.contains (rri_table t) tok0 then
    do w <- Py.getitem (rri_table t) tok0; store i w st
  else
    do tok1 <- Py.index line 1;
    if Py.contains (rri_table t) tok1 then
      do w <- Py.getitem (rri_table t) tok1; store i w st
    else if Py.contains (mri_table t) tok0 then
      let I := indirect_bit line in
      do op <- Py.getitem (mri_table t) tok0;
      do a <- Py.getitem tab (tok1 +:+ ",");
      store i (I +:+ op +:+ a) st
    else if Py.contains (mri_table t) tok1 then
      let I := indirect_bit line in
      do op <- Py.getitem (mri_table t) tok1;
      do tok2 <- Py.index line 2;
      do a <- Py.getitem tab (tok2 +:+ ",");
      store i (I +:+ op +:+ a) st
    else if Py.contains (ioi_table t) tok0 then
      do w <- Py.getitem (ioi_table t) tok0; store i w st
    else if Py.contains (ioi_table t) tok1 then
      do w <- Py.getitem (ioi_table t) tok1; store i w st
    else if islabel tok0 && flag st then
      if String.eqb tok1 "hex" then
        do tok2 <- Py.index line 2;
        do w <- format2bin tok2 "hex" 16; store i w st
      else if String.eqb tok1 "dec" then
        do tok2 <- Py.index line 2;
        do w <- format2bin tok2 "dec" 16; store i w st
      else Ok (Pass2 (flag st) (image st) (stdout st ++ ["error"]))
    else Ok st.

(** The loop over [range(1, len(self.__asm) - 1)], [i] being the index of
    the first of [lines]. *)
Fixpoint second_pass_loop (t : tables) (tab : gmap string string)
    (i : nat) (lines : list (list string)) (st : pass2) : result pass2 :=
  match lines with
  | [] => Ok st
  | line :: rest =>
      do tok0 <- Py.index line 0;
      if String.eqb tok0 "end" then Ok st
      else
        do st' <- second_pass_step t tab i line tok0 st;
        second_pass_loop t tab (S i) rest st'
  end.

(** The final loop of [__second_pass]: [dv] and [dk] are snapshots of the
    values and keys, and every key whose snapshot value is [None] is
    popped. *)
Fixpoint prune (snapshot : pydict) (d : pydict) : result pydict :=
  match snapshot with
  | [] => Ok d
  | (k, None) :: r => do d' <- Dict.pop k d; prune r d'
  | (_, Some _) :: r => prune r d
  end.

(** [__second_pass]. *)
Definition second_pass (t : tables) (asm : list (list string))
    (tab : gmap string string) (b : pydict) : result pass2 :=
  do st <- second_pass_loop t tab 1 (body asm) (Pass2 false b []);
  do b' <- prune (image st) (image st);
  Ok (Pass2 (flag st) b' (stdout st)).

(** [assemble] on an object that holds the loaded lines [asm0] (and is
    given no [inp]), whose symbol table and image are empty, as the
    constructor leaves them. *)
Definition assemble (t : tables) (asm0 : list (list string))
    : result pydict :=
  match asm0 with
  | [] => Err (AssertionError "no assembly file provided")
  | _ =>
      let asm := rm_comments asm0 in
      do p1 <- first_pass asm ∅ [];
      do p2 <- second_pass t asm (symtab p1) (bin p1);
      Ok (image p2)
  end.

End Assembler.

(** ** Notions used in the statements *)

(** A string of binary digits. *)
Fixpoint is_binary (s : string) : bool :=
  match s with
  | EmptyString => true
  | String c r => (Ascii.eqb c "0" || Ascii.eqb c "1") && is_binary r
  end.

(** Characters of a string. *)
Fixpoint all_chars (P : ascii → bool) (s : string) : bool :=
  match s with
  | EmptyString => true
  | String c r => P c && all_chars P r
  end.

(** The digits [hex] prints. *)
Definition hex_chars : list ascii :=
  ["0"; "1"; "2"; "3"; "4"; "5"; "6"; "7"; "8"; "9";
   "a"; "b"; "c"; "d"; "e"; "f"]%char.

Definition lower_hex (c : ascii) : bool := existsb (Ascii.eqb c) hex_chars.

(** The 12-character form of a non-negative address. *)
Definition addr12 (n : Z) : string := Py.zfill (Py.format_b n) 12.

(** A line at which the loops do not stop: its first token is not [end]
    (an empty line raises instead). *)
Definition not_end (line : list string) : Prop := line !! 0%nat ≠ Some "end".

(** Every key of the symbol table is a label token, terminator
    included. *)
Definition keys_are_labels (tab : gmap string string) : Prop :=
  ∀ k a, tab !! k = Some a → Assembler.islabel k = true.

(** A line that Pass 1 accepts without touching the origin: it has a
    first token, which is neither [org] nor [end], and a label is followed
    by something. *)
Definition plain (line : list string) : bool :=
  match line with
  | [] => false
  | tok0 :: _ =>
      negb (String.eqb tok0 "org") && negb (String.eqb tok0 "end")
      && (negb (Assembler.islabel tok0) || (2 <=? length line)%nat)
  end.

(** The state in which [__first_pass] enters its loop on an object with
    an empty symbol table and image. *)
Definition pass1_init (o : string) : Assembler.pass1 :=
  Assembler.Pass1 0 0 o "" ∅ [].

(** ** Sample tables and programs *)

Module Sample.
Import Assembler.

Definition tabs : tables :=
  Tables {["lda" := "000"]} {["hlt" := "1111111111111111"]} ∅.

(** The end-to-end example, the operand written with the terminator. *)
Definition example_comma : list (list string) :=
  [["org"; "100"]; ["lda"; "x,"]; ["hlt"]; ["x,"; "hex"; "1"]; ["end"]].

(** The same with the operand written as the label's name. *)
Definition example : list (list string) :=
  [["org"; "100"]; ["lda"; "x"]; ["hlt"]; ["x,"; "hex"; "1"]; ["end"]].

(** A program whose only line between [org] and [end] is a second
    [org]. *)
Definition two_origins : list (list string) :=
  [["org"; "100"]; ["org"; "200"]; ["end"]].

(** Two labels with nothing after them. *)
Definition two_lone_labels : list (list string) :=
  [["org"; "100"]; ["a,"]; ["b,"]; ["end"]].

(** A blank line before a label with nothing after it. *)
Definition blank_then_lone_label : list (list string) :=
  [["org"; "100"]; []; ["b,"]; ["end"]].

(** A label with nothing after it on the third line. *)
Definition lone_label_third : list (list string) :=
  [["org"; "100"]; ["hlt"]; ["x,"]; ["end"]].

(** A line between [org] and [end] made of one unknown token. *)
Definition single_token : list (list string) :=
  [["org"; "100"]; ["foo"]; ["end"]].



(** One program with a reference on either side of the definition. *)
Definition both_references : list (list string) :=
  [["org"; "100"]; ["lda"; "x"]; ["hlt"]; ["x,"; "dec"; "5"];
   ["lda"; "x"; "i"]; ["end"]].

(** Two origins one apart: the second [org] line is given the address
    of the first segment's line. *)
Definition overlapping_origins : list (list string) :=
  [["org"; "100"]; ["x,"; "hlt"]; ["org"; "101"]; ["lda"; "x"];
   ["org"; "200"]; ["end"]].

(** A data literal that needs 17 bits. *)
Definition wide_literal : list (list string) :=
  [["org"; "100"]; ["hlt"]; ["x,"; "dec"; "65536"]; ["end"]].

(** A label defined on two lines. *)
Definition twice_defined : list (list string) :=
  [["org"; "100"]; ["x,"; "hlt"]; ["y,"; "dec"; "1"]; ["x,"; "dec"; "2"];
   ["end"]].

End Sample.

Module SampleStates.
Import Assembler.

(** Pass 1 on [Sample.example]. *)
Definition example_pass1 : pass1 :=
  Pass1 3 3 "100" "000100000010" {["x," := "000100000010"]}
    [("000100000000", None); ("000100000001", None); ("000100000010", None)].

(** Pass 1 on [Sample.twice_defined]. *)
Definition twice_defined_pass1 : pass1 :=
  Pass1 3 3 "100" "000100000010"
    {["x," := "000100000010"; "y," := "000100000001"]}
    [("000100000000", None); ("000100000001", None); ("000100000010", None)].

(** Pass 1 on [Sample.twice_defined] before its last defining line. *)
Definition twice_defined_before_last : pass1 :=
  Pass1 2 2 "100" "000100000001"
    {["x," := "000100000000"; "y," := "000100000001"]}
    [("000100000000", None); ("000100000001", None)].

(** Pass 1 on [Sample.both_references]. *)
Definition both_references_pass1 : pass1 :=
  Pass1 4 4 "100" "000100000011" {["x," := "000100000010"]}
    [("000100000000", None); ("000100000001", None); ("000100000010", None);
     ("000100000011", None)].

(** The image of [Sample.both_references]. *)
Definition both_references_image : pydict :=
  [("000100000000", Some "0000000100000010");
   ("000100000001", Some "1111111111111111");
   ("000100000010", Some "0000000000000101");
   ("000100000011", Some "1000000100000010")].

(** Pass 1 on [Sample.overlapping_origins]. *)
Definition overlapping_origins_pass1 : pass1 :=
  Pass1 4 0 "200" "000111111111" {["x," := "000100000000"]}
    [("000100000000", None); ("000100000001", None); ("000111111111", None)].

(** The image of [Sample.overlapping_origins]. *)
Definition overlapping_origins_image : pydict :=
  [("000100000000", Some "1111111111111111");
   ("000111111111", Some "0000000100000000")].

(** The image of [Sample.example]. *)
Definition example_image : pydict :=
  [("000100000000", Some "0000000100000010");
   ("000100000001", Some "1111111111111111");
   ("000100000010", Some "0000000000000001")].

End SampleStates.

(** What Pass 1 maintains about the image and the symbol table: the keys
    of the image are distinct strings of binary digits, nothing is encoded
    yet, and every address in the symbol table is a key of the image. *)
Record pass1_inv (st : Assembler.pass1) : Prop := {
  inv_nodup : NoDup (Dict.keys (Assembler.bin st));
  inv_pending : ∀ k v, (k, v) ∈ Assembler.bin st → v = None;
  inv_binary : ∀ k, k ∈ Dict.keys (Assembler.bin st) → is_binary k = true;
  inv_symtab : ∀ k a, Assembler.symtab st !! k = Some a →
                 a ∈ Dict.keys (Assembler.bin st)
}.

(** The lines that Pass 2 encodes as memory-reference instructions, with
    their mnemonic and operand: the conditions under which
    [second_pass_step] reaches one of its two memory-reference branches. *)
Definition mri_operand (t : Assembler.tables) (line : list string)
    : option (string * string) :=
  match line with
  | tok0 :: tok1 :: rest =>
      if String.eqb tok0 "end" then None
      else if Py.elem "hlt" line then None
      else if Py.contains (Assembler.rri_table t) tok0 then None
      else if Py.contains (Assembler.rri_table t) tok1 then None
      else if Py.contains (Assembler.mri_table t) tok0 then Some (tok0, tok1)
      else if Py.contains (Assembler.mri_table t) tok1 then
        match rest with
        | tok2 :: _ => Some (tok1, tok2)
        | [] => None
        end
      else None
  | _ => None
  end.

(** A 16-bit word: sixteen binary digits. *)
Definition is_word (w : string) : Prop :=
  String.length w = 16%nat ∧ is_binary w = true.

(** Tables as the instruction set has them: 16-bit words for the
    register-reference and input-output instructions, 3-bit opcodes for
    the memory-reference instructions. *)
Record tables_wf (t : Assembler.tables) : Prop := {
  wf_rri : ∀ m w, Assembler.rri_table t !! m = Some w → is_word w;
  wf_ioi : ∀ m w, Assembler.ioi_table t !! m = Some w → is_word w;
  wf_mri : ∀ m op, Assembler.mri_table t !! m = Some op →
             String.length op = 3%nat ∧ is_binary op = true
}.

(** Every literal that stands third on a line after [hex] or [dec] is a
    non-negative number below 2^16. *)
Definition literals_fit (lines : list (list string)) : Prop :=
  ∀ line lit v,
    line ∈ lines → line !! 2%nat = Some lit →
    (line !! 1%nat = Some "hex" → Py.int lit 16 = Ok v → 0 ≤ v < 65536)
    ∧ (line !! 1%nat = Some "dec" → Py.int lit 10 = Ok v → 0 ≤ v < 65536).

(** Where a word stored by Pass 2 comes from. *)
Definition word_source (t : Assembler.tables) (tab : gmap string string)
    (line : list string) (w : string) : Prop :=
  (∃ m, Assembler.rri_table t !! m = Some w)
  ∨ (∃ m, Assembler.ioi_table t !! m = Some w)
  ∨ (∃ m op x a, Assembler.mri_table t !! m = Some op
       ∧ tab !! (x +:+ ",") = Some a
       ∧ w = Assembler.indirect_bit line +:+ op +:+ a)
  ∨ (∃ lit, line !! 1%nat = Some "hex" ∧ line !! 2%nat = Some lit
       ∧ Assembler.format2bin lit "hex" 16 = Ok w)
  ∨ (∃ lit, line !! 1%nat = Some "dec" ∧ line !! 2%nat = Some lit
       ∧ Assembler.format2bin lit "dec" 16 = Ok w).

(** The address Pass 1 gives to the line at position [n] of the body
    (the line of index [n + 1] of the program), provided no [end] line
    stands before it. *)
Definition line_address (asm : list (list string)) (n : nat) : result string :=
  do l0 <- Py.index asm 0;
  do o <- Py.index l0 1;
  do st <- Assembler.first_pass_loop (take (S n) (Assembler.body asm))
             (pass1_init o);
  Ok (Assembler.ctr st).

(** ** The two scans as relations

    [scan1 lines st st'] : the loop of Pass 1 over [lines], entered in
    state [st], ends without an exception in state [st'];
    [scan2 t tab i lines st st'] : the same for the loop of Pass 2, [i]
    being the index of the first of [lines]. *)

Inductive scan1
    : list (list string) → Assembler.pass1 → Assembler.pass1 → Prop :=
  | scan1_done st : scan1 [] st st
  | scan1_end line rest st :
      line !! 0%nat = Some "end" → scan1 (line :: rest) st st
  | scan1_step line rest tok0 st st1 st' :
      line !! 0%nat = Some tok0 → tok0 ≠ "end" →
      Assembler.first_pass_step line tok0 st = Ok st1 →
      scan1 rest st1 st' →
      scan1 (line :: rest) st st'.

Inductive scan2 (t : Assembler.tables) (tab : gmap string string)
    : nat → list (list string) → Assembler.pass2 → Assembler.pass2 → Prop :=
  | scan2_done i st : scan2 t tab i [] st st
  | scan2_end i line rest st :
      line !! 0%nat = Some "end" → scan2 t tab i (line :: rest) st st
  | scan2_step i line rest tok0 st st1 st' :
      line !! 0%nat = Some tok0 → tok0 ≠ "end" →
      Assembler.second_pass_step t tab i line tok0 st = Ok st1 →
      scan2 t tab (S i) rest st1 st' →
      scan2 t tab i (line :: rest) st st'.

(** A key of the image as Pass 1 writes it: the padded binary numeral of
    a non-negative number. *)
Definition is_address (k : string) : Prop := ∃ n, 0 ≤ n ∧ k = addr12 n.

(** ** The object across calls

    The attributes that [assemble] reads and updates: the loaded lines
    (cut by [__rm_comments] in place), the symbol table and the image.
    The constructor leaves the last two empty; they are not reset by
    [assemble]. *)

Record assembler_obj : Type := Obj {
  obj_asm : list (list string);
  obj_symtab : gmap string string;
  obj_bin : pydict
}.

(** [assemble] (given no [inp]) as a transformation of the object; the
    value returned to the caller is the image of the resulting object. *)
Definition assemble_obj (t : Assembler.tables) (ob : assembler_obj)
    : result assembler_obj :=
  match obj_asm ob with
  | [] => Err (AssertionError "no assembly file provided")
  | _ =>
      let asm := Assembler.rm_comments (obj_asm ob) in
      do p1 <- Assembler.first_pass asm (obj_symtab ob) (obj_bin ob);
      do p2 <- Assembler.second_pass t asm
                 (Assembler.symtab p1) (Assembler.bin p1);
      Ok (Obj asm (Assembler.symtab p1) (Assembler.image p2))
  end.

(** ** Reading the program and the tables

    The text operations of [read_code] and [__load_table]:
    [s.rstrip().lower().split()] on every line.  Characters are code
    points below 256; opening and reading the file is not modelled, the
    functions take the lines [f.readlines()] returns. *)

Module PyText.

(** [c.isspace()]. *)
Definition isspace (c : ascii) : bool :=
  let n := nat_of_ascii c in
  (((9 <=? n) && (n <=? 13)) || ((28 <=? n) && (n <=? 32))
   || (n =? 133) || (n =? 160))%nat.

(** [c.lower()]: the capital letters of ASCII and of Latin-1. *)
Definition lower_char (c : ascii) : ascii :=
  let n := nat_of_ascii c in
  if (((65 <=? n) && (n <=? 90))
      || ((192 <=? n) && (n <=? 222) && negb (n =? 215)))%nat
  then ascii_of_nat (n + 32) else c.

(** [s.lower()]. *)
Fixpoint lower (s : string) : string :=
  match s with
  | EmptyString => EmptyString
  | String c r => String (lower_char c) (lower r)
  end.

(** [s.rstrip()]. *)
Fixpoint rstrip (s : string) : string :=
  match s with
  | String c r =>
      match rstrip r with
      | EmptyString => if isspace c then EmptyString else String c EmptyString
      | r' => String c r'
      end
  | EmptyString => EmptyString
  end.

(** [s.split()]: the maximal runs of characters that are not whitespace,
    [cur] being the run read so far. *)
Fixpoint split_from (cur : string) (s : string) : list string :=
  match s with
  | EmptyString =>
      match cur with EmptyString => [] | _ => [cur] end
  | String c r =>
      if isspace c then
        match cur with
        | EmptyString => split_from EmptyString r
        | _ => cur :: split_from EmptyString r
        end
      else split_from (cur +:+ String c EmptyString) r
  end.

Definition split (s : string) : list string := split_from EmptyString s.

(** [' '.join(tokens)]. *)
Fixpoint join_space (tokens : list string) : string :=
  match tokens with
  | [] => EmptyString
  | [tok] => tok
  | tok :: rest => tok +:+ String " " (join_space rest)
  end.

End PyText.

Module Loader.

(** [s.rstrip().lower().split()]. *)
Definition tokens (s : string) : list string :=
  PyText.split (PyText.lower (PyText.rstrip s)).

(** [read_code]: the path must end with [.asm] or [.S]; the value is what
    [self.__asm] becomes. *)
Definition read_code (path : string) (lines : list string)
    : result (list (list string)) :=
  if Py.endswith path ".asm" || Py.endswith path ".S"
  then Ok (tokens <$> lines)
  else Err (AssertionError "file provided does not end with .asm or .S").

(** The dictionary comprehension [{opcode: binary for opcode, binary in t}]:
    every row must unpack into exactly two items; [d] holds the entries
    made so far. *)
Fixpoint load_rows (rows : list (list string)) (d : gmap string string)
    : result (gmap string string) :=
  match rows with
  | [] => Ok d
  | [opcode; binary] :: rest => load_rows rest (<[opcode := binary]> d)
  | _ :: _ => Err ValueError
  end.

(** [__load_table]. *)
Definition load_table (lines : list string) : result (gmap string string) :=
  load_rows (tokens <$> lines) ∅.

End Loader.


(** * Properties *)

(** ** Results *)

Lemma bind_Ok {A B : Type} (r : result A) (k : A → result B) (b : B) :
  bind r k = Ok b ↔ ∃ a, r = Ok a ∧ k a = Ok b.
Proof.
  destruct r as [a|e]; simpl.
  - split; [eauto | intros (a' & [= <-] & H); exact H].
  - split; [discriminate | intros (a' & [=] & _)].
Qed.

Lemma index_Ok {A : Type} (l : list A) (i : nat) (x : A) :
  Py.index l i = Ok x ↔ l !! i = Some x.
Proof. unfold Py.index. destruct (l !! i); split; congruence. Qed.

Lemma index_Err {A : Type} (l : list A) (i : nat) :
  (length l ≤ i)%nat → Py.index l i = Err IndexError.
Proof. intros H. unfold Py.index. by rewrite lookup_ge_None_2. Qed.

Lemma getitem_Ok (d : gmap string string) (k v : string) :
  Py.getitem d k = Ok v ↔ d !! k = Some v.
Proof. unfold Py.getitem. destruct (d !! k); split; congruence. Qed.

Lemma contains_true (d : gmap string string) (k : string) :
  Py.contains d k = true ↔ is_Some (d !! k).
Proof. unfold Py.contains. apply bool_decide_eq_true. Qed.

Lemma contains_false (d : gmap string string) (k : string) :
  Py.contains d k = false ↔ d !! k = None.
Proof.
  unfold Py.contains. rewrite bool_decide_eq_false.
  rewrite eq_None_not_Some. done.
Qed.

(** ** Strings *)

Lemma string_app_cons (c : ascii) (s t : string) :
  String c s +:+ t = String c (s +:+ t).
Proof. reflexivity. Qed.

Lemma string_app_nil (t : string) : "" +:+ t = t.
Proof. reflexivity. Qed.

Lemma string_app_length (s t : string) :
  String.length (s +:+ t) = (String.length s + String.length t)%nat.
Proof.
  induction s as [|c s IH]; [done|].
  rewrite string_app_cons. simpl. by rewrite IH.
Qed.

Lemma endswith_refl (s : string) : Py.endswith s s = true.
Proof. destruct s; cbn [Py.endswith]; by rewrite String.eqb_refl. Qed.

Lemma endswith_app (s suf : string) : Py.endswith (s +:+ suf) suf = true.
Proof.
  induction s as [|c s IH].
  - apply endswith_refl.
  - rewrite string_app_cons. cbn [Py.endswith]. rewrite IH. apply orb_true_r.
Qed.

Lemma endswith_spec (s suf : string) :
  Py.endswith s suf = true ↔ ∃ p, s = p +:+ suf.
Proof.
  split.
  - induction s as [|c s IH]; cbn [Py.endswith].
    + rewrite orb_false_r. intros H%String.eqb_eq. by exists "".
    + intros [H|H]%orb_true_iff.
      * apply String.eqb_eq in H. by exists "".
      * destruct (IH H) as [p ->]. by exists (String c p).
  - intros [p ->]. apply endswith_app.
Qed.

Lemma zeros_length (n : nat) : String.length (Py.zeros n) = n.
Proof. induction n; simpl; congruence. Qed.

Lemma is_binary_app (s t : string) :
  is_binary (s +:+ t) = is_binary s && is_binary t.
Proof.
  induction s as [|c s IH]; [done|].
  rewrite string_app_cons. simpl. by rewrite IH, andb_assoc.
Qed.

Lemma is_binary_zeros (n : nat) : is_binary (Py.zeros n) = true.
Proof. induction n; simpl; done. Qed.

(** ** Numeric conversions *)

Lemma bin_of_pos_length (p : positive) (rest : string) :
  String.length (BinaryString.Raw.of_pos p rest)
  = (Pos.size_nat p + String.length rest)%nat.
Proof.
  revert rest. induction p as [p IH|p IH|]; intros rest; simpl;
    rewrite ?IH; simpl; lia.
Qed.

Lemma bin_of_pos_binary (p : positive) (rest : string) :
  is_binary (BinaryString.Raw.of_pos p rest) = is_binary rest.
Proof.
  revert rest. induction p as [p IH|p IH|]; intros rest; simpl;
    rewrite ?IH; done.
Qed.

Lemma size_nat_bound (p : positive) : Z.pos p < 2 ^ Z.of_nat (Pos.size_nat p).
Proof.
  induction p as [p IH|p IH|]; simpl Pos.size_nat;
    rewrite ?Nat2Z.inj_succ, ?Z.pow_succ_r by lia; lia.
Qed.

Lemma size_nat_lower (p : positive) (w : nat) :
  2 ^ Z.of_nat w ≤ Z.pos p → (w < Pos.size_nat p)%nat.
Proof.
  intros H. destruct (decide (w < Pos.size_nat p)%nat) as [|Hn]; [done|].
  exfalso. pose proof (size_nat_bound p) as Hlt.
  assert (2 ^ Z.of_nat (Pos.size_nat p) ≤ 2 ^ Z.of_nat w).
  { apply Z.pow_le_mono_r; lia. }
  lia.
Qed.

Lemma size_nat_upper (p : positive) (w : nat) :
  Z.pos p < 2 ^ Z.of_nat w → (Pos.size_nat p ≤ w)%nat.
Proof.
  revert w. induction p as [p IH|p IH|]; intros w H; simpl.
  - destruct w as [|w]; [simpl in H; lia|].
    rewrite Nat2Z.inj_succ, Z.pow_succ_r in H by lia.
    apply le_n_S, IH. lia.
  - destruct w as [|w]; [simpl in H; lia|].
    rewrite Nat2Z.inj_succ, Z.pow_succ_r in H by lia.
    apply le_n_S, IH. lia.
  - destruct w as [|w]; [simpl in H; lia|]. lia.
Qed.

Lemma all_chars_impl (P Q : ascii → bool) (s : string) :
  (∀ c, P c = true → Q c = true) →
  all_chars P s = true → all_chars Q s = true.
Proof.
  intros HPQ. induction s as [|c s IH]; simpl; [done|].
  intros [Hc Hs]%andb_true_iff. by rewrite (HPQ c Hc), IH.
Qed.

Lemma lower_hex_cases (P : ascii → bool) :
  forallb P hex_chars = true → ∀ c, lower_hex c = true → P c = true.
Proof.
  intros HP c Hc. unfold lower_hex in Hc.
  apply existsb_exists in Hc as (d & Hd & ->%Ascii.eqb_eq).
  rewrite forallb_forall in HP. by apply HP.
Qed.

Lemma hex_of_pos_lower (p : positive) (rest : string) :
  all_chars lower_hex rest = true →
  all_chars lower_hex (HexString.Raw.of_pos p rest) = true.
Proof.
  revert p rest. fix IH 1. intros p rest H.
  do 4 try destruct p as [p|p|]; cbn; rewrite ?H; try reflexivity;
    apply IH; cbn; by rewrite H.
Qed.

Lemma hex_of_pos_head (p : positive) (rest : string) :
  ∃ c r, HexString.Raw.of_pos p rest = String c r
         ∧ lower_hex c = true ∧ c ≠ "0"%char.
Proof.
  revert p rest. fix IH 1. intros p rest.
  do 4 try destruct p as [p|p|]; cbn;
    try (eexists _, _; split; [reflexivity|]; split; [reflexivity|done]);
    apply IH.
Qed.

Lemma lstrip_nospace (c : ascii) (s : string) :
  Py.is_space c = false → Py.lstrip (String c s) = String c s.
Proof. intros H. simpl. by rewrite H. Qed.

Lemma rstrip_nospace (s : string) :
  all_chars (λ c, negb (Py.is_space c)) s = true → Py.rstrip s = s.
Proof.
  induction s as [|c s IH]; simpl; [done|].
  intros [Hc Hs]%andb_true_iff. rewrite (IH Hs).
  apply negb_true_iff in Hc. rewrite Hc. by destruct s.
Qed.

Lemma strip_nospace (s : string) :
  all_chars (λ c, negb (Py.is_space c)) s = true → Py.strip s = s.
Proof.
  intros H. unfold Py.strip.
  destruct s as [|c s]; [done|].
  pose proof H as [Hc%negb_true_iff _]%andb_true_iff.
  rewrite (lstrip_nospace _ _ Hc). by apply rstrip_nospace.
Qed.

Lemma lower_hex_nospace (s : string) :
  all_chars lower_hex s = true →
  all_chars (λ c, negb (Py.is_space c)) s = true.
Proof. apply all_chars_impl, lower_hex_cases. reflexivity. Qed.

Lemma digits_lower_hex (s : string) (sep : bool) (acc : N) :
  all_chars lower_hex s = true →
  s ≠ "" →
  Py.digits 16 sep acc s = Some (HexString.Raw.to_N s acc).
Proof.
  revert sep acc. induction s as [|c s IH]; intros sep acc H Hne; [done|].
  clear Hne. simpl in H. apply andb_true_iff in H as [Hc Hs].
  assert (Ascii.eqb c "_" = false ∧
          ∃ d, HexString.ascii_to_digit c = Some d ∧ (d <? 16)%N = true)
    as [Hu (d & Hd & Hlt)].
  { revert c Hc.
    assert (∀ c, lower_hex c = true →
      (negb (Ascii.eqb c "_") &&
       match HexString.ascii_to_digit c with
       | Some d => (d <? 16)%N
       | None => false
       end) = true) as Hall.
    { apply lower_hex_cases. reflexivity. }
    intros c Hc. specialize (Hall c Hc).
    apply andb_true_iff in Hall as [Hu%negb_true_iff Hd].
    split; [done|]. destruct (HexString.ascii_to_digit c); [eauto|done]. }
  cbn [Py.digits HexString.Raw.to_N]. unfold Py.digit.
  rewrite Hu, Hd, Hlt.
  destruct s as [|c' s'] eqn:Es; [reflexivity|].
  rewrite <- Es in *. apply IH; [done | by rewrite Es].
Qed.

Lemma int_hex_of_pos (p : positive) :
  Py.int (HexString.Raw.of_pos p "") 16 = Ok (Z.pos p).
Proof.
  pose proof (hex_of_pos_lower p "" eq_refl) as Hall.
  pose proof (HexString.Raw.to_N_of_pos p "" 0) as Hval. cbn in Hval.
  unfold Py.int. rewrite strip_nospace by by apply lower_hex_nospace.
  destruct (hex_of_pos_head p "") as (c & r & E & Hc & Hnz).
  rewrite E in *.
  assert (Py.digits 16 true 0 (String c r) = Some (N.pos p)) as Hd.
  { rewrite digits_lower_hex by done. by rewrite Hval. }
  unfold lower_hex in Hc. apply existsb_exists in Hc as (d & Hin & ->%Ascii.eqb_eq).
  simpl in Hin.
  repeat (destruct Hin as [<-|Hin]; [first [done | cbn -[Py.digits]; by rewrite Hd]|]).
  done.
Qed.

Lemma int_hex_neg (s : string) :
  all_chars lower_hex s = true →
  Py.int (String "x" s) 16 = Err ValueError.
Proof.
  intros H. unfold Py.int. rewrite strip_nospace.
  - reflexivity.
  - simpl. by apply lower_hex_nospace.
Qed.

(** *** Padding *)

Lemma zfill_binary (s : string) (w : nat) :
  is_binary s = true →
  Py.zfill s w = Py.zeros (w - String.length s) +:+ s.
Proof.
  intros H. unfold Py.zfill.
  destruct (Nat.leb_spec w (String.length s)) as [Hle|Hlt].
  - replace (w - String.length s)%nat with 0%nat by lia. reflexivity.
  - destruct s as [|c r]; simpl in *.
    + rewrite Nat.sub_0_r. clear. induction w as [|w IH]; [done|].
      simpl. rewrite string_app_cons. by f_equal.
    + apply andb_true_iff in H as [Hc _].
      apply orb_true_iff in Hc as [->%Ascii.eqb_eq | ->%Ascii.eqb_eq];
        reflexivity.
Qed.

Lemma zfill_binary_length (s : string) (w : nat) :
  is_binary s = true →
  String.length (Py.zfill s w) = (w `max` String.length s)%nat.
Proof.
  intros H. rewrite zfill_binary, string_app_length, zeros_length by done. lia.
Qed.

Lemma zfill_binary_binary (s : string) (w : nat) :
  is_binary s = true → is_binary (Py.zfill s w) = true.
Proof.
  intros H. by rewrite zfill_binary, is_binary_app, is_binary_zeros, H.
Qed.

Lemma format_b_binary (z : Z) : 0 ≤ z → is_binary (Py.format_b z) = true.
Proof.
  destruct z as [|p|p]; intros H; [done | | lia].
  simpl. by rewrite bin_of_pos_binary.
Qed.

Lemma format_b_length (z : Z) (w : nat) :
  0 ≤ z < 2 ^ Z.of_nat w → (0 < w)%nat → (String.length (Py.format_b z) ≤ w)%nat.
Proof.
  destruct z as [|p|p]; intros [H1 H2] Hw; [simpl; lia | | lia].
  simpl. rewrite bin_of_pos_length. simpl.
  pose proof (size_nat_upper p w H2). lia.
Qed.

Lemma format_b_length_overflow (z : Z) (w : nat) :
  2 ^ Z.of_nat w ≤ z → (w < String.length (Py.format_b z))%nat.
Proof.
  intros H. assert (0 < 2 ^ Z.of_nat w) by (apply Z.pow_pos_nonneg; lia).
  destruct z as [|p|p]; [lia | | lia].
  simpl. rewrite bin_of_pos_length. simpl.
  pose proof (size_nat_lower p w H). lia.
Qed.

(** *** Addresses *)

Lemma addr12_length (n : Z) :
  0 ≤ n < 4096 → String.length (addr12 n) = 12%nat.
Proof.
  intros H. unfold addr12.
  rewrite zfill_binary_length by (apply format_b_binary; lia).
  pose proof (format_b_length n 12). simpl in *. lia.
Qed.

Lemma addr12_binary (n : Z) : 0 ≤ n → is_binary (addr12 n) = true.
Proof. intros H. by apply zfill_binary_binary, format_b_binary. Qed.

Lemma location_nonneg (org : string) (inc o : Z) :
  Py.int org 16 = Ok o → 0 ≤ o + inc →
  Assembler.location org inc = Ok (addr12 (o + inc)).
Proof.
  intros Ho Hn. unfold Assembler.location. rewrite Ho. simpl.
  destruct (o + inc) as [|p|p] eqn:E; [reflexivity | | lia].
  unfold Assembler.format2bin, Py.hex. simpl.
  by rewrite int_hex_of_pos.
Qed.

Lemma location_neg (org : string) (inc o : Z) :
  Py.int org 16 = Ok o → o + inc < 0 →
  Assembler.location org inc = Err ValueError.
Proof.
  intros Ho Hn. unfold Assembler.location. rewrite Ho. simpl.
  destruct (o + inc) as [|p|p] eqn:E; [lia | lia |].
  unfold Assembler.format2bin, Py.hex. simpl.
  by rewrite int_hex_neg by by apply hex_of_pos_lower.
Qed.

Lemma location_bad_origin (org : string) (inc : Z) (e : exn) :
  Py.int org 16 = Err e → Assembler.location org inc = Err e.
Proof. intros Ho. unfold Assembler.location. by rewrite Ho. Qed.

Lemma location_Ok (org : string) (inc : Z) (c : string) :
  Assembler.location org inc = Ok c →
  ∃ o, Py.int org 16 = Ok o ∧ 0 ≤ o + inc ∧ c = addr12 (o + inc).
Proof.
  intros H. destruct (Py.int org 16) as [o|e] eqn:Ho.
  - exists o. split; [done|].
    destruct (Z_lt_le_dec (o + inc) 0) as [Hlt|Hge].
    + rewrite (location_neg _ _ _ Ho Hlt) in H. done.
    + rewrite (location_nonneg _ _ _ Ho Hge) in H. split; congruence.
  - rewrite (location_bad_origin _ _ _ Ho) in H. done.
Qed.

(** ** Pass 1 *)

Section first_pass.
Import Assembler.

(** What an iteration that does not raise has done. *)
Lemma first_pass_step_Ok (line : list string) (tok0 : string) (st st' : pass1) :
  first_pass_step line tok0 st = Ok st' →
  ∃ o i c,
    (tok0 = "org" ∧ line !! 1%nat = Some o ∧ i = -1
     ∨ tok0 ≠ "org" ∧ o = org st ∧ i = inc st) ∧
    location o i = Ok c ∧
    (islabel tok0 = true → (2 ≤ length line)%nat) ∧
    st' = Pass1 (S (linecounter st)) (i + 1) o c
            (if islabel tok0 then <[tok0 := c]> (symtab st) else symtab st)
            (Dict.set c None (bin st)).
Proof.
  unfold first_pass_step. intros H.
  apply bind_Ok in H as ([o i] & Hoi & H).
  apply bind_Ok in H as (c & Hc & H).
  apply bind_Ok in H as (tab & Htab & [= <-]).
  exists o, i, c. split; [|split; [done|]].
  - destruct (String.eqb_spec tok0 "org") as [->|Hne].
    + apply bind_Ok in Hoi as (o' & Ho' & [= <- <-]).
      left. by rewrite index_Ok in Ho'.
    + injection Hoi as <- <-. by right.
  - destruct (islabel tok0); [|injection Htab as <-; done].
    destruct (Nat.leb_spec 2 (length line)); [|done].
    injection Htab as <-. done.
Qed.

(** The loop ends normally exactly when the relation holds. *)
Lemma first_pass_loop_scan (ls : list (list string)) (st st' : pass1) :
  first_pass_loop ls st = Ok st' ↔ scan1 ls st st'.
Proof.
  split.
  - revert st. induction ls as [|line ls IH]; intros st H.
    + injection H as <-. constructor.
    + cbn [first_pass_loop] in H.
      apply bind_Ok in H as (tok0 & Htok%index_Ok & H).
      destruct (String.eqb_spec tok0 "end") as [->|Hne].
      * injection H as <-. by constructor.
      * apply bind_Ok in H as (st1 & Hstep & H).
        eapply scan1_step; eauto.
  - induction 1 as [st | line rest st Hend
                    | line rest tok0 st st1 st' Htok Hne Hstep _ IH];
      cbn [first_pass_loop]; [done| |].
    + unfold Py.index. by rewrite Hend.
    + unfold Py.index. rewrite Htok. cbn [bind].
      destruct (String.eqb_spec tok0 "end") as [|_]; [done|].
      by rewrite Hstep.
Qed.

(** The scan of a prefix that holds no [end] line can be run first. *)
Lemma first_pass_loop_app (pre rest : list (list string)) (st : pass1) :
  Forall not_end pre →
  first_pass_loop (pre ++ rest) st
  = do st' <- first_pass_loop pre st; first_pass_loop rest st'.
Proof.
  intros Hpre. revert st.
  induction Hpre as [|line pre Hline _ IH]; intros st; [done|].
  simpl. unfold Py.index. unfold not_end in Hline.
  destruct (line !! 0%nat) as [tok0|]; [|done]. simpl.
  destruct (String.eqb_spec tok0 "end") as [->|_]; [done|].
  destruct (first_pass_step line tok0 st) as [st'|e]; [|done].
  simpl. apply IH.
Qed.

(** One more line counted per iteration. *)
Lemma first_pass_loop_linecounter (ls : list (list string)) (st st' : pass1) :
  Forall not_end ls →
  first_pass_loop ls st = Ok st' →
  linecounter st' = (linecounter st + length ls)%nat.
Proof.
  intros Hls H%first_pass_loop_scan.
  induction H as [st | line rest st Hend
                  | line rest tok0 st st1 st' Htok Hne Hstep _ IH].
  - simpl. lia.
  - apply Forall_cons in Hls as [Hline _]. by destruct Hline.
  - apply Forall_cons in Hls as [_ Hls]. rewrite (IH Hls).
    apply first_pass_step_Ok in Hstep as (o & i & c & _ & _ & _ & ->).
    simpl. lia.
Qed.

Lemma first_pass_step_keys (line : list string) (tok0 : string) (st st' : pass1) :
  first_pass_step line tok0 st = Ok st' →
  keys_are_labels (symtab st) → keys_are_labels (symtab st').
Proof.
  intros (o & i & c & _ & _ & _ & ->)%first_pass_step_Ok Hinv. simpl.
  destruct (islabel tok0) eqn:Hl; [|done].
  intros k a. rewrite lookup_insert. case_decide as Hk; [|by apply Hinv].
  by subst.
Qed.

Lemma first_pass_loop_keys (ls : list (list string)) (st st' : pass1) :
  first_pass_loop ls st = Ok st' →
  keys_are_labels (symtab st) → keys_are_labels (symtab st').
Proof.
  intros H%first_pass_loop_scan.
  induction H as [| | line rest tok0 st st1 st' _ _ Hstep _ IH]; [done..|].
  intros Hinv. apply IH. by eapply first_pass_step_keys.
Qed.

End first_pass.

Section first_pass_claims.
Import Assembler.

Lemma islabel_not_end (tok : string) : islabel tok = true → tok ≠ "end".
Proof. intros H ->. vm_compute in H. discriminate. Qed.

Lemma islabel_not_org (tok : string) : islabel tok = true → tok ≠ "org".
Proof. intros H ->. vm_compute in H. discriminate. Qed.

(** The step on a line that leaves the origin alone. *)
Lemma first_pass_step_plain (line : list string) (tok0 c : string) (st : pass1) :
  tok0 ≠ "org" →
  location (org st) (inc st) = Ok c →
  (islabel tok0 = true → (2 ≤ length line)%nat) →
  first_pass_step line tok0 st
  = Ok (Pass1 (S (linecounter st)) (inc st + 1) (org st) c
          (if islabel tok0 then <[tok0 := c]> (symtab st) else symtab st)
          (Dict.set c None (bin st))).
Proof.
  intros Hne Hc Hlen. unfold first_pass_step.
  destruct (String.eqb_spec tok0 "org") as [|_]; [done|]. cbn [bind].
  rewrite Hc. cbn [bind].
  destruct (islabel tok0); [|done].
  destruct (Nat.leb_spec 2 (length line)); [done|].
  specialize (Hlen eq_refl). lia.
Qed.

(** A run of plain lines from a valid origin: nothing fails, the offset
    counts the lines and the last line gets origin + offset. *)
Lemma first_pass_loop_plain (ls : list (list string)) (st : pass1) (o : Z) :
  Forall (λ l, plain l = true) ls →
  Py.int (org st) 16 = Ok o → 0 ≤ o + inc st →
  ∃ stn, first_pass_loop ls st = Ok stn
    ∧ org stn = org st
    ∧ inc stn = inc st + Z.of_nat (length ls)
    ∧ (ls ≠ [] → ctr stn = addr12 (o + inc st + Z.of_nat (length ls) - 1)).
Proof.
  intros Hls. revert st.
  induction Hls as [|line ls Hline _ IH]; intros st Ho Hge.
  - exists st. simpl. repeat split; [lia | done].
  - destruct line as [|tok0 line']; [done|]. unfold plain in Hline.
    apply andb_true_iff in Hline as [[Horg Hend]%andb_true_iff Hlab].
    apply negb_true_iff in Horg, Hend.
    apply String.eqb_neq in Horg.
    cbn [first_pass_loop Py.index lookup list_lookup bind]. rewrite Hend.
    rewrite (first_pass_step_plain _ _ (addr12 (o + inc st)));
      [|done|by apply location_nonneg|].
    2:{ intros Hl. rewrite Hl in Hlab. cbn [negb orb] in Hlab.
        by apply Nat.leb_le in Hlab. }
    cbn [bind].
    match goal with |- context [first_pass_loop ls ?s] => set (st1 := s) end.
    destruct (IH st1) as (stn & Hloop & Horg' & Hinc & Hctr);
      [done | simpl; lia |].
    rewrite Hloop. exists stn. simpl in *.
    split; [done|]. split; [done|]. split; [lia|]. intros _.
    destruct ls as [|l ls'].
    + injection Hloop as <-. simpl. f_equal. lia.
    + rewrite Hctr by done. f_equal. simpl length. lia.
Qed.

End first_pass_claims.

Section first_pass_theorems.
Import Assembler.

Lemma body_cons (l0 : list string) (asm : list (list string)) :
  body (l0 :: asm) = removelast asm.
Proof. reflexivity. Qed.

(** Lines that do not define [k] leave its binding alone. *)
Lemma first_pass_loop_other (k : string) (ls : list (list string)) (st st' : pass1) :
  Forall (λ line, line !! 0%nat ≠ Some k) ls →
  first_pass_loop ls st = Ok st' →
  symtab st' !! k = symtab st !! k.
Proof.
  intros Hls H%first_pass_loop_scan.
  induction H as [| | line rest tok0 st st1 st' Htok _ Hstep _ IH]; [done..|].
  apply Forall_cons in Hls as [Hline Hls]. rewrite (IH Hls).
  apply first_pass_step_Ok in Hstep as (o & i & c & _ & _ & _ & ->). simpl.
  destruct (islabel tok0); [|done].
  apply lookup_insert_ne. congruence.
Qed.

(** A binding is never removed. *)
Lemma first_pass_loop_bound (k : string) (ls : list (list string)) (st st' : pass1) :
  first_pass_loop ls st = Ok st' →
  is_Some (symtab st !! k) → is_Some (symtab st' !! k).
Proof.
  intros H%first_pass_loop_scan.
  induction H as [| | line rest tok0 st st1 st' _ _ Hstep _ IH]; [done..|].
  intros Hk. apply IH.
  apply first_pass_step_Ok in Hstep as (o & i & c & _ & _ & _ & ->). simpl.
  destruct (islabel tok0); [|done].
  rewrite lookup_insert. by case_decide.
Qed.

(** The state after a defining line binds its label to the line's
    address. *)
Lemma first_pass_loop_defines (pre : list (list string)) (l : list string)
    (tok0 : string) (st stl : pass1) :
  Forall not_end pre →
  l !! 0%nat = Some tok0 → islabel tok0 = true →
  first_pass_loop (pre ++ [l]) st = Ok stl →
  symtab stl !! tok0 = Some (ctr stl).
Proof.
  intros Hpre Hl Hlab H.
  rewrite first_pass_loop_app in H by done.
  apply bind_Ok in H as (st1 & _ & H).
  simpl in H. unfold Py.index in H. rewrite Hl in H. simpl in H.
  destruct (String.eqb_spec tok0 "end") as [->|_];
    [by apply islabel_not_end in Hlab|].
  apply bind_Ok in H as (st2 & Hstep & [= <-]).
  apply first_pass_step_Ok in Hstep as (o & i & c & _ & _ & _ & ->). simpl.
  rewrite Hlab. apply lookup_insert_eq.
Qed.

End first_pass_theorems.

(** ** The symbol table keeps the terminator *)

Section symbol_table_keys.
Import Assembler.

(** Claim C3, as stated, fails: after Pass 1 on the sample program the label
    defined by the line [x, hex 1] is stored under the key ["x,"], which
    ends with the terminator, and nothing is stored under ["x"]. *)
Lemma symbol_table_key_has_terminator :
  first_pass Sample.example ∅ [] = Ok SampleStates.example_pass1
  ∧ symtab SampleStates.example_pass1 !! "x," = Some "000100000010"
  ∧ symtab SampleStates.example_pass1 !! "x" = None
  ∧ Py.endswith "x," "," = true.
Proof. repeat split; vm_compute; reflexivity. Qed.

(** Claim C3 (amended).  Pass 1 stores every label under its token as written,
    terminator included: a defining line that is scanned leaves its first
    token bound, and every key of the symbol table after Pass 1 ends with
    [,]. *)
Theorem symbol_table_keys_end_with_terminator
    (asm : list (list string)) (p : pass1) :
  first_pass asm ∅ [] = Ok p →
  (∀ pre l post tok0,
     body asm = pre ++ l :: post → Forall not_end pre →
     l !! 0%nat = Some tok0 → islabel tok0 = true →
     is_Some (symtab p !! tok0))
  ∧ (∀ k a, symtab p !! k = Some a → Py.endswith k "," = true).
Proof.
  intros H. unfold first_pass in H.
  apply bind_Ok in H as (l0 & _ & H). apply bind_Ok in H as (o & _ & H).
  split.
  - intros pre l post tok0 Hbody Hpre Hl Hlab.
    rewrite Hbody in H.
    change (pre ++ l :: post) with (pre ++ [l] ++ post) in H.
    rewrite app_assoc in H.
    rewrite first_pass_loop_app in H.
    2:{ apply Forall_app. split; [done|]. apply Forall_singleton.
        unfold not_end. rewrite Hl. intros [= ->].
        by apply islabel_not_end in Hlab. }
    apply bind_Ok in H as (stl & Hl' & H).
    apply (first_pass_loop_bound _ _ _ _ H).
    erewrite first_pass_loop_defines; done.
  - apply (first_pass_loop_keys _ _ _ H). intros k a. simpl.
    by rewrite lookup_empty.
Qed.

Lemma symbol_table_keys_end_with_terminator_witness :
  first_pass Sample.example ∅ [] = Ok SampleStates.example_pass1
  ∧ (∀ pre l post tok0,
       body Sample.example = pre ++ l :: post → Forall not_end pre →
       l !! 0%nat = Some tok0 → islabel tok0 = true →
       is_Some (symtab SampleStates.example_pass1 !! tok0))
  ∧ (∀ k a, symtab SampleStates.example_pass1 !! k = Some a →
       Py.endswith k "," = true).
Proof.
  split; [vm_compute; reflexivity|].
  apply (symbol_table_keys_end_with_terminator Sample.example).
  vm_compute; reflexivity.
Defined.

End symbol_table_keys.

(** ** Relocation directives *)

Section relocation.
Import Assembler.

(** Claim C6, as stated, fails: in a program whose only line between the first
    line and [end] is [org 200], Pass 1 leaves a pending entry, at
    address 0x1ff, for that line. *)
Lemma relocation_directive_allocates :
  ∃ p, first_pass Sample.two_origins ∅ [] = Ok p
       ∧ bin p = [("000111111111", None)]
       ∧ addr12 (0x200 - 1) = "000111111111".
Proof. eexists. repeat split; vm_compute; reflexivity. Qed.

(** Claim C6 (amended).  A relocation directive met by the scan, with a
    hexadecimal operand [o ≥ 1], sets the origin to its operand and the
    offset to 0, and the directive line itself is given the pending entry
    of address [o - 1]; the [n]-th of the plain lines that follow receives
    address [o + (n - 1)], so the first one receives [o + 0]. *)
Theorem relocation_directive
    (st : pass1) (line : list string) (operand : string) (o : Z) :
  line !! 0%nat = Some "org" → line !! 1%nat = Some operand →
  Py.int operand 16 = Ok o → 1 ≤ o →
  ∃ st1, first_pass_loop [line] st = Ok st1
    ∧ org st1 = operand ∧ inc st1 = 0
    ∧ symtab st1 = symtab st
    ∧ bin st1 = Dict.set (addr12 (o - 1)) None (bin st)
    ∧ ∀ ls, ls ≠ [] → Forall (λ l, plain l = true) ls →
        ∃ stn, first_pass_loop (line :: ls) st = Ok stn
          ∧ org stn = operand
          ∧ inc stn = Z.of_nat (length ls)
          ∧ ctr stn = addr12 (o + (Z.of_nat (length ls) - 1)).
Proof.
  intros H0 H1 Ho Hge.
  assert (first_pass_step line "org" st
          = Ok (Pass1 (S (linecounter st)) 0 operand (addr12 (o - 1))
                  (symtab st) (Dict.set (addr12 (o - 1)) None (bin st))))
    as Hstep.
  { unfold first_pass_step. simpl. unfold Py.index. rewrite H1. simpl.
    rewrite (location_nonneg operand (-1) o) by (done || lia).
    simpl. by replace (o + -1) with (o - 1) by lia. }
  eexists. split; [|split; [|split; [|split; [|split]]]].
  - simpl. unfold Py.index. rewrite H0. simpl. rewrite Hstep. reflexivity.
  - reflexivity.
  - reflexivity.
  - reflexivity.
  - reflexivity.
  - intros ls Hne Hls.
    cbn [first_pass_loop]. unfold Py.index. rewrite H0. cbn [bind].
    change (String.eqb "org" "end") with false. cbv iota.
    rewrite Hstep. cbn [bind].
    match goal with |- context [first_pass_loop ls ?s] => set (st1 := s) end.
    destruct (first_pass_loop_plain ls st1 o Hls) as (stn & Hloop & Horg & Hinc & Hctr);
      [done | simpl; lia |].
    exists stn. split; [done|]. split; [done|]. split; [simpl in Hinc; lia|].
    rewrite Hctr by done. simpl. f_equal. lia.
Qed.

Lemma relocation_directive_witness :
  ["org"; "200"] !! 0%nat = Some "org" ∧ ["org"; "200"] !! 1%nat = Some "200"
  ∧ Py.int "200" 16 = Ok 512 ∧ 1 ≤ 512
  ∧ ∃ st1, first_pass_loop [["org"; "200"]] (pass1_init "100") = Ok st1
    ∧ org st1 = "200" ∧ inc st1 = 0
    ∧ symtab st1 = symtab (pass1_init "100")
    ∧ bin st1 = Dict.set (addr12 (512 - 1)) None (bin (pass1_init "100"))
    ∧ ∀ ls, ls ≠ [] → Forall (λ l, plain l = true) ls →
        ∃ stn, first_pass_loop (["org"; "200"] :: ls) (pass1_init "100") = Ok stn
          ∧ org stn = "200"
          ∧ inc stn = Z.of_nat (length ls)
          ∧ ctr stn = addr12 (512 + (Z.of_nat (length ls) - 1)).
Proof.
  split; [reflexivity|]. split; [reflexivity|].
  split; [vm_compute; reflexivity|]. split; [lia|].
  apply (relocation_directive (pass1_init "100") ["org"; "200"] "200" 512);
    [reflexivity | reflexivity | vm_compute; reflexivity | lia].
Defined.

End relocation.

(** ** Labels with nothing after them *)

Section lone_label.
Import Assembler.

(** The scan stops with an exception at a label that stands alone. *)
Lemma first_pass_loop_lone_label (tok : string) (post : list (list string))
    (st : pass1) :
  islabel tok = true →
  ∃ e, first_pass_loop ([tok] :: post) st = Err e
    ∧ (is_ok (location (org st) (inc st)) = true →
       e = AssertionError (assert_msg (S (linecounter st)))).
Proof.
  intros Hlab. cbn [first_pass_loop Py.index lookup list_lookup bind].
  destruct (String.eqb_spec tok "end") as [->|_];
    [by apply islabel_not_end in Hlab|].
  unfold first_pass_step.
  destruct (String.eqb_spec tok "org") as [->|_];
    [by apply islabel_not_org in Hlab|].
  cbn [bind]. destruct (location (org st) (inc st)) as [c|e]; cbn [bind].
  - rewrite Hlab. simpl. eauto.
  - exists e. split; [done|]. intros [=].
Qed.

(** Pass 1 as the scan of a prefix followed by the scan of the rest. *)
Lemma first_pass_split (asm pre rest : list (list string)) (l0 : list string)
    (o : string) :
  asm !! 0%nat = Some l0 → l0 !! 1%nat = Some o →
  body asm = pre ++ rest → Forall not_end pre →
  first_pass asm ∅ []
  = do st <- first_pass_loop pre (pass1_init o); first_pass_loop rest st.
Proof.
  intros H0 H1 Hbody Hpre. unfold first_pass, Py.index. rewrite H0. simpl.
  rewrite H1. simpl. rewrite Hbody. by apply first_pass_loop_app.
Qed.

(** Claim C7, as stated, fails.  With two labels that stand alone, the third
    line is such a label but the message names line 2; and a blank line
    before the label makes assembly fail with an [IndexError], which
    names no line. *)
Lemma lone_label_error_names_other_line :
  assemble Sample.tabs Sample.two_lone_labels
  = Err (AssertionError "Invalid Assembly Code, in line 2")
  ∧ Sample.two_lone_labels !! 2%nat = Some ["b,"]
  ∧ assemble Sample.tabs Sample.blank_then_lone_label = Err IndexError
  ∧ Sample.blank_then_lone_label !! 2%nat = Some ["b,"].
Proof. repeat split; vm_compute; reflexivity. Qed.

(** Claim C7 (amended).  If a line between the first line and the terminal
    directive consists of one token that is a label, assembly fails; and
    if Pass 1 gets to that line (the lines before it are scanned without
    an exception) with a valid current address, the failure is the
    assertion whose message gives the line's 1-based number. *)
Theorem lone_label_is_rejected (t : tables) (asm0 : list (list string))
    (pre post : list (list string)) (tok : string) :
  body (rm_comments asm0) = pre ++ [tok] :: post →
  Forall not_end pre →
  islabel tok = true →
  (∃ e, assemble t asm0 = Err e)
  ∧ (∀ l0 o st,
       rm_comments asm0 !! 0%nat = Some l0 → l0 !! 1%nat = Some o →
       first_pass_loop pre (pass1_init o) = Ok st →
       is_ok (location (org st) (inc st)) = true →
       assemble t asm0
       = Err (AssertionError
                ("Invalid Assembly Code, in line "
                 +:+ Py.format_d (length pre + 2)))).
Proof.
  intros Hbody Hpre Hlab.
  assert (asm0 ≠ []) as Hne by (by intros ->; destruct pre).
  split.
  - unfold assemble. destruct asm0 as [|a0 asm0']; [done|].
    set (asm := rm_comments (a0 :: asm0')) in *.
    destruct (asm !! 0%nat) as [l0|] eqn:H0.
    2:{ unfold first_pass, Py.index. rewrite H0. simpl. eauto. }
    destruct (l0 !! 1%nat) as [o|] eqn:H1.
    2:{ unfold first_pass, Py.index. rewrite H0. simpl. rewrite H1.
        simpl. eauto. }
    rewrite (first_pass_split _ _ _ _ _ H0 H1 Hbody Hpre).
    destruct (first_pass_loop pre (pass1_init o)) as [st|e]; cbn [bind];
      [|eauto].
    destruct (first_pass_loop_lone_label tok post st Hlab) as (e & -> & _).
    cbn [bind]. eauto.
  - intros l0 o st H0 H1 Hloop Hloc.
    unfold assemble. destruct asm0 as [|a0 asm0']; [done|].
    rewrite (first_pass_split _ _ _ _ _ H0 H1 Hbody Hpre), Hloop. cbn [bind].
    destruct (first_pass_loop_lone_label tok post st Hlab) as (e & -> & He).
    rewrite (He Hloc). cbn [bind].
    rewrite (first_pass_loop_linecounter _ _ _ Hpre Hloop).
    unfold assert_msg. do 4 f_equal. simpl. lia.
Qed.

Lemma lone_label_is_rejected_witness :
  body (rm_comments Sample.lone_label_third) = [["hlt"]] ++ [["x,"]] ++ []
  ∧ Forall not_end [["hlt"]]
  ∧ islabel "x," = true
  ∧ (∃ e, assemble Sample.tabs Sample.lone_label_third = Err e)
  ∧ (∀ l0 o st,
       rm_comments Sample.lone_label_third !! 0%nat = Some l0 →
       l0 !! 1%nat = Some o →
       first_pass_loop [["hlt"]] (pass1_init o) = Ok st →
       is_ok (location (org st) (inc st)) = true →
       assemble Sample.tabs Sample.lone_label_third
       = Err (AssertionError
                ("Invalid Assembly Code, in line "
                 +:+ Py.format_d (length [["hlt"]] + 2)))).
Proof.
  split; [reflexivity|].
  split; [by repeat constructor|].
  split; [vm_compute; reflexivity|].
  apply (lone_label_is_rejected Sample.tabs Sample.lone_label_third
           [["hlt"]] [] "x,");
    [reflexivity | by repeat constructor | vm_compute; reflexivity].
Defined.

End lone_label.

(** ** Labels defined more than once *)

Section redefinition.
Import Assembler.

(** Claim C10.  Defining a label that is already bound raises nothing: the
    iteration succeeds and overwrites the binding with the address of the
    current line.  So when Pass 1 completes, a label is bound to the
    address given to the last line that defines it, whatever lines
    defined it before. *)
Theorem redefinition_last_wins :
  (∀ (line : list string) (tok0 old c : string) (st : pass1),
     line !! 0%nat = Some tok0 → islabel tok0 = true →
     (2 ≤ length line)%nat →
     symtab st !! tok0 = Some old →
     location (org st) (inc st) = Ok c →
     ∃ st', first_pass_loop [line] st = Ok st'
       ∧ ctr st' = c ∧ symtab st' = <[tok0 := c]> (symtab st))
  ∧ (∀ (pre post : list (list string)) (l : list string) (tok0 : string)
       (st stF : pass1),
     Forall not_end pre →
     l !! 0%nat = Some tok0 → islabel tok0 = true →
     Forall (λ line, line !! 0%nat ≠ Some tok0) post →
     first_pass_loop (pre ++ l :: post) st = Ok stF →
     ∃ stl, first_pass_loop (pre ++ [l]) st = Ok stl
       ∧ symtab stF !! tok0 = Some (ctr stl)).
Proof.
  split.
  - intros line tok0 old c st Hl Hlab Hlen _ Hc.
    cbn [first_pass_loop]. unfold Py.index. rewrite Hl. cbn [bind].
    destruct (String.eqb_spec tok0 "end") as [->|_];
      [by apply islabel_not_end in Hlab|].
    rewrite (first_pass_step_plain line tok0 c st);
      [|by apply islabel_not_org|done|done].
    cbn [bind]. eexists. split; [done|]. simpl. by rewrite Hlab.
  - intros pre post l tok0 st stF Hpre Hl Hlab Hpost H.
    change (pre ++ l :: post) with (pre ++ [l] ++ post) in H.
    rewrite app_assoc in H.
    rewrite first_pass_loop_app in H.
    2:{ apply Forall_app. split; [done|]. apply Forall_singleton.
        unfold not_end. rewrite Hl. intros [= ->].
        by apply islabel_not_end in Hlab. }
    apply bind_Ok in H as (stl & Hstl & H).
    exists stl. split; [done|].
    rewrite (first_pass_loop_other tok0 post stl stF Hpost H).
    by eapply first_pass_loop_defines.
Qed.

Lemma redefinition_last_wins_witness :
  first_pass_loop [["x,"; "hlt"]; ["y,"; "dec"; "1"]] (pass1_init "100")
  = Ok SampleStates.twice_defined_before_last
  ∧ (symtab SampleStates.twice_defined_before_last !! "x," = Some "000100000000"
   ∧ location (org SampleStates.twice_defined_before_last)
       (inc SampleStates.twice_defined_before_last) = Ok "000100000010"
   ∧ ∃ st', first_pass_loop [["x,"; "dec"; "2"]]
              SampleStates.twice_defined_before_last = Ok st'
       ∧ ctr st' = "000100000010"
       ∧ symtab st' = <["x," := "000100000010"]>
                        (symtab SampleStates.twice_defined_before_last))
  ∧ first_pass_loop (body Sample.twice_defined) (pass1_init "100")
    = Ok SampleStates.twice_defined_pass1
  ∧ ∃ stl,
      first_pass_loop ([["x,"; "hlt"]; ["y,"; "dec"; "1"]] ++ [["x,"; "dec"; "2"]])
        (pass1_init "100") = Ok stl
      ∧ symtab SampleStates.twice_defined_pass1 !! "x," = Some (ctr stl).
Proof.
  split; [vm_compute; reflexivity|].
  split.
  { split; [vm_compute; reflexivity|]. split; [vm_compute; reflexivity|].
    apply (proj1 redefinition_last_wins ["x,"; "dec"; "2"] "x,"
             "000100000000" "000100000010"
             SampleStates.twice_defined_before_last);
      [reflexivity | vm_compute; reflexivity | simpl; lia
      | vm_compute; reflexivity | vm_compute; reflexivity]. }
  split; [vm_compute; reflexivity|].
  apply (proj2 redefinition_last_wins
           [["x,"; "hlt"]; ["y,"; "dec"; "1"]] [] ["x,"; "dec"; "2"] "x,"
           (pass1_init "100") SampleStates.twice_defined_pass1);
    [by repeat constructor | reflexivity | vm_compute; reflexivity
    | constructor | vm_compute; reflexivity].
Defined.

End redefinition.

(** ** Numeric conversion *)

Section conversion.
Import Assembler.

Lemma zfill_wide (s : string) (w : nat) :
  (w ≤ String.length s)%nat → Py.zfill s w = s.
Proof.
  intros H. unfold Py.zfill.
  by destruct (Nat.leb_spec w (String.length s)); [|lia].
Qed.

Lemma bin_to_N_zeros (n : nat) (s : string) :
  BinaryString.Raw.to_N (Py.zeros n +:+ s) 0 = BinaryString.Raw.to_N s 0.
Proof. induction n as [|n IH]; [done|]. simpl. exact IH. Qed.

Lemma bin_to_N_format_b (v : Z) :
  0 ≤ v → BinaryString.Raw.to_N (Py.format_b v) 0 = Z.to_N v.
Proof.
  destruct v as [|p|p]; intros Hv; [done | | lia].
  simpl. apply (BinaryString.Raw.to_N_of_pos p "" 0).
Qed.

(** A padded binary numeral reads back as the number. *)
Lemma zfill_format_b_value (v : Z) (w : nat) :
  0 ≤ v → BinaryString.to_Z ("0b" +:+ Py.zfill (Py.format_b v) w) = v.
Proof.
  intros Hv. rewrite zfill_binary by by apply format_b_binary.
  rewrite !string_app_cons, string_app_nil.
  unfold BinaryString.to_Z, BinaryString.to_N. simpl.
  rewrite bin_to_N_zeros, bin_to_N_format_b by done.
  destruct v; simpl; done || lia.
Qed.

Lemma addr12_inj (n m : Z) : 0 ≤ n → 0 ≤ m → addr12 n = addr12 m → n = m.
Proof.
  intros Hn Hm H. rewrite <- (zfill_format_b_value n 12) by done.
  rewrite <- (zfill_format_b_value m 12) by done.
  unfold addr12 in H. by rewrite H.
Qed.

(** Claim C2.  The code departs from the claim, and from the docstring of
    [__format2bin], which promises a representation of at most
    [format_bits] bits: the decimal literal 65536 and the hexadecimal
    literal 10000, converted to 16 bits, are not rejected; the routine
    returns the 17-character string of the value. *)
Lemma format2bin_accepts_overflow :
  format2bin "65536" "dec" 16 = Ok "10000000000000000"
  ∧ format2bin "10000" "hex" 16 = Ok "10000000000000000"
  ∧ String.length "10000000000000000" = 17%nat.
Proof. repeat split; vm_compute; reflexivity. Qed.

(** The same for every literal whose value [v] does not fit in the
    requested width [w]: the conversion routine raises nothing and
    returns the binary digits of [v] in full, without padding and without
    truncation (read back as a binary numeral they give [v]), so the
    result is wider than [w]. *)
Theorem format2bin_overflow_is_returned
    (num numformat : string) (base : N) (w : nat) (v : Z) :
  numformat = "dec" ∧ base = 10%N ∨ numformat = "hex" ∧ base = 16%N →
  Py.int num base = Ok v →
  2 ^ Z.of_nat w ≤ v →
  format2bin num numformat w = Ok (Py.format_b v)
  ∧ (w < String.length (Py.format_b v))%nat
  ∧ BinaryString.to_Z ("0b" +:+ Py.format_b v) = v.
Proof.
  intros Hfmt Hv Hw.
  pose proof (format_b_length_overflow v w Hw) as Hlen.
  split; [|split; [done|]].
  - unfold format2bin.
    destruct Hfmt as [[-> ->] | [-> ->]]; simpl; rewrite Hv; simpl;
      rewrite zfill_wide by lia; done.
  - assert (0 < 2 ^ Z.of_nat w) by (apply Z.pow_pos_nonneg; lia).
    destruct v as [|p|p]; [lia | | lia].
    apply (BinaryString.Z_of_of_Z (Z.pos p)).
Qed.

Lemma format2bin_overflow_is_returned_witness :
  ("dec" = "dec" ∧ 10%N = 10%N ∨ "dec" = "hex" ∧ 10%N = 16%N)
  ∧ Py.int "65536" 10 = Ok 65536
  ∧ 2 ^ Z.of_nat 16 ≤ 65536
  ∧ format2bin "65536" "dec" 16 = Ok (Py.format_b 65536)
  ∧ (16 < String.length (Py.format_b 65536))%nat
  ∧ BinaryString.to_Z ("0b" +:+ Py.format_b 65536) = 65536.
Proof.
  split; [by left|]. split; [vm_compute; reflexivity|].
  split; [vm_compute; discriminate|].
  apply (format2bin_overflow_is_returned "65536" "dec" 10 16 65536);
    [by left | vm_compute; reflexivity | vm_compute; discriminate].
Defined.

End conversion.

(** ** Dictionaries *)

Section dict.

Lemma dict_set_in (k : string) (v : option string) (d : pydict) :
  k ∈ Dict.keys d → Dict.keys (Dict.set k v d) = Dict.keys d.
Proof.
  unfold Dict.keys. induction d as [|[k' v'] d IH]; simpl; intros Hk.
  - by apply elem_of_nil in Hk.
  - destruct (String.eqb_spec k k') as [->|Hne]; [done|].
    simpl. f_equal. apply IH. apply elem_of_cons in Hk as [|]; done.
Qed.

Lemma dict_set_fresh (k : string) (v : option string) (d : pydict) :
  k ∉ Dict.keys d → Dict.set k v d = d ++ [(k, v)].
Proof.
  unfold Dict.keys. induction d as [|[k' v'] d IH]; simpl; intros Hk; [done|].
  apply not_elem_of_cons in Hk as [Hne Hk].
  destruct (String.eqb_spec k k') as [->|_]; [done|].
  by rewrite IH.
Qed.

Lemma dict_set_length (k : string) (v : option string) (d : pydict) :
  (length d ≤ length (Dict.set k v d) ≤ S (length d))%nat.
Proof.
  induction d as [|[k' v'] d IH]; simpl; [lia|].
  destruct (String.eqb k k'); simpl; lia.
Qed.

Lemma dict_set_length_grows (k : string) (v : option string) (d : pydict) :
  (length d < length (Dict.set k v d))%nat → Dict.set k v d = d ++ [(k, v)].
Proof.
  intros H. apply dict_set_fresh. intros Hin.
  apply (dict_set_in k v) in Hin. apply (f_equal length) in Hin.
  unfold Dict.keys in Hin. rewrite !length_fmap in Hin. lia.
Qed.

Lemma dict_set_NoDup (k : string) (v : option string) (d : pydict) :
  NoDup (Dict.keys d) → NoDup (Dict.keys (Dict.set k v d)).
Proof.
  intros Hd. destruct (decide (k ∈ Dict.keys d)) as [Hin|Hout].
  - by rewrite dict_set_in.
  - rewrite dict_set_fresh by done. unfold Dict.keys in *.
    rewrite fmap_app. apply NoDup_app. split; [done|]. split.
    + intros x Hx [->|[]%elem_of_nil]%elem_of_cons. done.
    + apply NoDup_singleton.
Qed.

(** With distinct keys, assigning to the key at position [n] rewrites
    position [n]. *)
Lemma dict_set_at (n : nat) (k : string) (v v0 : option string) (d : pydict) :
  NoDup (Dict.keys d) → d !! n = Some (k, v0) →
  Dict.set k v d = <[n := (k, v)]> d.
Proof.
  unfold Dict.keys. revert n.
  induction d as [|[k' v'] d IH]; intros n Hd Hn; [done|].
  simpl in Hd. apply NoDup_cons in Hd as [Hk' Hd].
  destruct n as [|n]; simpl in *.
  - injection Hn as -> ->. by rewrite String.eqb_refl.
  - destruct (String.eqb_spec k k') as [->|_].
    + exfalso. apply Hk'. apply list_elem_of_fmap.
      exists (k', v0). split; [done|]. by eapply list_elem_of_lookup_2.
    + f_equal. by apply IH.
Qed.

Lemma dict_get_at (n : nat) (k : string) (v : option string) (d : pydict) :
  NoDup (Dict.keys d) → d !! n = Some (k, v) → Dict.get k d = Some v.
Proof.
  unfold Dict.keys. revert n.
  induction d as [|[k' v'] d IH]; intros n Hd Hn; [done|].
  simpl in Hd. apply NoDup_cons in Hd as [Hk' Hd].
  destruct n as [|n]; simpl in *.
  - injection Hn as -> ->. by rewrite String.eqb_refl.
  - destruct (String.eqb_spec k k') as [->|_].
    + exfalso. apply Hk'. apply list_elem_of_fmap.
      exists (k', v). split; [done|]. by eapply list_elem_of_lookup_2.
    + by eapply IH.
Qed.

Lemma dict_get_elem (k : string) (v : option string) (d : pydict) :
  NoDup (Dict.keys d) → (k, v) ∈ d → Dict.get k d = Some v.
Proof.
  intros Hd (n & Hn)%list_elem_of_lookup_1. by eapply dict_get_at.
Qed.

Lemma dict_get_Some (k : string) (v : option string) (d : pydict) :
  Dict.get k d = Some v → (k, v) ∈ d.
Proof.
  induction d as [|[k' v'] d IH]; simpl; [done|].
  destruct (String.eqb_spec k k') as [->|_].
  - intros [= ->]. apply elem_of_cons. by left.
  - intros H. apply elem_of_cons. right. by apply IH.
Qed.

Lemma filter_all {A : Type} (P : A → Prop) `{!∀ x, Decision (P x)}
    (l : list A) :
  Forall P l → filter P l = l.
Proof.
  induction 1 as [|x l Hx _ IH]; [done|].
  by rewrite filter_cons_True, IH.
Qed.

(** Popping a key that is present, the keys being distinct, removes its
    entry. *)
Lemma dict_pop_filter (k : string) (d : pydict) :
  NoDup (Dict.keys d) → k ∈ Dict.keys d →
  Dict.pop k d = Ok (filter (λ e, e.1 ≠ k) d).
Proof.
  unfold Dict.keys. induction d as [|[k' v'] d IH]; intros Hd Hk.
  - by apply elem_of_nil in Hk.
  - rewrite fmap_cons in Hd, Hk. cbn [fst] in *.
    apply NoDup_cons in Hd as [Hk' Hd]. cbn [Dict.pop].
    destruct (String.eqb_spec k k') as [->|Hne].
    + rewrite filter_cons_False by (simpl; intros H; by apply H).
      f_equal. symmetry. apply filter_all, Forall_forall.
      intros [k v] Hin. simpl. intros ->. apply Hk'. apply list_elem_of_fmap.
      by exists (k', v).
    + apply elem_of_cons in Hk as [|Hk]; [done|].
      rewrite (IH Hd Hk). cbn [bind].
      by rewrite filter_cons_True by (simpl; congruence).
Qed.

End dict.

(** ** Pruning *)

Section prune.
Import Assembler.

Lemma filter_ext_in {A : Type} (P Q : A → Prop)
    `{!∀ x, Decision (P x)} `{!∀ x, Decision (Q x)} (l : list A) :
  (∀ x, x ∈ l → (P x ↔ Q x)) → filter P l = filter Q l.
Proof.
  induction l as [|x l IH]; intros Hext; [done|].
  rewrite !filter_cons.
  rewrite IH by (intros y Hy; apply Hext; by apply elem_of_cons; right).
  assert (P x ↔ Q x) as HPQ by (apply Hext; apply elem_of_cons; by left).
  destruct (decide (P x)), (decide (Q x)); tauto.
Qed.

Lemma dict_filter_NoDup (P : string * option string → Prop)
    `{!∀ x, Decision (P x)} (d : pydict) :
  NoDup (Dict.keys d) → NoDup (Dict.keys (filter P d)).
Proof.
  unfold Dict.keys. intros Hd.
  eapply sublist_NoDup; [exact Hd|].
  apply fmap_sublist, sublist_filter.
Qed.

Lemma prune_snapshot (s d : pydict) :
  NoDup (Dict.keys d) → NoDup (Dict.keys s) →
  (∀ k, (k, None) ∈ s → k ∈ Dict.keys d) →
  prune s d = Ok (filter (λ e, (e.1, None) ∉ s) d).
Proof.
  revert d. induction s as [|[k [w|]] s IH]; intros d Hd Hs Hin.
  - simpl. f_equal. symmetry. apply filter_all, Forall_forall.
    intros e _. apply not_elem_of_nil.
  - cbn [prune]. unfold Dict.keys in Hs. rewrite fmap_cons in Hs.
    apply NoDup_cons in Hs as [_ Hs].
    rewrite IH; [|done|done|].
    + f_equal. apply filter_ext_in. intros e _.
      rewrite not_elem_of_cons. intuition congruence.
    + intros k' Hk'. apply Hin. apply elem_of_cons. by right.
  - cbn [prune]. unfold Dict.keys in Hs. rewrite fmap_cons in Hs.
    apply NoDup_cons in Hs as [Hk Hs]. simpl in Hk.
    rewrite dict_pop_filter; [|done|apply Hin; apply elem_of_cons; by left].
    cbn [bind]. rewrite IH; [|by apply dict_filter_NoDup|done|].
    + f_equal. rewrite list_filter_filter. apply filter_ext_in. intros e _.
      rewrite not_elem_of_cons. intuition congruence.
    + intros k' Hk'. assert (k' ≠ k) as Hne.
      { intros ->. apply Hk. apply list_elem_of_fmap. by exists (k, None). }
      assert (k' ∈ Dict.keys d) as Hd'
        by (apply Hin; apply elem_of_cons; by right).
      unfold Dict.keys in *. apply list_elem_of_fmap in Hd' as ([k'' v] & -> & He).
      apply list_elem_of_fmap. exists (k'', v). split; [done|].
      by apply list_elem_of_filter.
Qed.

(** With distinct keys, the final loop of [__second_pass] succeeds and
    keeps exactly the entries whose value is not [None]. *)
Lemma prune_filter (d : pydict) :
  NoDup (Dict.keys d) →
  prune d d = Ok (filter (λ e, e.2 ≠ None) d).
Proof.
  intros Hd. rewrite prune_snapshot; [|done|done|].
  - f_equal. apply filter_ext_in. intros [k v] He. simpl. split.
    + intros Hn ->. done.
    + intros Hv Hn. apply Hv.
      apply (dict_get_elem _ _ _ Hd) in He, Hn. congruence.
  - intros k Hk. unfold Dict.keys. apply list_elem_of_fmap. by exists (k, None).
Qed.

End prune.

(** ** The image after Pass 1 *)

Section first_pass_image.
Import Assembler.

Lemma dict_set_keys_elem (k k' : string) (v : option string) (d : pydict) :
  k' ∈ Dict.keys (Dict.set k v d) ↔ k' = k ∨ k' ∈ Dict.keys d.
Proof.
  destruct (decide (k ∈ Dict.keys d)) as [Hin|Hout].
  - rewrite dict_set_in by done. split; [by right | by intros [->|]].
  - rewrite dict_set_fresh by done. unfold Dict.keys. rewrite fmap_app.
    rewrite elem_of_app. simpl. rewrite list_elem_of_singleton. tauto.
Qed.

Lemma dict_set_None_pending (k : string) (d : pydict) :
  (∀ k' v, (k', v) ∈ d → v = None) →
  ∀ k' v, (k', v) ∈ Dict.set k None d → v = None.
Proof.
  intros Hd. induction d as [|[k0 v0] d IH]; simpl; intros k' v Hin.
  - apply list_elem_of_singleton in Hin. congruence.
  - destruct (String.eqb k k0).
    + apply elem_of_cons in Hin as [[= _ ->]|Hin]; [done|].
      eapply Hd. apply elem_of_cons. by right.
    + apply elem_of_cons in Hin as [[= -> ->]|Hin].
      * eapply Hd. apply elem_of_cons. by left.
      * eapply IH; [|done]. intros k1 v1 H1. eapply Hd.
        apply elem_of_cons. by right.
Qed.

Lemma first_pass_step_inv (line : list string) (tok0 : string) (st st' : pass1) :
  first_pass_step line tok0 st = Ok st' → pass1_inv st → pass1_inv st'.
Proof.
  intros (o & i & c & _ & Hc & _ & ->)%first_pass_step_Ok [H1 H2 H3 H4].
  apply location_Ok in Hc as (n & _ & Hn & ->).
  split; simpl.
  - by apply dict_set_NoDup.
  - by apply dict_set_None_pending.
  - intros k [->|Hk]%dict_set_keys_elem; [by apply addr12_binary | by apply H3].
  - intros k a Hka. apply dict_set_keys_elem.
    destruct (islabel tok0); [|right; by eapply H4].
    rewrite lookup_insert in Hka. case_decide.
    + left. congruence.
    + right. by eapply H4.
Qed.

Lemma first_pass_loop_inv (ls : list (list string)) (st st' : pass1) :
  first_pass_loop ls st = Ok st' → pass1_inv st → pass1_inv st'.
Proof.
  intros H%first_pass_loop_scan.
  induction H as [| | line rest tok0 st st1 st' _ _ Hstep _ IH]; [done..|].
  intros Hinv. apply IH. by eapply first_pass_step_inv.
Qed.

Lemma pass1_init_inv (o : string) : pass1_inv (pass1_init o).
Proof.
  split; simpl.
  - apply NoDup_nil_2.
  - intros k v []%elem_of_nil.
  - intros k []%elem_of_nil.
  - intros k a. by rewrite lookup_empty.
Qed.

Lemma first_pass_inv (asm : list (list string)) (p : pass1) :
  first_pass asm ∅ [] = Ok p → pass1_inv p.
Proof.
  unfold first_pass. intros H.
  apply bind_Ok in H as (l0 & _ & H). apply bind_Ok in H as (o & _ & H).
  eapply first_pass_loop_inv; [done|]. apply pass1_init_inv.
Qed.

(** *** One entry per scanned line *)

(** The image never grows by more than one entry per scanned line. *)
Lemma first_pass_loop_growth (ls : list (list string)) (st st' : pass1) :
  first_pass_loop ls st = Ok st' →
  (linecounter st ≤ linecounter st')%nat
  ∧ (length (bin st) ≤ length (bin st'))%nat
  ∧ (length (bin st') - length (bin st)
     ≤ linecounter st' - linecounter st)%nat.
Proof.
  intros H%first_pass_loop_scan.
  induction H as [| | line rest tok0 st st1 st' _ _ Hstep _ IH]; [lia..|].
  apply first_pass_step_Ok in Hstep as (o & i & c & _ & _ & _ & ->).
  simpl in IH. pose proof (dict_set_length c None (bin st)). lia.
Qed.

(** If the image has grown by as many entries as lines were scanned,
    every scanned line has appended the entry of its own address. *)
Lemma first_pass_loop_aligned (pre post : list (list string)) (l : list string)
    (st stF : pass1) :
  first_pass_loop (pre ++ l :: post) st = Ok stF →
  Forall not_end (pre ++ [l]) →
  (length (bin stF) - length (bin st)
   = linecounter stF - linecounter st)%nat →
  ∃ stl, first_pass_loop (pre ++ [l]) st = Ok stl
    ∧ bin stF !! (length (bin st) + length pre)%nat = Some (ctr stl, None).
Proof.
  assert (∀ (ls : list (list string)) (s s' : pass1) (n : nat) e,
    first_pass_loop ls s = Ok s' → bin s !! n = Some e →
    (length (bin s') - length (bin s)
     = linecounter s' - linecounter s)%nat →
    bin s' !! n = Some e) as Hkeep.
  { clear. induction ls as [|line ls IH]; intros s s' n e H Hn Hlen.
    - by injection H as <-.
    - cbn [first_pass_loop] in H. apply bind_Ok in H as (tok0 & _ & H).
      destruct (String.eqb tok0 "end"); [by injection H as <-|].
      apply bind_Ok in H as (s1 & Hstep & H).
      pose proof (first_pass_loop_growth _ _ _ H) as (G1 & G2 & G3).
      apply first_pass_step_Ok in Hstep as (o & i & c & _ & _ & _ & ->).
      simpl in *. pose proof (dict_set_length c None (bin s)) as Hset.
      eapply (IH _ _ _ _ H); [|simpl; lia]. simpl.
      rewrite dict_set_length_grows by lia.
      by apply lookup_app_l_Some. }
  revert st. induction pre as [|line pre IH]; intros st H Hne Hlen.
  - rewrite app_nil_l in *. apply Forall_inv in Hne. unfold not_end in Hne.
    cbn [first_pass_loop] in *.
    apply bind_Ok in H as (tok0 & Htok & H). rewrite Htok. cbn [bind].
    apply index_Ok in Htok.
    destruct (String.eqb_spec tok0 "end") as [->|_]; [done|].
    apply bind_Ok in H as (st1 & Hstep & H). rewrite Hstep. cbn [bind].
    exists st1. split; [done|].
    pose proof (first_pass_loop_growth _ _ _ H) as (G1 & G2 & G3).
    apply first_pass_step_Ok in Hstep as (o & i & c & _ & _ & _ & ->).
    simpl in *. pose proof (dict_set_length c None (bin st)) as Hset.
    assert (Dict.set c None (bin st) = bin st ++ [(c, None)]) as Happ
      by (apply dict_set_length_grows; lia).
    rewrite Happ in H.
    eapply Hkeep; [exact H| |simpl; rewrite length_app; simpl; lia].
    simpl. rewrite Nat.add_0_r.
    rewrite lookup_app_r by lia. by rewrite Nat.sub_diag.
  - rewrite <- !app_comm_cons in *. apply Forall_cons in Hne as [Hline Hne].
    unfold not_end in Hline. cbn [first_pass_loop] in *.
    apply bind_Ok in H as (tok0 & Htok & H). rewrite Htok. cbn [bind].
    apply index_Ok in Htok.
    destruct (String.eqb_spec tok0 "end") as [->|_]; [done|].
    apply bind_Ok in H as (st1 & Hstep & H). rewrite Hstep. cbn [bind].
    pose proof (first_pass_loop_growth _ _ _ H) as (G1 & G2 & G3).
    destruct (IH st1 H Hne) as (stl & Hstl & Hlook).
    + apply first_pass_step_Ok in Hstep as (o & i & c & _ & _ & _ & ->).
      simpl in *. pose proof (dict_set_length c None (bin st)). lia.
    + exists stl. split; [done|]. rewrite <- Hlook. f_equal.
      apply first_pass_step_Ok in Hstep as (o & i & c & _ & _ & _ & ->).
      simpl in *. pose proof (dict_set_length c None (bin st)). lia.
Qed.

End first_pass_image.

(** ** Pass 2 *)

Section second_pass.
Import Assembler.

Lemma store_Ok (i : nat) (w : string) (st st' : pass2) :
  store i w st = Ok st' →
  ∃ k v0, image st !! (i - 1)%nat = Some (k, v0)
    ∧ st' = Pass2 (flag st) (Dict.set k (Some w) (image st)) (stdout st).
Proof.
  unfold store. intros (k & Hk & [= <-])%bind_Ok.
  apply index_Ok in Hk. unfold Dict.keys in Hk.
  apply list_lookup_fmap_Some in Hk as ([k' v0] & -> & Hk).
  by exists k', v0.
Qed.

Lemma store_at (i : nat) (w k : string) (v0 : option string) (st : pass2) :
  image st !! (i - 1)%nat = Some (k, v0) →
  NoDup (Dict.keys (image st)) →
  store i w st
  = Ok (Pass2 (flag st) (<[(i - 1)%nat := (k, Some w)]> (image st)) (stdout st)).
Proof.
  intros Hk Hd. unfold store, Py.index, Dict.keys.
  rewrite list_lookup_fmap, Hk. simpl.
  by rewrite (dict_set_at (i - 1) k (Some w) v0).
Qed.

(** What an iteration of Pass 2 that does not raise has done to the
    image: nothing, or one word stored under the key at position
    [i - 1]. *)
Lemma second_pass_step_Ok (t : tables) (tab : gmap string string) (i : nat)
    (line : list string) (tok0 : string) (st st' : pass2) :
  second_pass_step t tab i line tok0 st = Ok st' →
  image st' = image st
  ∨ ∃ k v0 w, image st !! (i - 1)%nat = Some (k, v0)
      ∧ image st' = Dict.set k (Some w) (image st)
      ∧ word_source t tab line w.
Proof.
  unfold second_pass_step. intros H.
  assert (∀ w s, store i w st = Ok s → word_source t tab line w →
    ∃ k v0 w, image st !! (i - 1)%nat = Some (k, v0)
      ∧ image s = Dict.set k (Some w) (image st)
      ∧ word_source t tab line w) as Hstore.
  { intros w s (k & v0 & Hk & ->)%store_Ok Hw. by exists k, v0, w. }
  destruct (Py.elem "hlt" line).
  { apply bind_Ok in H as (w & Hw%getitem_Ok & H).
    apply bind_Ok in H as (s & Hs & [= <-]). right. simpl.
    eapply Hstore; [done|]. left. eauto. }
  destruct (Py.contains (rri_table t) tok0).
  { apply bind_Ok in H as (w & Hw%getitem_Ok & H). right.
    eapply Hstore; [done|]. left. eauto. }
  apply bind_Ok in H as (tok1 & Htok1%index_Ok & H).
  destruct (Py.contains (rri_table t) tok1).
  { apply bind_Ok in H as (w & Hw%getitem_Ok & H). right.
    eapply Hstore; [done|]. left. eauto. }
  destruct (Py.contains (mri_table t) tok0).
  { apply bind_Ok in H as (op & Hop%getitem_Ok & H).
    apply bind_Ok in H as (a & Ha%getitem_Ok & H). right.
    eapply Hstore; [done|]. right. right. left. by exists tok0, op, tok1, a. }
  destruct (Py.contains (mri_table t) tok1).
  { apply bind_Ok in H as (op & Hop%getitem_Ok & H).
    apply bind_Ok in H as (tok2 & Htok2 & H).
    apply bind_Ok in H as (a & Ha%getitem_Ok & H). right.
    eapply Hstore; [done|]. right. right. left. by exists tok1, op, tok2, a. }
  destruct (Py.contains (ioi_table t) tok0).
  { apply bind_Ok in H as (w & Hw%getitem_Ok & H). right.
    eapply Hstore; [done|]. right. left. eauto. }
  destruct (Py.contains (ioi_table t) tok1).
  { apply bind_Ok in H as (w & Hw%getitem_Ok & H). right.
    eapply Hstore; [done|]. right. left. eauto. }
  destruct (islabel tok0 && flag st); [|injection H as <-; by left].
  destruct (String.eqb_spec tok1 "hex") as [->|_].
  { apply bind_Ok in H as (tok2 & Htok2%index_Ok & H).
    apply bind_Ok in H as (w & Hw & H). right.
    eapply Hstore; [done|]. do 3 right. left. by exists tok2. }
  destruct (String.eqb_spec tok1 "dec") as [->|_].
  { apply bind_Ok in H as (tok2 & Htok2%index_Ok & H).
    apply bind_Ok in H as (w & Hw & H). right.
    eapply Hstore; [done|]. do 4 right. by exists tok2. }
  injection H as <-. by left.
Qed.

(** The loop ends normally exactly when the relation holds. *)
Lemma second_pass_loop_scan (t : tables) (tab : gmap string string) (i : nat)
    (ls : list (list string)) (st st' : pass2) :
  second_pass_loop t tab i ls st = Ok st' ↔ scan2 t tab i ls st st'.
Proof.
  split.
  - revert i st. induction ls as [|line ls IH]; intros i st H.
    + injection H as <-. constructor.
    + cbn [second_pass_loop] in H.
      apply bind_Ok in H as (tok0 & Htok%index_Ok & H).
      destruct (String.eqb_spec tok0 "end") as [->|Hne].
      * injection H as <-. by constructor.
      * apply bind_Ok in H as (st1 & Hstep & H).
        eapply scan2_step; eauto.
  - induction 1 as [i st | i line rest st Hend
                    | i line rest tok0 st st1 st' Htok Hne Hstep _ IH];
      cbn [second_pass_loop]; [done| |].
    + unfold Py.index. by rewrite Hend.
    + unfold Py.index. rewrite Htok. cbn [bind].
      destruct (String.eqb_spec tok0 "end") as [|_]; [done|].
      by rewrite Hstep.
Qed.

(** The keys of the image, and their order, are those Pass 1 left. *)
Lemma second_pass_step_keys (t : tables) (tab : gmap string string) (i : nat)
    (line : list string) (tok0 : string) (st st' : pass2) :
  second_pass_step t tab i line tok0 st = Ok st' →
  Dict.keys (image st') = Dict.keys (image st).
Proof.
  intros [->|(k & v0 & w & Hk & -> & _)]%second_pass_step_Ok; [done|].
  apply dict_set_in. unfold Dict.keys. apply list_elem_of_fmap.
  exists (k, v0). split; [done|]. by eapply list_elem_of_lookup_2.
Qed.

Lemma second_pass_loop_keys (t : tables) (tab : gmap string string) (i : nat)
    (ls : list (list string)) (st st' : pass2) :
  second_pass_loop t tab i ls st = Ok st' →
  Dict.keys (image st') = Dict.keys (image st).
Proof.
  intros H%second_pass_loop_scan.
  induction H as [| | i line rest tok0 st st1 st' _ _ Hstep _ IH]; [done..|].
  rewrite IH. by eapply second_pass_step_keys.
Qed.

(** The iterations from index [i] on leave the positions before [i - 1]
    alone. *)
Lemma second_pass_loop_before (t : tables) (tab : gmap string string) (i : nat)
    (ls : list (list string)) (st st' : pass2) (n : nat) :
  second_pass_loop t tab i ls st = Ok st' →
  NoDup (Dict.keys (image st)) →
  (n < i - 1)%nat →
  image st' !! n = image st !! n.
Proof.
  intros H%second_pass_loop_scan.
  induction H as [| | i line rest tok0 st st1 st' _ _ Hstep _ IH]; [done..|].
  intros Hd Hn. rewrite IH; [| |lia].
  - apply second_pass_step_Ok in Hstep
      as [->|(k & v0 & w & Hk & -> & _)]; [done|].
    rewrite (dict_set_at (i - 1) k (Some w) v0) by done.
    apply list_lookup_insert_ne. lia.
  - by rewrite (second_pass_step_keys _ _ _ _ _ _ _ Hstep).
Qed.

(** The scan of a prefix that holds no [end] line can be run first. *)
Lemma second_pass_loop_app (t : tables) (tab : gmap string string) (i : nat)
    (pre rest : list (list string)) (st : pass2) :
  Forall not_end pre →
  second_pass_loop t tab i (pre ++ rest) st
  = do st' <- second_pass_loop t tab i pre st;
    second_pass_loop t tab (i + length pre) rest st'.
Proof.
  intros Hpre. revert i st.
  induction Hpre as [|line pre Hline _ IH]; intros i st.
  - simpl. by rewrite Nat.add_0_r.
  - simpl. unfold Py.index. unfold not_end in Hline.
    destruct (line !! 0%nat) as [tok0|]; [|done]. simpl.
    destruct (String.eqb_spec tok0 "end") as [->|_]; [done|].
    destruct (second_pass_step t tab i line tok0 st) as [st'|e]; [|done].
    simpl. rewrite IH. by rewrite Nat.add_succ_r.
Qed.

End second_pass.

(** ** Lines of one token *)

Section single_token.
Import Assembler.

(** Claim C9.  When Pass 2 gets to a line made of a single token that is not
    [end], is not [hlt] and is not a register-reference mnemonic, it
    raises [IndexError] (from reading the second token): the line is
    neither skipped nor reported as unclassifiable. *)
Theorem single_token_line_raises_IndexError
    (t : tables) (asm : list (list string)) (tab : gmap string string)
    (b : pydict) (pre post : list (list string)) (tok : string)
    (st : pass2) :
  body asm = pre ++ [tok] :: post →
  Forall not_end pre →
  second_pass_loop t tab 1 pre (Pass2 false b []) = Ok st →
  tok ≠ "end" → tok ≠ "hlt" → rri_table t !! tok = None →
  second_pass t asm tab b = Err IndexError.
Proof.
  intros Hbody Hpre Hloop Hend Hhlt Hrri.
  unfold second_pass. rewrite Hbody.
  rewrite second_pass_loop_app, Hloop by done. cbn [bind].
  cbn [second_pass_loop Py.index lookup list_lookup bind].
  destruct (String.eqb_spec tok "end") as [|_]; [done|].
  unfold second_pass_step. cbn [Py.elem existsb].
  rewrite (proj2 (String.eqb_neq "hlt" tok)) by done. cbn [orb].
  rewrite (proj2 (contains_false _ _) Hrri).
  reflexivity.
Qed.

Lemma single_token_line_raises_IndexError_witness :
  first_pass Sample.single_token ∅ []
  = Ok (Pass1 1 1 "100" "000100000000" ∅ [("000100000000", None)])
  ∧ body Sample.single_token = [] ++ ["foo"] :: []
  ∧ Forall not_end []
  ∧ second_pass_loop Sample.tabs ∅ 1 []
      (Pass2 false [("000100000000", None)] [])
    = Ok (Pass2 false [("000100000000", None)] [])
  ∧ "foo" ≠ "end" ∧ "foo" ≠ "hlt"
  ∧ rri_table Sample.tabs !! "foo" = None
  ∧ second_pass Sample.tabs Sample.single_token ∅ [("000100000000", None)]
    = Err IndexError.
Proof.
  split; [vm_compute; reflexivity|].
  split; [reflexivity|]. split; [constructor|]. split; [reflexivity|].
  split; [discriminate|]. split; [discriminate|].
  split; [vm_compute; reflexivity|].
  apply (single_token_line_raises_IndexError Sample.tabs Sample.single_token
           ∅ [("000100000000", None)] [] [] "foo"
           (Pass2 false [("000100000000", None)] []));
    [reflexivity | constructor | reflexivity | discriminate | discriminate
    | vm_compute; reflexivity].
Defined.

End single_token.

(** ** The end-to-end example *)

Section end_to_end.
Import Assembler.

(** Claim C4, as stated, fails: on the five-line program whose second line is
    [lda x,], Pass 2 looks the operand up with a terminator appended, as
    ["x,,"], and assembly stops with a [KeyError]. *)
Lemma example_with_terminator_raises :
  assemble Sample.tabs Sample.example_comma = Err (KeyError "x,,")
  ∧ rri_table Sample.tabs !! "hlt" = Some "1111111111111111"
  ∧ mri_table Sample.tabs !! "lda" = Some "000".
Proof. repeat split; vm_compute; reflexivity. Qed.

(** Claim C4 (amended).  With the operand written [x], and tables that bind
    [hlt] to 1111111111111111 and [lda] to 000 (and bind no other token
    of the program), [assemble] returns an image of exactly three
    entries: at the origin 0x100 the word ['0' + '000' +] the address
    bound to [x,], which is that of the line [x, hex 1], origin + 2; at
    origin + 1 the word of [hlt]; at origin + 2 the word
    0000000000000001. *)
Theorem end_to_end_example (t : tables) :
  rri_table t !! "hlt" = Some "1111111111111111" →
  mri_table t !! "lda" = Some "000" →
  rri_table t !! "lda" = None → rri_table t !! "x" = None →
  rri_table t !! "x," = None → rri_table t !! "hex" = None →
  mri_table t !! "x," = None → mri_table t !! "hex" = None →
  ioi_table t !! "x," = None → ioi_table t !! "hex" = None →
  (∃ p, first_pass Sample.example ∅ [] = Ok p
        ∧ symtab p !! "x," = Some (addr12 (0x100 + 2)))
  ∧ assemble t Sample.example
    = Ok [(addr12 0x100, Some ("0" +:+ "000" +:+ addr12 (0x100 + 2)));
          (addr12 (0x100 + 1), Some "1111111111111111");
          (addr12 (0x100 + 2), Some "0000000000000001")].
Proof.
  intros Hhlt Hlda R1 R2 R3 R4 M1 M2 I1 I2.
  assert (first_pass (rm_comments Sample.example) ∅ []
          = Ok SampleStates.example_pass1) as Hp1 by (vm_compute; reflexivity).
  split; [exists SampleStates.example_pass1; split; vm_compute; reflexivity|].
  apply contains_false in R1, R2, R3, R4, M1, M2, I1, I2.
  assert (Py.contains (mri_table t) "lda" = true) as M0
    by (apply contains_true; eauto).
  change (assemble t Sample.example)
    with (do p1 <- first_pass (rm_comments Sample.example) ∅ [];
          do p2 <- second_pass t (rm_comments Sample.example)
                     (symtab p1) (bin p1);
          Ok (image p2)).
  rewrite Hp1. cbn [bind].
  unfold second_pass.
  change (body (rm_comments Sample.example))
    with [["lda"; "x"]; ["hlt"]; ["x,"; "hex"; "1"]].
  unfold second_pass_loop, second_pass_step.
  cbn -[Py.contains Py.getitem].
  rewrite R1, R2, M0. unfold Py.getitem at 1 2. rewrite Hlda.
  cbn -[Py.contains Py.getitem].
  unfold Py.getitem at 1. rewrite Hhlt.
  cbn -[Py.contains Py.getitem].
  rewrite R3, R4, M1, M2, I1, I2.
  vm_compute. reflexivity.
Qed.

Lemma end_to_end_example_witness :
  rri_table Sample.tabs !! "hlt" = Some "1111111111111111"
  ∧ mri_table Sample.tabs !! "lda" = Some "000"
  ∧ (∃ p, first_pass Sample.example ∅ [] = Ok p
          ∧ symtab p !! "x," = Some (addr12 (0x100 + 2)))
  ∧ assemble Sample.tabs Sample.example
    = Ok [(addr12 0x100, Some ("0" +:+ "000" +:+ addr12 (0x100 + 2)));
          (addr12 (0x100 + 1), Some "1111111111111111");
          (addr12 (0x100 + 2), Some "0000000000000001")].
Proof.
  split; [vm_compute; reflexivity|]. split; [vm_compute; reflexivity|].
  apply (end_to_end_example Sample.tabs); vm_compute; reflexivity.
Defined.

End end_to_end.

(** ** Memory-reference instructions *)

Section memory_reference.
Import Assembler.

Lemma mri_operand_Some (t : tables) (line : list string) (m x : string) :
  mri_operand t line = Some (m, x) →
  ∃ tok0 tok1,
    line !! 0%nat = Some tok0 ∧ line !! 1%nat = Some tok1
    ∧ tok0 ≠ "end" ∧ Py.elem "hlt" line = false
    ∧ Py.contains (rri_table t) tok0 = false
    ∧ Py.contains (rri_table t) tok1 = false
    ∧ (Py.contains (mri_table t) tok0 = true ∧ m = tok0 ∧ x = tok1
       ∨ Py.contains (mri_table t) tok0 = false
         ∧ Py.contains (mri_table t) tok1 = true
         ∧ m = tok1 ∧ line !! 2%nat = Some x).
Proof.
  destruct line as [|tok0 [|tok1 rest]]; [done|done|].
  unfold mri_operand. intros H. exists tok0, tok1.
  destruct (String.eqb_spec tok0 "end") as [|Hend]; [done|].
  destruct (Py.elem "hlt" (tok0 :: tok1 :: rest)); [done|].
  destruct (Py.contains (rri_table t) tok0); [done|].
  destruct (Py.contains (rri_table t) tok1); [done|].
  do 6 (split; [done|]).
  destruct (Py.contains (mri_table t) tok0).
  - injection H as <- <-. by left.
  - destruct (Py.contains (mri_table t) tok1); [|done].
    destruct rest as [|tok2 rest]; [done|]. injection H as <- <-.
    by right.
Qed.

(** On such a line the iteration looks the opcode and the operand's
    address up and stores their concatenation after the indirection
    bit. *)
Lemma second_pass_step_mri (t : tables) (tab : gmap string string) (i : nat)
    (line : list string) (tok0 m x : string) (st : pass2) :
  mri_operand t line = Some (m, x) →
  line !! 0%nat = Some tok0 →
  second_pass_step t tab i line tok0 st
  = do op <- Py.getitem (mri_table t) m;
    do a <- Py.getitem tab (x +:+ ",");
    store i (indirect_bit line +:+ op +:+ a) st.
Proof.
  intros (tok0' & tok1 & H0 & H1 & _ & Hhlt & R0 & R1 & Hm)%mri_operand_Some H0'.
  rewrite H0 in H0'. injection H0' as ->.
  unfold second_pass_step. rewrite Hhlt, R0. unfold Py.index. rewrite H1.
  cbn [bind]. rewrite R1.
  destruct Hm as [(M0 & -> & ->) | (M0 & M1 & -> & H2)].
  - by rewrite M0.
  - rewrite M0, M1. rewrite H2.
    destruct (Py.getitem (mri_table t) tok1); reflexivity.
Qed.

Lemma first_pass_Ok (asm : list (list string)) (p : pass1) :
  first_pass asm ∅ [] = Ok p →
  ∃ l0 o, asm !! 0%nat = Some l0 ∧ l0 !! 1%nat = Some o
    ∧ first_pass_loop (body asm) (pass1_init o) = Ok p.
Proof.
  unfold first_pass. intros H.
  apply bind_Ok in H as (l0 & H0%index_Ok & H).
  apply bind_Ok in H as (o & H1%index_Ok & H). eauto.
Qed.

Lemma assemble_Ok (t : tables) (asm0 : list (list string)) (img : pydict) :
  assemble t asm0 = Ok img →
  ∃ p1 st2,
    first_pass (rm_comments asm0) ∅ [] = Ok p1
    ∧ second_pass_loop t (symtab p1) 1 (body (rm_comments asm0))
        (Pass2 false (bin p1) []) = Ok st2
    ∧ Dict.keys (image st2) = Dict.keys (bin p1)
    ∧ NoDup (Dict.keys (image st2))
    ∧ img = filter (λ e, e.2 ≠ None) (image st2).
Proof.
  unfold assemble. destruct asm0 as [|a0 asm0']; [done|].
  intros (p1 & Hp1 & H)%bind_Ok. apply bind_Ok in H as (p2 & Hp2 & [= <-]).
  unfold second_pass in Hp2. apply bind_Ok in Hp2 as (st2 & Hst2 & H).
  apply bind_Ok in H as (b' & Hb' & [= <-]). simpl.
  pose proof (second_pass_loop_keys _ _ _ _ _ _ Hst2) as Hkeys. simpl in Hkeys.
  pose proof (inv_nodup _ (first_pass_inv _ _ Hp1)) as Hnd.
  rewrite <- Hkeys in Hnd.
  rewrite prune_filter in Hb' by done. injection Hb' as <-.
  by exists p1, st2.
Qed.

(** If every scanned line got an entry of its own in Pass 1, the word of
    a memory-reference line is found in the image at the address of that
    line. *)
Lemma mri_word_in_image (t : tables) (asm0 : list (list string)) (img : pydict)
    (p1 : pass1) (pre post : list (list string)) (l : list string)
    (m x : string) :
  assemble t asm0 = Ok img →
  first_pass (rm_comments asm0) ∅ [] = Ok p1 →
  length (bin p1) = linecounter p1 →
  body (rm_comments asm0) = pre ++ l :: post →
  Forall not_end pre →
  mri_operand t l = Some (m, x) →
  ∃ an op a,
    line_address (rm_comments asm0) (length pre) = Ok an
    ∧ mri_table t !! m = Some op
    ∧ symtab p1 !! (x +:+ ",") = Some a
    ∧ Dict.get an img = Some (Some (indirect_bit l +:+ op +:+ a)).
Proof.
  intros Hasm Hp1 Hlen Hbody Hpre Hmri.
  apply assemble_Ok in Hasm as (p1' & st2 & Hp1' & Hloop2 & Hkeys & Hnd & ->).
  rewrite Hp1 in Hp1'. injection Hp1' as <-.
  pose proof (first_pass_inv _ _ Hp1) as Hinv.
  pose proof (mri_operand_Some _ _ _ _ Hmri)
    as (tok0 & tok1 & H0 & _ & Hend & _).
  assert (Forall not_end (pre ++ [l])) as Hpre'.
  { apply Forall_app. split; [done|]. apply Forall_singleton.
    unfold not_end. rewrite H0. congruence. }
  apply first_pass_Ok in Hp1 as (l0 & o & Hl0 & Ho & Hloop1).
  rewrite Hbody in Hloop1, Hloop2.
  destruct (first_pass_loop_aligned pre post l _ _ Hloop1 Hpre')
    as (stl & Hstl & Hbin); [simpl; lia|]. simpl in Hbin.
  rewrite second_pass_loop_app in Hloop2 by done.
  apply bind_Ok in Hloop2 as (sA & HsA & Hloop2).
  cbn [second_pass_loop] in Hloop2. unfold Py.index in Hloop2.
  rewrite H0 in Hloop2. cbn [bind] in Hloop2.
  destruct (String.eqb_spec tok0 "end") as [|_]; [done|].
  apply bind_Ok in Hloop2 as (sB & HsB & Hloop2).
  rewrite (second_pass_step_mri _ _ _ _ _ _ _ _ Hmri H0) in HsB.
  apply bind_Ok in HsB as (op & Hop%getitem_Ok & HsB).
  apply bind_Ok in HsB as (a & Ha%getitem_Ok & HsB).
  pose proof (second_pass_loop_keys _ _ _ _ _ _ HsA) as HkA. simpl in HkA.
  assert (∃ v0, image sA !! length pre = Some (ctr stl, v0)) as [v0 HA].
  { assert (Dict.keys (image sA) !! length pre = Some (ctr stl)) as Hk.
    { rewrite HkA. unfold Dict.keys. by rewrite list_lookup_fmap, Hbin. }
    unfold Dict.keys in Hk.
    apply list_lookup_fmap_Some in Hk as ([k v0] & Hk & HA). simpl in Hk.
    subst k. by exists v0. }
  assert (NoDup (Dict.keys (image sA))) as HndA
    by (rewrite HkA; apply Hinv).
  assert (1 + length pre - 1 = length pre)%nat as Hidx by lia.
  rewrite (store_at (1 + length pre) _ (ctr stl) v0) in HsB;
    [|by rewrite Hidx|done].
  rewrite Hidx in HsB. injection HsB as <-.
  assert (image st2 !! length pre
          = Some (ctr stl, Some (indirect_bit l +:+ op +:+ a))) as Hfin.
  { erewrite second_pass_loop_before; [|exact Hloop2| |lia].
    - simpl. apply list_lookup_insert_eq. by eapply lookup_lt_Some.
    - simpl. unfold Dict.keys. rewrite list_fmap_insert. simpl.
      rewrite list_insert_id; [done|].
      unfold Dict.keys. by rewrite list_lookup_fmap, HA. }
  exists (ctr stl), op, a. split; [|split; [done|split; [done|]]].
  - unfold line_address, Py.index. rewrite Hl0. cbn [bind]. rewrite Ho.
    cbn [bind]. rewrite Hbody.
    replace (take (S (length pre)) (pre ++ l :: post)) with (pre ++ [l]).
    + by rewrite Hstl.
    + change (l :: post) with ([l] ++ post). rewrite app_assoc.
      rewrite take_app_length'; [done|]. rewrite length_app. simpl. lia.
  - apply dict_get_elem.
    + by apply dict_filter_NoDup.
    + apply list_elem_of_filter. split; [done|].
      by eapply list_elem_of_lookup_2.
Qed.

End memory_reference.

(** ** Forward and backward references *)

Section references.
Import Assembler.

(** After Pass 1 a label is bound to the address of the last line that
    defines it. *)
Lemma first_pass_last_definition (asm : list (list string)) (p : pass1)
    (pre post : list (list string)) (l : list string) (k : string) :
  first_pass asm ∅ [] = Ok p →
  body asm = pre ++ l :: post → Forall not_end pre →
  l !! 0%nat = Some k → islabel k = true →
  Forall (λ line, line !! 0%nat ≠ Some k) post →
  ∃ a, line_address asm (length pre) = Ok a ∧ symtab p !! k = Some a.
Proof.
  intros (l0 & o & Hl0 & Ho & Hloop)%first_pass_Ok Hbody Hpre Hl Hlab Hpost.
  rewrite Hbody in Hloop.
  change (pre ++ l :: post) with (pre ++ [l] ++ post) in Hloop.
  rewrite app_assoc in Hloop.
  rewrite first_pass_loop_app in Hloop.
  2:{ apply Forall_app. split; [done|]. apply Forall_singleton.
      unfold not_end. rewrite Hl. intros [= ->].
      by apply islabel_not_end in Hlab. }
  apply bind_Ok in Hloop as (stl & Hstl & Hloop).
  exists (ctr stl). split.
  - unfold line_address, Py.index. rewrite Hl0. cbn [bind]. rewrite Ho.
    cbn [bind]. rewrite Hbody.
    replace (take (S (length pre)) (pre ++ l :: post)) with (pre ++ [l]).
    + by rewrite Hstl.
    + change (l :: post) with ([l] ++ post). rewrite app_assoc.
      rewrite take_app_length'; [done|]. rewrite length_app. simpl. lia.
  - rewrite (first_pass_loop_other k post stl p Hpost Hloop).
    by eapply first_pass_loop_defines.
Qed.


(** The word of a memory-reference line that Pass 2 has encoded is in the
    returned image under the key that stands in the key list at the
    position of the line, whether or not this key is the line's own
    address. *)
Lemma mri_word_stored (t : tables) (asm0 : list (list string)) (img : pydict)
    (p1 : pass1) (pre post : list (list string)) (l : list string)
    (m x : string) :
  assemble t asm0 = Ok img →
  first_pass (rm_comments asm0) ∅ [] = Ok p1 →
  body (rm_comments asm0) = pre ++ l :: post →
  Forall not_end pre →
  mri_operand t l = Some (m, x) →
  ∃ k op a,
    Dict.keys (bin p1) !! length pre = Some k
    ∧ mri_table t !! m = Some op
    ∧ symtab p1 !! (x +:+ ",") = Some a
    ∧ Dict.get k img = Some (Some (indirect_bit l +:+ op +:+ a)).
Proof.
  intros Hasm Hp1 Hbody Hpre Hmri.
  apply assemble_Ok in Hasm as (p1' & st2 & Hp1' & Hloop2 & Hkeys & Hnd & ->).
  rewrite Hp1 in Hp1'. injection Hp1' as <-.
  pose proof (mri_operand_Some _ _ _ _ Hmri)
    as (tok0 & tok1 & H0 & _ & Hend & _).
  rewrite Hbody in Hloop2.
  rewrite second_pass_loop_app in Hloop2 by done.
  apply bind_Ok in Hloop2 as (sA & HsA & Hloop2).
  cbn [second_pass_loop] in Hloop2. unfold Py.index in Hloop2.
  rewrite H0 in Hloop2. cbn [bind] in Hloop2.
  destruct (String.eqb_spec tok0 "end") as [|_]; [done|].
  apply bind_Ok in Hloop2 as (sB & HsB & Hloop2).
  rewrite (second_pass_step_mri _ _ _ _ _ _ _ _ Hmri H0) in HsB.
  apply bind_Ok in HsB as (op & Hop%getitem_Ok & HsB).
  apply bind_Ok in HsB as (a & Ha%getitem_Ok & HsB).
  pose proof (second_pass_loop_keys _ _ _ _ _ _ HsA) as HkA. simpl in HkA.
  assert (1 + length pre - 1 = length pre)%nat as Hidx by lia.
  destruct (store_Ok _ _ _ _ HsB) as (k & v0 & HA & _).
  rewrite Hidx in HA.
  assert (NoDup (Dict.keys (image sA))) as HndA.
  { rewrite HkA, <- Hkeys. done. }
  rewrite (store_at (1 + length pre) _ k v0) in HsB;
    [|by rewrite Hidx|done].
  rewrite Hidx in HsB. injection HsB as <-.
  assert (image st2 !! length pre
          = Some (k, Some (indirect_bit l +:+ op +:+ a))) as Hfin.
  { erewrite second_pass_loop_before; [|exact Hloop2| |lia].
    - simpl. apply list_lookup_insert_eq. by eapply lookup_lt_Some.
    - simpl. unfold Dict.keys. rewrite list_fmap_insert. simpl.
      rewrite list_insert_id; [done|].
      unfold Dict.keys. by rewrite list_lookup_fmap, HA. }
  exists k, op, a. split; [|split; [done|split; [done|]]].
  - rewrite <- HkA. unfold Dict.keys. by rewrite list_lookup_fmap, HA.
  - apply dict_get_elem.
    + by apply dict_filter_NoDup.
    + apply list_elem_of_filter. split; [done|].
      by eapply list_elem_of_lookup_2.
Qed.

(** A memory-reference line is encoded with the address of the last line
    that defines its operand label, wherever the two lines stand with
    respect to each other. *)
Lemma mri_field_last_definition (t : tables) (asm0 : list (list string))
    (img : pydict) (p1 : pass1) (preD postD pre post : list (list string))
    (lD l : list string) (m x : string) :
  assemble t asm0 = Ok img →
  first_pass (rm_comments asm0) ∅ [] = Ok p1 →
  body (rm_comments asm0) = preD ++ lD :: postD → Forall not_end preD →
  lD !! 0%nat = Some (x +:+ ",") →
  Forall (λ line, line !! 0%nat ≠ Some (x +:+ ",")) postD →
  body (rm_comments asm0) = pre ++ l :: post → Forall not_end pre →
  mri_operand t l = Some (m, x) →
  ∃ aD k op,
    line_address (rm_comments asm0) (length preD) = Ok aD
    ∧ Dict.keys (bin p1) !! length pre = Some k
    ∧ mri_table t !! m = Some op
    ∧ Dict.get k img = Some (Some (indirect_bit l +:+ op +:+ aD)).
Proof.
  intros Hasm Hp1 HbD HpD HlD HpostD Hb Hpre Hm.
  destruct (first_pass_last_definition _ _ _ _ _ _ Hp1 HbD HpD HlD
              (endswith_app x ",") HpostD) as (aD & HaD & Hsym).
  destruct (mri_word_stored _ _ _ _ _ _ _ _ _ Hasm Hp1 Hb Hpre Hm)
    as (k & op & a & Hk & Hop & Ha & Hw).
  rewrite Hsym in Ha. injection Ha as <-.
  by exists aD, k, op.
Qed.




(** In a program that assembles normally, a memory-reference line is
    encoded with the address Pass 1 gave the last line that defines its
    operand label, whether it stands before or after that line; its word
    is in the image under the key that stands in the key list of Pass 1
    at the position of the line. *)
Theorem reference_resolves_to_last_definition (t : tables)
    (asm0 : list (list string)) (img : pydict) (p1 : pass1)
    (preD postD pre post : list (list string)) (lD l : list string)
    (m x : string) :
  assemble t asm0 = Ok img →
  first_pass (rm_comments asm0) ∅ [] = Ok p1 →
  body (rm_comments asm0) = preD ++ lD :: postD → Forall not_end preD →
  lD !! 0%nat = Some (x +:+ ",") →
  Forall (λ line, line !! 0%nat ≠ Some (x +:+ ",")) postD →
  body (rm_comments asm0) = pre ++ l :: post → Forall not_end pre →
  mri_operand t l = Some (m, x) →
  ∃ aD k op,
    line_address (rm_comments asm0) (length preD) = Ok aD
    ∧ Dict.keys (bin p1) !! length pre = Some k
    ∧ mri_table t !! m = Some op
    ∧ Dict.get k img = Some (Some (indirect_bit l +:+ op +:+ aD)).
Proof. apply mri_field_last_definition. Qed.

Lemma reference_resolves_to_last_definition_witness :
  assemble Sample.tabs Sample.both_references
  = Ok SampleStates.both_references_image
  ∧ first_pass (rm_comments Sample.both_references) ∅ []
    = Ok SampleStates.both_references_pass1
  ∧ ∃ aD k op,
      line_address (rm_comments Sample.both_references) 2 = Ok aD
      ∧ Dict.keys (bin SampleStates.both_references_pass1) !! 0%nat = Some k
      ∧ mri_table Sample.tabs !! "lda" = Some op
      ∧ Dict.get k SampleStates.both_references_image
        = Some (Some (indirect_bit ["lda"; "x"] +:+ op +:+ aD)).
Proof.
  split; [vm_compute; reflexivity|]. split; [vm_compute; reflexivity|].
  apply (reference_resolves_to_last_definition Sample.tabs
           Sample.both_references SampleStates.both_references_image
           SampleStates.both_references_pass1
           [["lda"; "x"]; ["hlt"]] [["lda"; "x"; "i"]]
           [] [["hlt"]; ["x,"; "dec"; "5"]; ["lda"; "x"; "i"]]
           ["x,"; "dec"; "5"] ["lda"; "x"] "lda" "x");
    first [ by repeat constructor | vm_compute; reflexivity ].
Defined.

End references.

(** ** Words stored away from their line's address *)

Section misplaced_word.
Import Assembler.

(** Claim C1.  The code departs from the claim when two scanned lines share an
    address.  In the sample program the line [org 101] is given address
    0x100, which the line before it already holds, so the image has one
    key fewer than there are lines; Pass 2 then stores the word of
    [lda x] (the line of address 0x101) under the third key, 0x1ff, and
    nothing is stored at 0x101. *)
Theorem mri_word_misplaced :
  Sample.overlapping_origins !! 3%nat = Some ["lda"; "x"]
  ∧ mri_operand Sample.tabs ["lda"; "x"] = Some ("lda", "x")
  ∧ line_address Sample.overlapping_origins 2 = Ok "000100000001"
  ∧ assemble Sample.tabs Sample.overlapping_origins
    = Ok SampleStates.overlapping_origins_image
  ∧ Dict.get "000100000001" SampleStates.overlapping_origins_image = None
  ∧ Dict.get "000111111111" SampleStates.overlapping_origins_image
    = Some (Some ("0" +:+ "000" +:+ "000100000000")).
Proof. repeat split; vm_compute; reflexivity. Qed.

End misplaced_word.

(** ** The words of the image *)

Section image_words.
Import Assembler.

Lemma dict_set_elem (k k' : string) (v v' : option string) (d : pydict) :
  (k', v') ∈ Dict.set k v d → (k', v') = (k, v) ∨ (k', v') ∈ d.
Proof.
  induction d as [|[k0 v0] d IH]; simpl.
  - intros ->%list_elem_of_singleton. by left.
  - destruct (String.eqb_spec k k0) as [->|_].
    + intros [->|H]%elem_of_cons; [by left|]. right. apply elem_of_cons. by right.
    + intros [->|H]%elem_of_cons.
      * right. apply elem_of_cons. by left.
      * destruct (IH H) as [->|H']; [by left|]. right. apply elem_of_cons. by right.
Qed.

Lemma format2bin_word (lit numformat : string) (base : N) (w : string) :
  numformat = "dec" ∧ base = 10%N ∨ numformat = "hex" ∧ base = 16%N →
  (∀ v, Py.int lit base = Ok v → 0 ≤ v < 65536) →
  format2bin lit numformat 16 = Ok w → is_word w.
Proof.
  intros Hfmt Hfit H. unfold format2bin in H.
  assert (∃ n, Py.int lit base = Ok n ∧ w = Py.zfill (Py.format_b n) 16)
    as (n & Hn & ->).
  { destruct Hfmt as [[-> ->] | [-> ->]]; simpl in H;
      apply bind_Ok in H as (n & Hn & [= <-]); eauto. }
  specialize (Hfit n Hn). split.
  - rewrite zfill_binary_length by (apply format_b_binary; lia).
    pose proof (format_b_length n 16). simpl in *. lia.
  - apply zfill_binary_binary, format_b_binary. lia.
Qed.

(** Under the three conditions, whatever Pass 2 stores is a 16-bit
    word. *)
Lemma word_source_is_word (t : tables) (tab : gmap string string)
    (line : list string) (w : string) :
  tables_wf t →
  (∀ k a, tab !! k = Some a → String.length a = 12%nat ∧ is_binary a = true) →
  (∀ lit v, line !! 2%nat = Some lit →
     (line !! 1%nat = Some "hex" → Py.int lit 16 = Ok v → 0 ≤ v < 65536)
     ∧ (line !! 1%nat = Some "dec" → Py.int lit 10 = Ok v → 0 ≤ v < 65536)) →
  word_source t tab line w → is_word w.
Proof.
  intros [Hrri Hioi Hmri] Htab Hlit
    [(m & Hw) | [(m & Hw) | [(m & op & x & a & Hop & Ha & ->)
      | [(lit & H1 & H2 & Hw) | (lit & H1 & H2 & Hw)]]]].
  - by eapply Hrri.
  - by eapply Hioi.
  - destruct (Hmri _ _ Hop) as [Hlen Hbin].
    destruct (Htab _ _ Ha) as [Hlen' Hbin'].
    split.
    + rewrite !string_app_length, Hlen, Hlen'.
      unfold indirect_bit. by destruct (Py.elem "i" (drop 1 line)).
    + rewrite !is_binary_app, Hbin, Hbin'.
      unfold indirect_bit. by destruct (Py.elem "i" (drop 1 line)).
  - eapply (format2bin_word lit "hex" 16 w); [by right| |done].
    intros v Hv. by apply (proj1 (Hlit lit v H2)).
  - eapply (format2bin_word lit "dec" 10 w); [by left| |done].
    intros v Hv. by apply (proj2 (Hlit lit v H2)).
Qed.

Lemma second_pass_loop_words (t : tables) (tab : gmap string string) (i : nat)
    (ls : list (list string)) (st st' : pass2) :
  tables_wf t →
  (∀ k a, tab !! k = Some a → String.length a = 12%nat ∧ is_binary a = true) →
  literals_fit ls →
  second_pass_loop t tab i ls st = Ok st' →
  (∀ k w, (k, Some w) ∈ image st → is_word w) →
  ∀ k w, (k, Some w) ∈ image st' → is_word w.
Proof.
  intros Hwf Htab Hlit H%second_pass_loop_scan.
  induction H as [| | i line rest tok0 st st1 st' _ _ Hstep _ IH]; [done..|].
  intros Hinv. apply IH.
  - intros l lit v Hl. apply Hlit. apply elem_of_cons. by right.
  - apply second_pass_step_Ok in Hstep
      as [->|(k0 & v0 & w0 & _ & -> & Hsrc)]; [done|].
    intros k w [[= -> ->]|Hin]%dict_set_elem; [|by eapply Hinv].
    eapply word_source_is_word; [done|done| |done].
    intros lit v. apply Hlit. apply elem_of_cons. by left.
Qed.

(** Claim C5.  The code departs from the claim: the sample program, whose
    data line holds the decimal literal 65536, assembles normally, and
    the value at address 0x101 in the image has 17 characters,
    [__format2bin] having returned more than the 16 bits it was asked
    for. *)
Lemma image_value_wider_than_word :
  assemble Sample.tabs Sample.wide_literal
  = Ok [("000100000000", Some "1111111111111111");
        ("000100000001", Some "10000000000000000")]
  ∧ String.length "10000000000000000" = 17%nat.
Proof. split; vm_compute; reflexivity. Qed.

(** In the image of a program on which [assemble] returns normally every
    address occurs once and none is bound to [None].
    Every value is moreover a 16-character binary string when the tables
    hold 16-bit words and 3-bit opcodes, every address allocated by
    Pass 1 has 12 characters, and every literal after [hex] or [dec] is a
    non-negative number below 65536. *)
Theorem image_holds_words (t : tables) (asm0 : list (list string))
    (img : pydict) :
  assemble t asm0 = Ok img →
  NoDup (Dict.keys img)
  ∧ (∀ k v, (k, v) ∈ img → v ≠ None)
  ∧ (tables_wf t →
     literals_fit (body (rm_comments asm0)) →
     (∀ p1 k, first_pass (rm_comments asm0) ∅ [] = Ok p1 →
        k ∈ Dict.keys (bin p1) → String.length k = 12%nat) →
     ∀ k w, (k, Some w) ∈ img → is_word w).
Proof.
  intros (p1 & st2 & Hp1 & Hloop & Hkeys & Hnd & ->)%assemble_Ok.
  split; [by apply dict_filter_NoDup|]. split.
  - intros k v [Hv _]%list_elem_of_filter. done.
  - intros Hwf Hlit Hlen k w [_ Hin]%list_elem_of_filter.
    pose proof (first_pass_inv _ _ Hp1) as [_ Hpend Hbin Hsym].
    eapply second_pass_loop_words; [done| |done|exact Hloop| |exact Hin].
    + intros k' a Ha. apply Hsym in Ha. split; [by eapply Hlen | by apply Hbin].
    + simpl. intros k' w' Hin'. by apply Hpend in Hin'.
Qed.

Lemma image_holds_words_witness :
  assemble Sample.tabs Sample.example = Ok SampleStates.example_image
  ∧ NoDup (Dict.keys SampleStates.example_image)
  ∧ (∀ k v, (k, v) ∈ SampleStates.example_image → v ≠ None)
  ∧ (tables_wf Sample.tabs →
     literals_fit (body (rm_comments Sample.example)) →
     (∀ p1 k, first_pass (rm_comments Sample.example) ∅ [] = Ok p1 →
        k ∈ Dict.keys (bin p1) → String.length k = 12%nat) →
     ∀ k w, (k, Some w) ∈ SampleStates.example_image → is_word w).
Proof.
  split; [vm_compute; reflexivity|].
  apply (image_holds_words Sample.tabs Sample.example).
  vm_compute; reflexivity.
Defined.

End image_words.

(** * Further properties of the code *)

(** ** Comment removal *)

Section comments.
Import Assembler.

(** [__rm_comments] keeps, of every line, the tokens before the first one
    that starts with [/]: the line is what is kept followed by a rest that
    is empty or begins with a comment token, and no kept token starts
    with [/]. *)
Theorem rm_comment_line_cuts_at_first_comment (line : list string) :
  ∃ rest,
    line = rm_comment_line line ++ rest
    ∧ Forall (λ tok, Py.startswith tok "/" = false) (rm_comment_line line)
    ∧ match rest with
      | [] => True
      | tok :: _ => Py.startswith tok "/" = true
      end.
Proof.
  induction line as [|tok line (rest & Hline & Hkept & Hrest)]; simpl.
  - by exists [].
  - destruct (Py.startswith tok "/") eqn:Htok.
    + by exists (tok :: line).
    + exists rest. split; [simpl; by f_equal|]. split; [|done].
      by constructor.
Qed.

Lemma rm_comment_line_idemp (line : list string) :
  rm_comment_line (rm_comment_line line) = rm_comment_line line.
Proof.
  induction line as [|tok line IH]; [done|]. simpl.
  destruct (Py.startswith tok "/") eqn:Htok; [done|].
  simpl. by rewrite Htok, IH.
Qed.

Lemma rm_comments_idemp (asm : list (list string)) :
  rm_comments (rm_comments asm) = rm_comments asm.
Proof.
  unfold rm_comments. rewrite <- list_fmap_compose. apply list_fmap_ext.
  intros i line _. apply rm_comment_line_idemp.
Qed.

(** Removing comments twice is removing them once, and the number of
    lines never changes (a line that is all comment stays, empty). *)
Theorem rm_comments_idempotent (asm : list (list string)) :
  rm_comments (rm_comments asm) = rm_comments asm
  ∧ length (rm_comments asm) = length asm.
Proof. split; [apply rm_comments_idemp | apply length_fmap]. Qed.

Lemma rm_comments_app (asm1 asm2 : list (list string)) :
  rm_comments (asm1 ++ asm2) = rm_comments asm1 ++ rm_comments asm2.
Proof. apply fmap_app. Qed.

Lemma rm_comments_cons (l : list string) (asm : list (list string)) :
  rm_comments (l :: asm) = rm_comment_line l :: rm_comments asm.
Proof. reflexivity. Qed.

End comments.

(** ** The lines the passes visit *)

Section visited.
Import Assembler.

Lemma body_snoc (asm : list (list string)) (l0 l : list string) :
  body (l0 :: asm ++ [l]) = asm.
Proof. unfold body. simpl. apply removelast_last. Qed.



(** [assemble] seen through the first line and the visited lines only. *)
Lemma assemble_body (t : tables) (asm1 asm2 : list (list string)) :
  asm1 ≠ [] → asm2 ≠ [] →
  rm_comments asm1 !! 0%nat = rm_comments asm2 !! 0%nat →
  (∀ st, first_pass_loop (body (rm_comments asm1)) st
         = first_pass_loop (body (rm_comments asm2)) st) →
  (∀ tab i st, second_pass_loop t tab i (body (rm_comments asm1)) st
               = second_pass_loop t tab i (body (rm_comments asm2)) st) →
  assemble t asm1 = assemble t asm2.
Proof.
  intros H1 H2 H0 Hfp Hsp. unfold assemble.
  destruct asm1 as [|a1 asm1]; [done|]. destruct asm2 as [|a2 asm2]; [done|].
  unfold first_pass, second_pass, Py.index. rewrite H0.
  destruct (rm_comments (a2 :: asm2) !! 0%nat) as [l0|]; [|done].
  cbn [bind]. destruct (l0 !! 1%nat) as [o|]; [|done]. cbn [bind].
  rewrite Hfp.
  destruct (first_pass_loop _ _) as [p1|]; [|done]. cbn [bind].
  by rewrite Hsp.
Qed.

(** The last line of the program is never looked at (the loops run over
    [range(1, len - 1)]): replacing it by any other line, whether or not
    it is the terminal directive, changes nothing. *)
Theorem last_line_is_ignored (t : tables) (asm : list (list string))
    (l l' : list string) :
  asm ≠ [] →
  assemble t (asm ++ [l]) = assemble t (asm ++ [l']).
Proof.
  intros Hne. destruct asm as [|l0 asm]; [done|].
  apply assemble_body; try done.
  all: rewrite <- !app_comm_cons, !rm_comments_cons, !rm_comments_app; simpl;
    try done.
  all: intros; by rewrite !body_snoc.
Qed.

Lemma last_line_is_ignored_witness :
  Sample.example ≠ []
  ∧ assemble Sample.tabs (Sample.example ++ [["end"]])
    = assemble Sample.tabs (Sample.example ++ [["lda"; "x"]]).
Proof.
  split; [discriminate|].
  apply (last_line_is_ignored Sample.tabs Sample.example). discriminate.
Defined.



End visited.

(** ** Degenerate programs and lines *)

Section degenerate.
Import Assembler.

(** A program of one or two lines whose first line has two tokens left
    after comment removal assembles to the empty image: no line is
    visited, and the origin is not even converted. *)
Theorem short_program_gives_empty_image (t : tables)
    (asm0 : list (list string)) (l0 : list string) :
  asm0 !! 0%nat = Some l0 →
  (length asm0 ≤ 2)%nat →
  (2 ≤ length (rm_comment_line l0))%nat →
  assemble t asm0 = Ok [].
Proof.
  intros H0 Hlen Hl0.
  destruct asm0 as [|a0 [|a1 [|a2 asm0]]]; [done| | |simpl in Hlen; lia];
    injection H0 as ->;
    destruct (rm_comment_line l0) as [|tok0 [|o r]] eqn:E;
    try (simpl in Hl0; lia);
    unfold assemble, first_pass, second_pass, Py.index; simpl; rewrite E;
    reflexivity.
Qed.

Lemma short_program_gives_empty_image_witness :
  [["org"; "zz"]; ["end"]] !! 0%nat = Some ["org"; "zz"]
  ∧ (length [["org"; "zz"]; ["end"]] ≤ 2)%nat
  ∧ (2 ≤ length (rm_comment_line ["org"; "zz"]))%nat
  ∧ assemble Sample.tabs [["org"; "zz"]; ["end"]] = Ok [].
Proof.
  split; [reflexivity|]. split; [simpl; lia|]. split; [simpl; lia|].
  apply (short_program_gives_empty_image Sample.tabs
           [["org"; "zz"]; ["end"]] ["org"; "zz"]);
    [reflexivity | simpl; lia | simpl; lia].
Defined.

Lemma body_rm_comments (asm : list (list string)) :
  body (rm_comments asm) = rm_comments (body asm).
Proof.
  unfold body, rm_comments. destruct asm as [|l0 asm]; [done|]. simpl.
  induction asm as [|l asm IH]; [done|].
  destruct asm as [|l' asm]; [done|].
  change (removelast (l :: l' :: asm)) with (l :: removelast (l' :: asm)).
  rewrite !fmap_cons. rewrite <- IH. reflexivity.
Qed.

(** A visited line that is blank, or whose first token starts a comment,
    is empty once comments are removed, and Pass 1 raises [IndexError]
    when it gets to it. *)
Theorem blank_or_comment_line_raises_IndexError (t : tables)
    (asm0 pre post : list (list string)) (l l0 : list string) (o : string)
    (st : pass1) :
  body asm0 = pre ++ l :: post →
  (l = [] ∨ ∃ tok r, l = tok :: r ∧ Py.startswith tok "/" = true) →
  asm0 !! 0%nat = Some l0 → rm_comment_line l0 !! 1%nat = Some o →
  Forall not_end (rm_comments pre) →
  first_pass_loop (rm_comments pre) (pass1_init o) = Ok st →
  assemble t asm0 = Err IndexError.
Proof.
  intros Hbody Hl H0 Ho Hpre Hloop.
  assert (rm_comment_line l = []) as El.
  { destruct Hl as [->|(tok & r & -> & Htok)]; [done|]. simpl. by rewrite Htok. }
  destruct asm0 as [|a0 asm0]; [done|]. injection H0 as ->.
  unfold assemble.
  erewrite (first_pass_split _ (rm_comments pre) ([] :: rm_comments post));
    [|reflexivity|exact Ho| |done].
  - rewrite Hloop. reflexivity.
  - rewrite body_rm_comments, Hbody, rm_comments_app, rm_comments_cons.
    by rewrite El.
Qed.

Lemma blank_or_comment_line_raises_IndexError_witness :
  body [["org"; "100"]; ["hlt"]; ["/data"; "follows"]; ["end"]]
  = [["hlt"]] ++ ["/data"; "follows"] :: []
  ∧ first_pass_loop (rm_comments [["hlt"]]) (pass1_init "100")
    = Ok (Pass1 1 1 "100" "000100000000" ∅ [("000100000000", None)])
  ∧ assemble Sample.tabs
      [["org"; "100"]; ["hlt"]; ["/data"; "follows"]; ["end"]]
    = Err IndexError.
Proof.
  split; [reflexivity|]. split; [vm_compute; reflexivity|].
  apply (blank_or_comment_line_raises_IndexError Sample.tabs
           [["org"; "100"]; ["hlt"]; ["/data"; "follows"]; ["end"]]
           [["hlt"]] [] ["/data"; "follows"] ["org"; "100"] "100"
           (Pass1 1 1 "100" "000100000000" ∅ [("000100000000", None)]));
    [reflexivity | right; by exists "/data", ["follows"] | reflexivity
    | reflexivity | by repeat constructor | vm_compute; reflexivity].
Defined.

(** A relocation directive that the loop of Pass 1 gets to, in whatever
    state, and whose operand is zero or negative makes it raise
    [ValueError]: the directive's own slot is the operand minus one, and
    [hex] of a negative number, with its first two characters dropped, is
    no hexadecimal numeral.  The first line of the program is not such a
    line: the loop starts after it. *)
Theorem origin_zero_directive_raises_ValueError
    (line : list string) (rest : list (list string)) (operand : string)
    (o : Z) (st : pass1) :
  line !! 0%nat = Some "org" → line !! 1%nat = Some operand →
  Py.int operand 16 = Ok o → o ≤ 0 →
  first_pass_loop (line :: rest) st = Err ValueError.
Proof.
  intros H0 H1 Ho Hle. cbn [first_pass_loop]. unfold Py.index. rewrite H0.
  cbn [bind]. change (String.eqb "org" "end") with false. cbv iota.
  unfold first_pass_step. change (String.eqb "org" "org") with true.
  cbv iota. unfold Py.index. rewrite H1. cbn [bind].
  rewrite (location_neg operand (-1) o) by (done || lia). reflexivity.
Qed.

Lemma origin_zero_directive_raises_ValueError_witness :
  ["org"; "0"] !! 0%nat = Some "org" ∧ ["org"; "0"] !! 1%nat = Some "0"
  ∧ Py.int "0" 16 = Ok 0 ∧ 0 ≤ 0
  ∧ first_pass_loop (["org"; "0"] :: [["hlt"]]) (pass1_init "100")
    = Err ValueError.
Proof.
  split; [reflexivity|]. split; [reflexivity|].
  split; [vm_compute; reflexivity|]. split; [lia|].
  apply (origin_zero_directive_raises_ValueError ["org"; "0"] [["hlt"]]
           "0" 0 (pass1_init "100"));
    [reflexivity | reflexivity | vm_compute; reflexivity | lia].
Defined.

End degenerate.

(** ** What the two passes maintain *)

Section maintained.
Import Assembler.

Lemma first_pass_loop_addresses (ls : list (list string)) (st st' : pass1) :
  first_pass_loop ls st = Ok st' →
  Forall is_address (Dict.keys (bin st)) →
  Forall is_address (Dict.keys (bin st')).
Proof.
  intros H%first_pass_loop_scan.
  induction H as [| | line rest tok0 st st1 st' _ _ Hstep _ IH]; [done..|].
  intros Hinv. apply IH.
  apply first_pass_step_Ok in Hstep as (o & i & c & _ & Hc & _ & ->).
  apply location_Ok in Hc as (n & _ & Hn & ->). simpl.
  apply Forall_forall. intros k [->|Hk]%dict_set_keys_elem.
  - by exists (n + i).
  - by eapply Forall_forall in Hinv.
Qed.

Lemma is_address_length (k : string) :
  is_address k → (12 ≤ String.length k)%nat ∧ is_binary k = true.
Proof.
  intros (n & Hn & ->). split; [|by apply addr12_binary].
  unfold addr12. rewrite zfill_binary_length by by apply format_b_binary.
  lia.
Qed.

(** When Pass 1 ends normally on a fresh object, the image holds one
    pending entry per distinct address, every key being a binary string
    of at least 12 characters, and every label of the symbol table is
    bound to one of these keys. *)
Theorem first_pass_result (asm : list (list string)) (p : pass1) :
  first_pass asm ∅ [] = Ok p →
  NoDup (Dict.keys (bin p))
  ∧ (∀ k v, (k, v) ∈ bin p → v = None)
  ∧ (∀ k, k ∈ Dict.keys (bin p) →
       (12 ≤ String.length k)%nat ∧ is_binary k = true)
  ∧ (∀ lab a, symtab p !! lab = Some a →
       islabel lab = true ∧ a ∈ Dict.keys (bin p))
  ∧ (length (bin p) ≤ linecounter p)%nat.
Proof.
  intros H. pose proof (first_pass_inv _ _ H) as [H1 H2 H3 H4].
  pose proof H as (l0 & o & _ & _ & Hloop)%first_pass_Ok.
  split; [done|]. split; [done|]. split; [|split].
  - intros k Hk. apply is_address_length.
    eapply Forall_forall; [|exact Hk].
    eapply first_pass_loop_addresses; [exact Hloop|]. constructor.
  - intros lab a Ha. split; [|by eapply H4].
    eapply first_pass_loop_keys; [exact Hloop| |exact Ha].
    intros k' a'. simpl. by rewrite lookup_empty.
  - pose proof (first_pass_loop_growth _ _ _ Hloop). simpl in *. lia.
Qed.

Lemma first_pass_result_witness :
  first_pass Sample.example ∅ [] = Ok SampleStates.example_pass1
  ∧ NoDup (Dict.keys (bin SampleStates.example_pass1))
  ∧ (∀ k v, (k, v) ∈ bin SampleStates.example_pass1 → v = None)
  ∧ (∀ k, k ∈ Dict.keys (bin SampleStates.example_pass1) →
       (12 ≤ String.length k)%nat ∧ is_binary k = true)
  ∧ (∀ lab a, symtab SampleStates.example_pass1 !! lab = Some a →
       islabel lab = true ∧ a ∈ Dict.keys (bin SampleStates.example_pass1))
  ∧ (length (bin SampleStates.example_pass1)
     ≤ linecounter SampleStates.example_pass1)%nat.
Proof.
  split; [vm_compute; reflexivity|].
  apply (first_pass_result Sample.example). vm_compute; reflexivity.
Defined.

(** The final loop of [__second_pass] cannot raise: [assemble] returns
    normally as soon as the two scans do, and what it returns is the
    image of the second scan without the entries left at [None], in the
    same order. *)
Theorem assemble_returns_when_scans_do (t : tables)
    (asm0 : list (list string)) (p1 : pass1) (st2 : pass2) :
  asm0 ≠ [] →
  first_pass (rm_comments asm0) ∅ [] = Ok p1 →
  second_pass_loop t (symtab p1) 1 (body (rm_comments asm0))
    (Pass2 false (bin p1) []) = Ok st2 →
  assemble t asm0 = Ok (filter (λ e, e.2 ≠ None) (image st2)).
Proof.
  intros Hne Hp1 Hst2. unfold assemble. destruct asm0 as [|a0 asm0]; [done|].
  rewrite Hp1. cbn [bind]. unfold second_pass. rewrite Hst2. cbn [bind].
  rewrite prune_filter; [done|].
  rewrite (second_pass_loop_keys _ _ _ _ _ _ Hst2). simpl.
  apply (first_pass_inv _ _ Hp1).
Qed.

Lemma assemble_returns_when_scans_do_witness :
  Sample.example ≠ []
  ∧ first_pass (rm_comments Sample.example) ∅ []
    = Ok SampleStates.example_pass1
  ∧ second_pass_loop Sample.tabs (symtab SampleStates.example_pass1) 1
      (body (rm_comments Sample.example))
      (Pass2 false (bin SampleStates.example_pass1) [])
    = Ok (Pass2 true SampleStates.example_image [])
  ∧ assemble Sample.tabs Sample.example
    = Ok (filter (λ e, e.2 ≠ None) SampleStates.example_image).
Proof.
  split; [discriminate|]. split; [vm_compute; reflexivity|].
  split; [vm_compute; reflexivity|].
  apply (assemble_returns_when_scans_do Sample.tabs Sample.example
           SampleStates.example_pass1
           (Pass2 true SampleStates.example_image []));
    [discriminate | vm_compute; reflexivity | vm_compute; reflexivity].
Defined.

(** Pass 2 allocates nothing: the addresses of the returned image are
    addresses that Pass 1 allocated, in the order of allocation. *)
Theorem image_addresses_are_allocated (t : tables)
    (asm0 : list (list string)) (img : pydict) (p1 : pass1) :
  assemble t asm0 = Ok img →
  first_pass (rm_comments asm0) ∅ [] = Ok p1 →
  Dict.keys img `sublist_of` Dict.keys (bin p1).
Proof.
  intros (p1' & st2 & Hp1 & _ & Hkeys & _ & ->)%assemble_Ok Hp1'.
  rewrite Hp1 in Hp1'. injection Hp1' as ->.
  rewrite <- Hkeys. unfold Dict.keys. apply fmap_sublist, sublist_filter.
Qed.

Lemma image_addresses_are_allocated_witness :
  assemble Sample.tabs Sample.overlapping_origins
  = Ok SampleStates.overlapping_origins_image
  ∧ first_pass (rm_comments Sample.overlapping_origins) ∅ []
    = Ok SampleStates.overlapping_origins_pass1
  ∧ Dict.keys SampleStates.overlapping_origins_image
    `sublist_of` Dict.keys (bin SampleStates.overlapping_origins_pass1).
Proof.
  split; [vm_compute; reflexivity|]. split; [vm_compute; reflexivity|].
  apply (image_addresses_are_allocated Sample.tabs Sample.overlapping_origins);
    vm_compute; reflexivity.
Defined.

Lemma second_pass_step_flag (t : tables) (tab : gmap string string) (i : nat)
    (line : list string) (tok0 : string) (st st' : pass2) :
  second_pass_step t tab i line tok0 st = Ok st' →
  flag st' = flag st || Py.elem "hlt" line.
Proof.
  unfold second_pass_step. intros H.
  assert (∀ w s, store i w st = Ok s → flag s = flag st) as Hstore.
  { intros w s (k & v0 & _ & ->)%store_Ok. done. }
  destruct (Py.elem "hlt" line).
  { apply bind_Ok in H as (w & _ & H).
    apply bind_Ok in H as (s & _ & [= <-]). simpl. by rewrite orb_true_r. }
  rewrite orb_false_r.
  destruct (Py.contains (rri_table t) tok0).
  { apply bind_Ok in H as (w & _ & H). by eapply Hstore. }
  apply bind_Ok in H as (tok1 & _ & H).
  destruct (Py.contains (rri_table t) tok1).
  { apply bind_Ok in H as (w & _ & H). by eapply Hstore. }
  destruct (Py.contains (mri_table t) tok0).
  { apply bind_Ok in H as (op & _ & H). apply bind_Ok in H as (a & _ & H).
    by eapply Hstore. }
  destruct (Py.contains (mri_table t) tok1).
  { apply bind_Ok in H as (op & _ & H). apply bind_Ok in H as (tok2 & _ & H).
    apply bind_Ok in H as (a & _ & H). by eapply Hstore. }
  destruct (Py.contains (ioi_table t) tok0).
  { apply bind_Ok in H as (w & _ & H). by eapply Hstore. }
  destruct (Py.contains (ioi_table t) tok1).
  { apply bind_Ok in H as (w & _ & H). by eapply Hstore. }
  destruct (islabel tok0 && flag st); [|by injection H as <-].
  destruct (String.eqb tok1 "hex").
  { apply bind_Ok in H as (tok2 & _ & H). apply bind_Ok in H as (w & _ & H).
    by eapply Hstore. }
  destruct (String.eqb tok1 "dec").
  { apply bind_Ok in H as (tok2 & _ & H). apply bind_Ok in H as (w & _ & H).
    by eapply Hstore. }
  by injection H as <-.
Qed.

Lemma second_pass_loop_flag (t : tables) (tab : gmap string string) (i : nat)
    (ls : list (list string)) (st st' : pass2) :
  Forall not_end ls →
  second_pass_loop t tab i ls st = Ok st' →
  flag st' = flag st || existsb (Py.elem "hlt") ls.
Proof.
  intros Hls H%second_pass_loop_scan.
  induction H as [i st | i line rest st Hend
                  | i line rest tok0 st st1 st' _ _ Hstep _ IH].
  - simpl. by rewrite orb_false_r.
  - apply Forall_cons in Hls as [Hline _]. by destruct Hline.
  - apply Forall_cons in Hls as [_ Hls]. rewrite (IH Hls).
    rewrite (second_pass_step_flag _ _ _ _ _ _ _ Hstep). simpl.
    by rewrite orb_assoc.
Qed.

(** The encoder-wide flag: after a scan that met no [end] line, [flag] is
    set exactly if it was set before or some scanned line holds the token
    [hlt]. *)
Theorem flag_records_halt (t : tables) (tab : gmap string string) (i : nat)
    (ls : list (list string)) (st st' : pass2) :
  Forall not_end ls →
  second_pass_loop t tab i ls st = Ok st' →
  flag st' = flag st || existsb (Py.elem "hlt") ls.
Proof. apply second_pass_loop_flag. Qed.

Lemma flag_records_halt_witness :
  Forall not_end (body Sample.example)
  ∧ second_pass_loop Sample.tabs (symtab SampleStates.example_pass1) 1
      (body Sample.example) (Pass2 false (bin SampleStates.example_pass1) [])
    = Ok (Pass2 true SampleStates.example_image [])
  ∧ flag (Pass2 true SampleStates.example_image [])
    = flag (Pass2 false (bin SampleStates.example_pass1) [])
      || existsb (Py.elem "hlt") (body Sample.example).
Proof.
  split; [by repeat constructor|]. split; [vm_compute; reflexivity|].
  apply (flag_records_halt Sample.tabs (symtab SampleStates.example_pass1) 1
           (body Sample.example));
    [by repeat constructor | vm_compute; reflexivity].
Defined.

(** A memory-reference line whose operand, with the terminator appended,
    is not a key of the symbol table makes Pass 2 raise [KeyError] with
    that key, whatever the state of the image. *)
Theorem undefined_operand_raises_KeyError
    (t : tables) (asm : list (list string)) (tab : gmap string string)
    (b : pydict) (pre post : list (list string)) (l : list string)
    (m x : string) (st : pass2) :
  body asm = pre ++ l :: post →
  Forall not_end pre →
  second_pass_loop t tab 1 pre (Pass2 false b []) = Ok st →
  mri_operand t l = Some (m, x) →
  tab !! (x +:+ ",") = None →
  second_pass t asm tab b = Err (KeyError (x +:+ ",")).
Proof.
  intros Hbody Hpre Hloop Hmri Hx.
  pose proof (mri_operand_Some _ _ _ _ Hmri)
    as (tok0 & tok1 & H0 & _ & Hend & _ & _ & _ & Hm).
  assert (is_Some (mri_table t !! m)) as [op Hop].
  { destruct Hm as [(M & -> & _) | (_ & M & -> & _)];
      by apply contains_true in M. }
  unfold second_pass. rewrite Hbody.
  rewrite second_pass_loop_app, Hloop by done. cbn [bind].
  cbn [second_pass_loop]. unfold Py.index. rewrite H0. cbn [bind].
  destruct (String.eqb_spec tok0 "end") as [|_]; [done|].
  rewrite (second_pass_step_mri _ _ _ _ _ _ _ _ Hmri H0).
  unfold Py.getitem. rewrite Hop, Hx. reflexivity.
Qed.

Lemma undefined_operand_raises_KeyError_witness :
  body [["org"; "100"]; ["lda"; "y"]; ["end"]] = [] ++ ["lda"; "y"] :: []
  ∧ mri_operand Sample.tabs ["lda"; "y"] = Some ("lda", "y")
  ∧ second_pass Sample.tabs [["org"; "100"]; ["lda"; "y"]; ["end"]] ∅
      [("000100000000", None)]
    = Err (KeyError ("y" +:+ ",")).
Proof.
  split; [reflexivity|]. split; [vm_compute; reflexivity|].
  apply (undefined_operand_raises_KeyError Sample.tabs
           [["org"; "100"]; ["lda"; "y"]; ["end"]] ∅ [("000100000000", None)]
           [] [] ["lda"; "y"] "lda" "y" (Pass2 false [("000100000000", None)] []));
    [reflexivity | constructor | reflexivity | vm_compute; reflexivity
    | vm_compute; reflexivity].
Defined.

End maintained.

(** ** Conversions that fit *)

Section conversions_in_range.
Import Assembler.

Lemma format2bin_Ok (num numformat : string) (base : N) (w : nat) (v : Z) :
  numformat = "dec" ∧ base = 10%N ∨ numformat = "hex" ∧ base = 16%N →
  Py.int num base = Ok v →
  format2bin num numformat w = Ok (Py.zfill (Py.format_b v) w).
Proof.
  intros [[-> ->] | [-> ->]] Hv; unfold format2bin; simpl; by rewrite Hv.
Qed.

(** For a literal whose value [v] fits in [w ≥ 1] bits ([0 ≤ v < 2^w]),
    [__format2bin] returns exactly [w] binary digits, and they read back
    as [v]. *)
Theorem format2bin_fits (num numformat : string) (base : N) (w : nat) (v : Z) :
  numformat = "dec" ∧ base = 10%N ∨ numformat = "hex" ∧ base = 16%N →
  Py.int num base = Ok v →
  (0 < w)%nat → 0 ≤ v < 2 ^ Z.of_nat w →
  ∃ s, format2bin num numformat w = Ok s
    ∧ String.length s = w
    ∧ is_binary s = true
    ∧ BinaryString.to_Z ("0b" +:+ s) = v.
Proof.
  intros Hfmt Hv Hpos [H0 Hw]. eexists.
  split; [by eapply format2bin_Ok|]. split; [|split].
  - rewrite zfill_binary_length by by apply format_b_binary.
    pose proof (format_b_length v w (conj H0 Hw) Hpos). lia.
  - by apply zfill_binary_binary, format_b_binary.
  - by apply zfill_format_b_value.
Qed.

Lemma format2bin_fits_witness :
  ("hex" = "dec" ∧ 16%N = 10%N ∨ "hex" = "hex" ∧ 16%N = 16%N)
  ∧ Py.int "a" 16 = Ok 10
  ∧ (0 < 16)%nat ∧ 0 ≤ 10 < 2 ^ Z.of_nat 16
  ∧ ∃ s, format2bin "a" "hex" 16 = Ok s
      ∧ String.length s = 16%nat
      ∧ is_binary s = true
      ∧ BinaryString.to_Z ("0b" +:+ s) = 10.
Proof.
  split; [by right|]. split; [vm_compute; reflexivity|]. split; [lia|].
  split; [split; vm_compute; congruence|].
  apply (format2bin_fits "a" "hex" 16 16 10);
    [by right | vm_compute; reflexivity | lia
    | split; vm_compute; congruence].
Defined.

(** For a literal of negative value the result is no binary word: it is
    a minus sign followed by binary digits (zeros are inserted after the
    sign), at least [w] characters in all, and it reads back as the
    negative number. *)
Theorem format2bin_negative (num numformat : string) (base : N) (w : nat)
    (v : Z) :
  numformat = "dec" ∧ base = 10%N ∨ numformat = "hex" ∧ base = 16%N →
  Py.int num base = Ok v →
  v < 0 →
  ∃ r, format2bin num numformat w = Ok (String "-" r)
    ∧ is_binary r = true
    ∧ (w ≤ String.length (String "-" r))%nat
    ∧ BinaryString.to_Z (String "-" ("0b" +:+ r)) = v.
Proof.
  intros Hfmt Hv Hneg. rewrite (format2bin_Ok _ _ _ _ _ Hfmt Hv).
  destruct v as [|p|p]; [lia | lia |]. simpl Py.format_b.
  set (d := BinaryString.Raw.of_pos p "").
  assert (is_binary d = true) as Hd by (unfold d; by rewrite bin_of_pos_binary).
  assert (BinaryString.Raw.to_N d 0 = N.pos p) as Hval
    by apply (BinaryString.Raw.to_N_of_pos p "" 0).
  unfold Py.zfill.
  destruct (Nat.leb_spec w (String.length (String "-" d))) as [Hle|Hlt].
  - exists d. split; [done|]. split; [done|]. split; [done|].
    rewrite !string_app_cons, string_app_nil.
    unfold BinaryString.to_Z, BinaryString.to_N. simpl. by rewrite Hval.
  - simpl. eexists. split; [reflexivity|]. split; [|split].
    + by rewrite is_binary_app, is_binary_zeros.
    + simpl in *. rewrite string_app_length, zeros_length. lia.
    + rewrite !string_app_cons, string_app_nil.
      unfold BinaryString.to_Z, BinaryString.to_N. simpl.
      by rewrite bin_to_N_zeros, Hval.
Qed.

Lemma format2bin_negative_witness :
  ("dec" = "dec" ∧ 10%N = 10%N ∨ "dec" = "hex" ∧ 10%N = 16%N)
  ∧ Py.int "-5" 10 = Ok (-5)
  ∧ -5 < 0
  ∧ ∃ r, format2bin "-5" "dec" 16 = Ok (String "-" r)
      ∧ is_binary r = true
      ∧ (16 ≤ String.length (String "-" r))%nat
      ∧ BinaryString.to_Z (String "-" ("0b" +:+ r)) = -5.
Proof.
  split; [by left|]. split; [vm_compute; reflexivity|]. split; [lia|].
  apply (format2bin_negative "-5" "dec" 10 16 (-5));
    [by left | vm_compute; reflexivity | lia].
Defined.

(** Two lines are given the same key only if their numeric addresses
    (origin plus offset) are equal: the address string determines the
    number. *)
Theorem location_determines_address (org1 org2 : string) (inc1 inc2 : Z)
    (c : string) :
  location org1 inc1 = Ok c → location org2 inc2 = Ok c →
  ∃ o1 o2, Py.int org1 16 = Ok o1 ∧ Py.int org2 16 = Ok o2
    ∧ o1 + inc1 = o2 + inc2
    ∧ BinaryString.to_Z ("0b" +:+ c) = o1 + inc1.
Proof.
  intros (o1 & Ho1 & H1 & ->)%location_Ok (o2 & Ho2 & H2 & Heq)%location_Ok.
  exists o1, o2. split; [done|]. split; [done|].
  split; [by apply addr12_inj|]. by apply zfill_format_b_value.
Qed.

Lemma location_determines_address_witness :
  location "100" 2 = Ok "000100000010" ∧ location "ff" 3 = Ok "000100000010"
  ∧ ∃ o1 o2, Py.int "100" 16 = Ok o1 ∧ Py.int "ff" 16 = Ok o2
      ∧ o1 + 2 = o2 + 3
      ∧ BinaryString.to_Z ("0b" +:+ "000100000010") = o1 + 2.
Proof.
  split; [vm_compute; reflexivity|]. split; [vm_compute; reflexivity|].
  apply (location_determines_address "100" "ff" 2 3 "000100000010");
    vm_compute; reflexivity.
Defined.

End conversions_in_range.

(** ** A segment of plain lines *)

Section segment.
Import Assembler.

Lemma first_pass_loop_plain_bin (ls : list (list string)) (st : pass1) (o : Z) :
  Forall (λ l, plain l = true) ls →
  Py.int (org st) 16 = Ok o → 0 ≤ o + inc st →
  (∀ k, k ∈ Dict.keys (bin st) → ∃ m, 0 ≤ m < o + inc st ∧ k = addr12 m) →
  ∃ stn, first_pass_loop ls st = Ok stn
    ∧ linecounter stn = (linecounter st + length ls)%nat
    ∧ bin stn
      = bin st ++ ((λ j : nat, (addr12 (o + inc st + Z.of_nat j), None))
                   <$> seq 0 (length ls)).
Proof.
  intros Hls. revert st.
  induction Hls as [|line ls Hline _ IH]; intros st Ho Hge Hkeys.
  - exists st. simpl. rewrite app_nil_r. split; [done|]. split; [lia|done].
  - destruct line as [|tok0 line']; [done|]. unfold plain in Hline.
    apply andb_true_iff in Hline as [[Horg Hend]%andb_true_iff Hlab].
    apply negb_true_iff in Horg, Hend. apply String.eqb_neq in Horg.
    cbn [first_pass_loop Py.index lookup list_lookup bind]. rewrite Hend.
    rewrite (first_pass_step_plain _ _ (addr12 (o + inc st)));
      [|done|by apply location_nonneg|].
    2:{ intros Hl. rewrite Hl in Hlab. cbn [negb orb] in Hlab.
        by apply Nat.leb_le in Hlab. }
    cbn [bind].
    assert (Dict.set (addr12 (o + inc st)) None (bin st)
            = bin st ++ [(addr12 (o + inc st), None)]) as Hset.
    { apply dict_set_fresh. intros (m & Hm & Heq)%Hkeys.
      apply addr12_inj in Heq; lia. }
    rewrite Hset.
    match goal with |- context [first_pass_loop ls ?s] => set (st1 := s) end.
    destruct (IH st1) as (stn & Hloop & Hlc & Hbin); [done|simpl; lia| |].
    { simpl. intros k. unfold Dict.keys. rewrite fmap_app, elem_of_app.
      intros [Hk|Hk].
      - destruct (Hkeys k Hk) as (m & Hm & ->). exists m. split; [lia|done].
      - simpl in Hk. apply list_elem_of_singleton in Hk as ->.
        exists (o + inc st). split; [lia|done]. }
    exists stn. split; [done|]. split; [simpl in Hlc; simpl; lia|].
    rewrite Hbin. simpl. rewrite <- app_assoc. f_equal. simpl.
    f_equal; [do 2 f_equal; lia|].
    rewrite <- fmap_S_seq, <- list_fmap_compose. apply list_fmap_ext.
    intros i j _. simpl. do 2 f_equal. lia.
Qed.

(** A program made of a first line with a non-negative origin, [n] plain
    lines (not empty, the first token neither [org] nor [end], a label
    followed by something) and a last line: Pass 1 ends normally and the
    image holds exactly [n] pending entries, at the consecutive addresses
    origin, origin + 1, ..., in the order of the lines.  A key is the
    binary numeral of the address padded with zeros to 12 digits; it is
    longer from address 4096 on. *)
Theorem segment_gets_consecutive_addresses
    (l0 last : list string) (ls : list (list string)) (operand : string)
    (o : Z) :
  l0 !! 1%nat = Some operand →
  Py.int operand 16 = Ok o → 0 ≤ o →
  Forall (λ l, plain l = true) ls →
  ∃ p, first_pass (l0 :: ls ++ [last]) ∅ [] = Ok p
    ∧ linecounter p = length ls
    ∧ bin p = (λ j : nat, (addr12 (o + Z.of_nat j), None)) <$> seq 0 (length ls).
Proof.
  intros H1 Ho Hge Hls. unfold first_pass, Py.index. simpl. rewrite H1.
  cbn [bind]. rewrite body_snoc.
  destruct (first_pass_loop_plain_bin ls (Pass1 0 0 operand "" ∅ []) o Hls)
    as (p & Hp & Hlc & Hbin); [done|simpl; lia| |].
  { simpl. intros k []%elem_of_nil. }
  exists p. split; [done|]. split; [done|]. rewrite Hbin. simpl.
  apply list_fmap_ext. intros i j _. do 2 f_equal. lia.
Qed.

Lemma segment_gets_consecutive_addresses_witness :
  ["org"; "100"] !! 1%nat = Some "100"
  ∧ Py.int "100" 16 = Ok 256 ∧ 0 ≤ 256
  ∧ Forall (λ l, plain l = true) [["lda"; "x"]; ["hlt"]; ["x,"; "hex"; "1"]]
  ∧ ∃ p, first_pass (["org"; "100"]
                     :: [["lda"; "x"]; ["hlt"]; ["x,"; "hex"; "1"]]
                     ++ [["end"]]) ∅ [] = Ok p
      ∧ linecounter p = length [["lda"; "x"]; ["hlt"]; ["x,"; "hex"; "1"]]
      ∧ bin p = (λ j : nat, (addr12 (256 + Z.of_nat j), None))
                <$> seq 0 (length [["lda"; "x"]; ["hlt"]; ["x,"; "hex"; "1"]]).
Proof.
  split; [reflexivity|]. split; [vm_compute; reflexivity|]. split; [lia|].
  split; [by repeat constructor|].
  apply (segment_gets_consecutive_addresses ["org"; "100"] ["end"]
           [["lda"; "x"]; ["hlt"]; ["x,"; "hex"; "1"]] "100" 256);
    [reflexivity | vm_compute; reflexivity | lia | by repeat constructor].
Defined.

End segment.

(** ** Words at the address of their line *)

Section words_at_addresses.
Import Assembler.

(** If every scanned line got an entry of its own in Pass 1, a word that
    the iteration of a line stores is found in the image at the address
    of that line. *)
Lemma stored_word_in_image (t : tables) (asm0 : list (list string))
    (img : pydict) (p1 : pass1) (pre post : list (list string))
    (l : list string) (tok0 w : string) :
  assemble t asm0 = Ok img →
  first_pass (rm_comments asm0) ∅ [] = Ok p1 →
  length (bin p1) = linecounter p1 →
  body (rm_comments asm0) = pre ++ l :: post →
  Forall not_end pre →
  l !! 0%nat = Some tok0 → tok0 ≠ "end" →
  (∀ st st',
     second_pass_loop t (symtab p1) 1 pre (Pass2 false (bin p1) []) = Ok st →
     second_pass_step t (symtab p1) (1 + length pre) l tok0 st = Ok st' →
     ∃ s, store (1 + length pre) w st = Ok s ∧ image st' = image s) →
  ∃ an, line_address (rm_comments asm0) (length pre) = Ok an
    ∧ Dict.get an img = Some (Some w).
Proof.
  intros Hasm Hp1 Hlen Hbody Hpre H0 Hend Hstep.
  apply assemble_Ok in Hasm as (p1' & st2 & Hp1' & Hloop2 & Hkeys & Hnd & ->).
  rewrite Hp1 in Hp1'. injection Hp1' as <-.
  pose proof (first_pass_inv _ _ Hp1) as Hinv.
  assert (Forall not_end (pre ++ [l])) as Hpre'.
  { apply Forall_app. split; [done|]. apply Forall_singleton.
    unfold not_end. rewrite H0. congruence. }
  apply first_pass_Ok in Hp1 as (l0 & o & Hl0 & Ho & Hloop1).
  rewrite Hbody in Hloop1, Hloop2.
  destruct (first_pass_loop_aligned pre post l _ _ Hloop1 Hpre')
    as (stl & Hstl & Hbin); [simpl; lia|]. simpl in Hbin.
  rewrite second_pass_loop_app in Hloop2 by done.
  apply bind_Ok in Hloop2 as (sA & HsA & Hloop2).
  cbn [second_pass_loop] in Hloop2. unfold Py.index in Hloop2.
  rewrite H0 in Hloop2. cbn [bind] in Hloop2.
  destruct (String.eqb_spec tok0 "end") as [|_]; [done|].
  apply bind_Ok in Hloop2 as (sB & HsB & Hloop2).
  destruct (Hstep _ _ HsA HsB) as (s & Hs & Himg).
  pose proof (second_pass_loop_keys _ _ _ _ _ _ HsA) as HkA. simpl in HkA.
  assert (∃ v0, image sA !! length pre = Some (ctr stl, v0)) as [v0 HA].
  { assert (Dict.keys (image sA) !! length pre = Some (ctr stl)) as Hk.
    { rewrite HkA. unfold Dict.keys. by rewrite list_lookup_fmap, Hbin. }
    unfold Dict.keys in Hk.
    apply list_lookup_fmap_Some in Hk as ([k v0] & Hk & HA). simpl in Hk.
    subst k. by exists v0. }
  assert (NoDup (Dict.keys (image sA))) as HndA
    by (rewrite HkA; apply Hinv).
  assert (1 + length pre - 1 = length pre)%nat as Hidx by lia.
  rewrite (store_at (1 + length pre) _ (ctr stl) v0) in Hs;
    [|by rewrite Hidx|done].
  rewrite Hidx in Hs. injection Hs as <-. simpl in Himg.
  assert (image st2 !! length pre = Some (ctr stl, Some w)) as Hfin.
  { erewrite second_pass_loop_before; [|exact Hloop2| |lia].
    - rewrite Himg. apply list_lookup_insert_eq. by eapply lookup_lt_Some.
    - rewrite Himg. unfold Dict.keys. rewrite list_fmap_insert. simpl.
      rewrite list_insert_id; [done|].
      unfold Dict.keys. by rewrite list_lookup_fmap, HA. }
  exists (ctr stl). split.
  - unfold line_address, Py.index. rewrite Hl0. cbn [bind]. rewrite Ho.
    cbn [bind]. rewrite Hbody.
    replace (take (S (length pre)) (pre ++ l :: post)) with (pre ++ [l]).
    + by rewrite Hstl.
    + change (l :: post) with ([l] ++ post). rewrite app_assoc.
      rewrite take_app_length'; [done|]. rewrite length_app. simpl. lia.
  - apply dict_get_elem.
    + by apply dict_filter_NoDup.
    + apply list_elem_of_filter. split; [done|].
      by eapply list_elem_of_lookup_2.
Qed.

(** In a program that assembles normally, Pass 1 having given every
    scanned line an entry of its own: a line that holds the token [hlt]
    anywhere has the table's word of [hlt] at its address, and a line
    without [hlt] whose first token is a register-reference mnemonic has
    that mnemonic's word at its address. *)
Theorem register_word_at_line_address (t : tables)
    (asm0 : list (list string)) (img : pydict) (p1 : pass1)
    (pre post : list (list string)) (l : list string) (tok0 w : string) :
  assemble t asm0 = Ok img →
  first_pass (rm_comments asm0) ∅ [] = Ok p1 →
  length (bin p1) = linecounter p1 →
  body (rm_comments asm0) = pre ++ l :: post →
  Forall not_end pre →
  l !! 0%nat = Some tok0 → tok0 ≠ "end" →
  (Py.elem "hlt" l = true ∧ rri_table t !! "hlt" = Some w
   ∨ Py.elem "hlt" l = false ∧ rri_table t !! tok0 = Some w) →
  ∃ an, line_address (rm_comments asm0) (length pre) = Ok an
    ∧ Dict.get an img = Some (Some w).
Proof.
  intros Hasm Hp1 Hlen Hbody Hpre H0 Hend Hw.
  eapply stored_word_in_image; try done.
  intros st st' _ Hstep. unfold second_pass_step in Hstep.
  destruct Hw as [[Hhlt Hw] | [Hhlt Hw]]; rewrite Hhlt in Hstep.
  - unfold Py.getitem in Hstep. rewrite Hw in Hstep. cbn [bind] in Hstep.
    apply bind_Ok in Hstep as (s & Hs & [= <-]). by exists s.
  - rewrite (proj2 (contains_true _ _)) in Hstep by by eexists.
    unfold Py.getitem in Hstep. rewrite Hw in Hstep. cbn [bind] in Hstep.
    by exists st'.
Qed.

Lemma register_word_at_line_address_witness :
  assemble Sample.tabs Sample.example = Ok SampleStates.example_image
  ∧ first_pass (rm_comments Sample.example) ∅ []
    = Ok SampleStates.example_pass1
  ∧ ∃ an, line_address (rm_comments Sample.example) (length [["lda"; "x"]])
          = Ok an
      ∧ Dict.get an SampleStates.example_image
        = Some (Some "1111111111111111").
Proof.
  split; [vm_compute; reflexivity|]. split; [vm_compute; reflexivity|].
  apply (register_word_at_line_address Sample.tabs Sample.example
           SampleStates.example_image SampleStates.example_pass1
           [["lda"; "x"]] [["x,"; "hex"; "1"]] ["hlt"] "hlt"
           "1111111111111111");
    [vm_compute; reflexivity | vm_compute; reflexivity | reflexivity
    | reflexivity | by repeat constructor | reflexivity | discriminate
    | left; split; vm_compute; reflexivity].
Defined.

(** Under the same conditions, a line that Pass 2 encodes as a
    memory-reference instruction has at its address the indirection bit,
    the opcode of its mnemonic and the address bound to its operand
    label, in this order; the bit is 1 exactly if some token after the
    first one is [i]. *)
Theorem mri_word_at_line_address (t : tables) (asm0 : list (list string))
    (img : pydict) (p1 : pass1) (pre post : list (list string))
    (l : list string) (m x : string) :
  assemble t asm0 = Ok img →
  first_pass (rm_comments asm0) ∅ [] = Ok p1 →
  length (bin p1) = linecounter p1 →
  body (rm_comments asm0) = pre ++ l :: post →
  Forall not_end pre →
  mri_operand t l = Some (m, x) →
  ∃ an op a bit,
    line_address (rm_comments asm0) (length pre) = Ok an
    ∧ mri_table t !! m = Some op
    ∧ symtab p1 !! (x +:+ ",") = Some a
    ∧ Dict.get an img = Some (Some (bit +:+ op +:+ a))
    ∧ (bit = "1" ∧ "i" ∈ drop 1 l ∨ bit = "0" ∧ "i" ∉ drop 1 l).
Proof.
  intros Hasm Hp1 Hlen Hbody Hpre Hmri.
  destruct (mri_word_in_image _ _ _ _ _ _ _ _ _ Hasm Hp1 Hlen Hbody Hpre Hmri)
    as (an & op & a & Han & Hop & Ha & Hw).
  exists an, op, a, (indirect_bit l). do 4 (split; [done|]).
  unfold indirect_bit, Py.elem.
  destruct (existsb (String.eqb "i") (drop 1 l)) eqn:E.
  - left. split; [done|].
    apply existsb_exists in E as (y & Hy & <-%String.eqb_eq).
    by apply list_elem_of_In.
  - right. split; [done|]. intros Hin%list_elem_of_In.
    assert (existsb (String.eqb "i") (drop 1 l) = true) as E'.
    { apply existsb_exists. exists "i". split; [done|apply String.eqb_refl]. }
    congruence.
Qed.

Lemma mri_word_at_line_address_witness :
  assemble Sample.tabs Sample.both_references
  = Ok SampleStates.both_references_image
  ∧ first_pass (rm_comments Sample.both_references) ∅ []
    = Ok SampleStates.both_references_pass1
  ∧ mri_operand Sample.tabs ["lda"; "x"; "i"] = Some ("lda", "x")
  ∧ ∃ an op a bit,
      line_address (rm_comments Sample.both_references)
        (length [["lda"; "x"]; ["hlt"]; ["x,"; "dec"; "5"]]) = Ok an
      ∧ mri_table Sample.tabs !! "lda" = Some op
      ∧ symtab SampleStates.both_references_pass1 !! ("x" +:+ ",") = Some a
      ∧ Dict.get an SampleStates.both_references_image
        = Some (Some (bit +:+ op +:+ a))
      ∧ (bit = "1" ∧ "i" ∈ drop 1 ["lda"; "x"; "i"]
         ∨ bit = "0" ∧ "i" ∉ drop 1 ["lda"; "x"; "i"]).
Proof.
  split; [vm_compute; reflexivity|]. split; [vm_compute; reflexivity|].
  split; [vm_compute; reflexivity|].
  apply (mri_word_at_line_address Sample.tabs Sample.both_references
           SampleStates.both_references_image
           SampleStates.both_references_pass1
           [["lda"; "x"]; ["hlt"]; ["x,"; "dec"; "5"]] [] ["lda"; "x"; "i"]
           "lda" "x");
    first [ by repeat constructor | vm_compute; reflexivity ].
Defined.

(** Under the same conditions, a line after a [hlt] line that is made of
    a label, [hex] or [dec] and a literal of value [0 ≤ v < 65536] (the
    label and the keyword being no mnemonic of any table) has at its
    address a 16-bit word that reads back as [v]. *)
Theorem data_word_at_line_address (t : tables) (asm0 : list (list string))
    (img : pydict) (p1 : pass1) (pre post : list (list string))
    (l : list string) (tok0 numformat lit : string) (base : N) (v : Z) :
  assemble t asm0 = Ok img →
  first_pass (rm_comments asm0) ∅ [] = Ok p1 →
  length (bin p1) = linecounter p1 →
  body (rm_comments asm0) = pre ++ l :: post →
  Forall not_end pre →
  existsb (Py.elem "hlt") pre = true →
  l !! 0%nat = Some tok0 → l !! 1%nat = Some numformat →
  l !! 2%nat = Some lit →
  islabel tok0 = true → Py.elem "hlt" l = false →
  rri_table t !! tok0 = None → rri_table t !! numformat = None →
  mri_table t !! tok0 = None → mri_table t !! numformat = None →
  ioi_table t !! tok0 = None → ioi_table t !! numformat = None →
  numformat = "dec" ∧ base = 10%N ∨ numformat = "hex" ∧ base = 16%N →
  Py.int lit base = Ok v → 0 ≤ v < 65536 →
  ∃ an w, line_address (rm_comments asm0) (length pre) = Ok an
    ∧ Dict.get an img = Some (Some w)
    ∧ is_word w
    ∧ BinaryString.to_Z ("0b" +:+ w) = v.
Proof.
  intros Hasm Hp1 Hlen Hbody Hpre Hhalted H0 H1 H2 Hlab Hhlt
    R0 R1 M0 M1 I0 I1 Hfmt Hv Hfit.
  apply contains_false in R0, R1, M0, M1, I0, I1.
  destruct (format2bin_fits lit numformat base 16 v Hfmt Hv)
    as (w & Hw & Hwlen & Hwbin & Hwval); [lia|done|].
  destruct (stored_word_in_image t asm0 img p1 pre post l tok0 w)
    as (an & Han & Hget); try done.
  - by apply islabel_not_end.
  - intros st st' HsA Hstep.
    pose proof (second_pass_loop_flag _ _ _ _ _ _ Hpre HsA) as Hflag.
    rewrite Hhalted, orb_true_r in Hflag.
    unfold second_pass_step in Hstep.
    rewrite Hhlt, R0 in Hstep. unfold Py.index in Hstep.
    rewrite H1 in Hstep. cbn [bind] in Hstep.
    rewrite R1, M0, M1, I0, I1, Hlab, Hflag in Hstep. cbn [andb] in Hstep.
    destruct Hfmt as [[-> ->] | [-> ->]]; simpl in Hstep;
      rewrite H2 in Hstep; cbn [bind] in Hstep; rewrite Hw in Hstep;
      by exists st'.
  - by exists an, w.
Qed.

Lemma data_word_at_line_address_witness :
  assemble Sample.tabs Sample.example = Ok SampleStates.example_image
  ∧ first_pass (rm_comments Sample.example) ∅ []
    = Ok SampleStates.example_pass1
  ∧ Py.int "1" 16 = Ok 1
  ∧ ∃ an w, line_address (rm_comments Sample.example)
              (length [["lda"; "x"]; ["hlt"]]) = Ok an
      ∧ Dict.get an SampleStates.example_image = Some (Some w)
      ∧ is_word w
      ∧ BinaryString.to_Z ("0b" +:+ w) = 1.
Proof.
  split; [vm_compute; reflexivity|]. split; [vm_compute; reflexivity|].
  split; [vm_compute; reflexivity|].
  apply (data_word_at_line_address Sample.tabs Sample.example
           SampleStates.example_image SampleStates.example_pass1
           [["lda"; "x"]; ["hlt"]] [] ["x,"; "hex"; "1"] "x," "hex" "1" 16 1);
    first [ by repeat constructor | by right | lia | vm_compute; reflexivity ].
Defined.

End words_at_addresses.

(** ** Assembling twice on the same object *)

Section twice.
Import Assembler.

Lemma first_pass_step_intro (line : list string) (tok0 o c : string) (i : Z)
    (st : pass1) :
  (tok0 = "org" ∧ line !! 1%nat = Some o ∧ i = -1
   ∨ tok0 ≠ "org" ∧ o = org st ∧ i = inc st) →
  location o i = Ok c →
  (islabel tok0 = true → (2 ≤ length line)%nat) →
  first_pass_step line tok0 st
  = Ok (Pass1 (S (linecounter st)) (i + 1) o c
          (if islabel tok0 then <[tok0 := c]> (symtab st) else symtab st)
          (Dict.set c None (bin st))).
Proof.
  intros Hoi Hc Hlen. unfold first_pass_step.
  assert ((if String.eqb tok0 "org"
           then do o' <- Py.index line 1; Ok (o', -1)
           else Ok (org st, inc st)) = Ok (o, i)) as ->.
  { destruct Hoi as [(-> & H1 & ->) | (Hne & -> & ->)].
    - simpl. unfold Py.index. by rewrite H1.
    - by destruct (String.eqb_spec tok0 "org"). }
  cbn [bind]. rewrite Hc. cbn [bind].
  destruct (islabel tok0); [|done].
  destruct (Nat.leb_spec 2 (length line)); [done|].
  specialize (Hlen eq_refl). lia.
Qed.

Lemma scan1_keys_grow (ls : list (list string)) (st st' : pass1) (k : string) :
  scan1 ls st st' → k ∈ Dict.keys (bin st) → k ∈ Dict.keys (bin st').
Proof.
  induction 1 as [| | line rest tok0 st st1 st' _ _ Hstep _ IH]; [done..|].
  intros Hk. apply IH.
  apply first_pass_step_Ok in Hstep as (o & i & c & _ & _ & _ & ->). simpl.
  apply dict_set_keys_elem. by right.
Qed.

Lemma dict_set_elem_same (k : string) (v : option string) (d : pydict) :
  (k, v) ∈ Dict.set k v d.
Proof.
  induction d as [|[k0 v0] d IH]; simpl.
  - by apply list_elem_of_singleton.
  - destruct (String.eqb_spec k k0) as [->|_]; apply elem_of_cons; auto.
Qed.

Lemma dict_set_elem_other (k k' : string) (v v' : option string) (d : pydict) :
  k' ≠ k → (k', v') ∈ d → (k', v') ∈ Dict.set k v d.
Proof.
  intros Hne. induction d as [|[k0 v0] d IH]; simpl.
  - by intros ?%elem_of_nil.
  - intros [[= -> ->]|Hin]%elem_of_cons.
    + destruct (String.eqb_spec k k0) as [->|_]; [done|].
      apply elem_of_cons. by left.
    + destruct (String.eqb_spec k k0) as [->|_]; apply elem_of_cons; auto.
Qed.

(** The scan of Pass 1 run again, from a symbol table [tab0] and an
    image that already has all the keys the scan allocates. *)
Lemma scan1_again (ls : list (list string)) (s sF : pass1) :
  scan1 ls s sF →
  ∀ (s' : pass1) (tab0 : gmap string string),
    linecounter s' = linecounter s → inc s' = inc s → org s' = org s →
    symtab s' = symtab s ∪ tab0 →
    (∀ k, k ∈ Dict.keys (bin sF) → k ∈ Dict.keys (bin s')) →
    (∀ k, k ∈ Dict.keys (bin s) → (k, None) ∈ bin s') →
    ∃ sF', first_pass_loop ls s' = Ok sF'
      ∧ symtab sF' = symtab sF ∪ tab0
      ∧ Dict.keys (bin sF') = Dict.keys (bin s')
      ∧ (∀ k, k ∈ Dict.keys (bin sF) → (k, None) ∈ bin sF').
Proof.
  induction 1 as [s | line rest s Hend
                  | line rest tok0 s s1 sF Htok Hne Hstep Hscan IH];
    intros s' tab0 Hlc Hinc Horg Htab Hall Hnone.
  - exists s'. by repeat split.
  - exists s'. cbn [first_pass_loop]. unfold Py.index. rewrite Hend.
    by repeat split.
  - cbn [first_pass_loop]. unfold Py.index. rewrite Htok. cbn [bind].
    destruct (String.eqb_spec tok0 "end") as [|_]; [done|].
    pose proof Hstep as (o & i & c & Hoi & Hc & Hlen & ->)%first_pass_step_Ok.
    rewrite (first_pass_step_intro line tok0 o c i s'); [|..|done|done].
    2:{ destruct Hoi as [?|(? & -> & ->)]; [by left|right; by rewrite Horg, Hinc]. }
    cbn [bind].
    assert (c ∈ Dict.keys (bin s')) as Hc'.
    { apply Hall. eapply scan1_keys_grow; [exact Hscan|]. simpl.
      apply dict_set_keys_elem. by left. }
    edestruct IH as (sF' & Hloop & HtabF & HkeysF & HnoneF);
      [..|exists sF'; split; [exact Hloop|]; split; [exact HtabF|]; split;
          [|exact HnoneF]]; simpl.
    + by rewrite Hlc.
    + done.
    + done.
    + rewrite Htab. destruct (islabel tok0); [|done].
      by rewrite insert_union_l.
    + intros k Hk. apply dict_set_keys_elem. right. by apply Hall.
    + intros k [->|Hk]%dict_set_keys_elem.
      * apply dict_set_elem_same.
      * destruct (decide (k = c)) as [->|Hkc]; [apply dict_set_elem_same|].
        apply dict_set_elem_other; [done|]. by apply Hnone.
    + rewrite HkeysF. simpl. by apply dict_set_in.
Qed.

Lemma filter_length_all {A : Type} (P : A → Prop) `{!∀ x, Decision (P x)}
    (l : list A) :
  length (filter P l) = length l → filter P l = l.
Proof.
  induction l as [|x l IH]; [done|]. rewrite filter_cons.
  destruct (decide (P x)); simpl.
  - intros [= Hlen]. by rewrite IH.
  - intros Hlen. pose proof (length_filter P l). lia.
Qed.

Lemma pending_dict_eq (d d' : pydict) :
  NoDup (Dict.keys d') →
  Dict.keys d' = Dict.keys d →
  (∀ k v, (k, v) ∈ d → v = None) →
  (∀ k, k ∈ Dict.keys d → (k, None) ∈ d') →
  d' = d.
Proof.
  intros Hnd Hkeys Hd Hd'. apply list_eq. intros i.
  assert (Dict.keys d' !! i = Dict.keys d !! i) as Hi by by rewrite Hkeys.
  unfold Dict.keys in Hi. rewrite !list_lookup_fmap in Hi.
  destruct (d !! i) as [[k v]|] eqn:E, (d' !! i) as [[k' v']|] eqn:E';
    simpl in Hi; try done.
  injection Hi as ->.
  assert (v = None) as -> by (eapply Hd; by eapply list_elem_of_lookup_2).
  assert ((k, None) ∈ d') as Hin.
  { apply Hd'. unfold Dict.keys. apply list_elem_of_fmap. exists (k, None).
    split; [done|]. by eapply list_elem_of_lookup_2. }
  apply (dict_get_elem _ _ _ Hnd) in Hin.
  rewrite (dict_get_at i k v' d' Hnd E') in Hin. by injection Hin as ->.
Qed.

(** The value [assemble] returns is the image of the object it leaves. *)
Lemma assemble_obj_fresh (t : tables) (asm0 : list (list string)) :
  assemble t asm0
  = do ob <- assemble_obj t (Obj asm0 ∅ []); Ok (obj_bin ob).
Proof.
  unfold assemble, assemble_obj. simpl. destruct asm0 as [|a0 asm0]; [done|].
  destruct (first_pass _ _ _) as [p1|]; [|done]. cbn [bind].
  by destruct (second_pass _ _ _ _).
Qed.

(** When the first call on a fresh object returns an image with as many
    entries as lines were scanned (no two lines shared an address and
    every line was encoded), a second call on the same object returns
    normally and leaves the object, hence the image, unchanged. *)
Theorem assemble_twice (t : tables) (asm0 : list (list string))
    (ob : assembler_obj) (p1 : pass1) :
  assemble_obj t (Obj asm0 ∅ []) = Ok ob →
  first_pass (rm_comments asm0) ∅ [] = Ok p1 →
  length (obj_bin ob) = linecounter p1 →
  assemble_obj t ob = Ok ob.
Proof.
  intros Hrun Hp1 Hlen.
  pose proof (assemble_obj_fresh t asm0) as Hasm. rewrite Hrun in Hasm.
  cbn [bind] in Hasm.
  apply assemble_Ok in Hasm as (p1' & st2 & Hp1' & Hloop2 & Hkeys & Hnd & Himg).
  rewrite Hp1 in Hp1'. injection Hp1' as <-.
  unfold assemble_obj in Hrun. simpl in Hrun.
  destruct asm0 as [|a0 asm0]; [done|]. rewrite Hp1 in Hrun.
  cbn [bind] in Hrun.
  destruct (second_pass t (rm_comments (a0 :: asm0)) (symtab p1) (bin p1))
    as [p2|] eqn:Hp2; [|done].
  injection Hrun as <-. simpl in *.
  pose proof (first_pass_inv _ _ Hp1) as [I1 I2 I3 I4].
  pose proof Hp1 as (l0 & o & Hl0 & Ho & Hloop1)%first_pass_Ok.
  pose proof (first_pass_loop_growth _ _ _ Hloop1) as (_ & _ & Hgrow).
  simpl in Hgrow.
  assert (image p2 = image st2) as Himg2.
  { rewrite Himg. apply filter_length_all.
    pose proof (length_filter (λ e : string * option string, e.2 ≠ None)
                  (image st2)) as Hle.
    rewrite <- Himg in Hle.
    assert (length (image st2) = length (bin p1)) as Hst2.
    { apply (f_equal length) in Hkeys. unfold Dict.keys in Hkeys.
      by rewrite !length_fmap in Hkeys. }
    rewrite <- Himg. lia. }
  assert (Dict.keys (image p2) = Dict.keys (bin p1)) as Hk2
    by by rewrite Himg2.
  unfold assemble_obj. cbn [obj_asm obj_symtab obj_bin].
  rewrite rm_comments_cons, rm_comment_line_idemp, rm_comments_idemp.
  apply first_pass_loop_scan in Hloop1.
  destruct (scan1_again _ _ _ Hloop1
              (Pass1 0 0 o "" (symtab p1) (image p2)) (symtab p1))
    as (p1' & Hloop1' & Htab' & Hkeys' & Hnone'); simpl; try done.
  - by rewrite map_empty_union.
  - intros k Hk. by rewrite Hk2.
  - intros k []%elem_of_nil.
  - unfold first_pass, Py.index. rewrite Hl0. cbn [bind]. rewrite Ho.
    cbn [bind]. rewrite Hloop1'. cbn [bind].
    rewrite map_union_idemp in Htab'. rewrite Htab'.
    assert (bin p1' = bin p1) as ->.
    { simpl in Hkeys'.
      apply pending_dict_eq; [|by rewrite Hkeys'|done|done].
      rewrite Hkeys', Hk2. done. }
    rewrite Hp2. reflexivity.
Qed.

Lemma assemble_twice_witness :
  assemble_obj Sample.tabs (Obj Sample.example ∅ [])
  = Ok (Obj Sample.example (symtab SampleStates.example_pass1)
          SampleStates.example_image)
  ∧ first_pass (rm_comments Sample.example) ∅ []
    = Ok SampleStates.example_pass1
  ∧ length SampleStates.example_image
    = linecounter SampleStates.example_pass1
  ∧ assemble_obj Sample.tabs
      (Obj Sample.example (symtab SampleStates.example_pass1)
         SampleStates.example_image)
    = Ok (Obj Sample.example (symtab SampleStates.example_pass1)
            SampleStates.example_image).
Proof.
  split; [vm_compute; reflexivity|]. split; [vm_compute; reflexivity|].
  split; [reflexivity|].
  apply (assemble_twice Sample.tabs Sample.example
           (Obj Sample.example (symtab SampleStates.example_pass1)
              SampleStates.example_image)
           SampleStates.example_pass1);
    [vm_compute; reflexivity | vm_compute; reflexivity | reflexivity].
Defined.

End twice.

(** ** Reading the program and the tables *)

Section reading.

Import PyText Loader.

Lemma isspace_lower_char (c : ascii) : isspace (lower_char c) = isspace c.
Proof. destruct c as [[] [] [] [] [] [] [] []]; reflexivity. Qed.

Lemma lower_char_idemp (c : ascii) : lower_char (lower_char c) = lower_char c.
Proof. destruct c as [[] [] [] [] [] [] [] []]; reflexivity. Qed.

Lemma all_chars_app (P : ascii → bool) (s t : string) :
  all_chars P (s +:+ t) = all_chars P s && all_chars P t.
Proof.
  induction s as [|c s IH].
  - by rewrite string_app_nil.
  - rewrite string_app_cons. cbn [all_chars]. rewrite IH.
    by rewrite andb_assoc.
Qed.

Lemma string_app_empty_r (s : string) : s +:+ "" = s.
Proof.
  induction s as [|c s IH]; [by rewrite string_app_nil|].
  by rewrite string_app_cons, IH.
Qed.

Lemma string_app_assoc' (s t u : string) : (s +:+ t) +:+ u = s +:+ (t +:+ u).
Proof.
  induction s as [|c s IH]; [by rewrite !string_app_nil|].
  by rewrite !string_app_cons, IH.
Qed.

Lemma string_app_snoc_ne (s : string) (c : ascii) : s +:+ String c "" ≠ "".
Proof.
  destruct s; [rewrite string_app_nil|rewrite string_app_cons]; discriminate.
Qed.

Lemma all_chars_lower (s : string) :
  all_chars (λ c, bool_decide (lower_char c = c)) (lower s) = true.
Proof.
  induction s as [|c s IH]; [done|].
  cbn [lower all_chars]. rewrite IH, andb_true_r.
  apply bool_decide_eq_true, lower_char_idemp.
Qed.

Lemma lower_fixed (s : string) :
  all_chars (λ c, bool_decide (lower_char c = c)) s = true → lower s = s.
Proof.
  induction s as [|c s IH]; [done|].
  cbn [all_chars lower]. intros [Hc Hs]%andb_true_iff.
  apply bool_decide_eq_true in Hc. by rewrite Hc, IH.
Qed.

(** Every token [split_from] gives is [cur], extended or not, or made of
    characters of [s]: it is not empty, and holds a property all
    characters of [cur] and [s] that are not whitespace have. *)
Lemma split_from_tokens (P : ascii → bool) (s cur tok : string) :
  (∀ c, isspace c = false → In c (list_ascii_of_string s) → P c = true) →
  all_chars P cur = true →
  all_chars (λ c, negb (isspace c)) cur = true →
  tok ∈ split_from cur s →
  tok ≠ ""
  ∧ all_chars (λ c, negb (isspace c)) tok = true
  ∧ all_chars P tok = true.
Proof.
  revert cur. induction s as [|c s IH]; intros cur HP Hcur Hns Hin.
  - cbn [split_from] in Hin. destruct cur as [|c0 cur].
    + by apply elem_of_nil in Hin.
    + apply list_elem_of_singleton in Hin as ->. done.
  - cbn [split_from] in Hin.
    assert (∀ c', isspace c' = false → In c' (list_ascii_of_string s) →
                  P c' = true) as HP'.
    { intros c' Hc' Hin'. apply HP; [done|]. cbn. by right. }
    destruct (isspace c) eqn:Hc.
    + destruct cur as [|c0 cur].
      * by apply (IH ""); [done|done|done|].
      * apply elem_of_cons in Hin as [->|Hin]; [done|].
        by apply (IH ""); [done|done|done|].
    + apply (IH (cur +:+ String c "")); [done| | |done].
      * rewrite all_chars_app, Hcur. cbn [all_chars].
        rewrite (HP c); [done|done|]. cbn. by left.
      * rewrite all_chars_app, Hns. cbn [all_chars]. by rewrite Hc.
Qed.

Lemma split_from_word (tok s cur : string) :
  all_chars (λ c, negb (isspace c)) tok = true →
  split_from cur (tok +:+ s) = split_from (cur +:+ tok) s.
Proof.
  revert cur. induction tok as [|c tok IH]; intros cur Hns.
  - by rewrite string_app_nil, string_app_empty_r.
  - cbn [all_chars] in Hns. apply andb_true_iff in Hns as [Hc Hns].
    apply negb_true_iff in Hc.
    rewrite string_app_cons. cbn [split_from]. rewrite Hc.
    rewrite IH by done. rewrite string_app_assoc', string_app_cons.
    by rewrite string_app_nil.
Qed.

Lemma rstrip_cons (c : ascii) (s : string) :
  rstrip s ≠ "" → rstrip (String c s) = String c (rstrip s).
Proof. intros H. cbn [rstrip]. by destruct (rstrip s). Qed.

Lemma join_space_cons (tok tok' : string) (toks : list string) :
  join_space (tok :: tok' :: toks)
  = tok +:+ String " " (join_space (tok' :: toks)).
Proof. reflexivity. Qed.

Lemma split_join_space (toks : list string) :
  Forall (λ tok, tok ≠ "" ∧ all_chars (λ c, negb (isspace c)) tok = true)
    toks →
  split (join_space toks) = toks.
Proof.
  unfold split. induction 1 as [|tok toks [Hne Hns] Htoks IH]; [done|].
  destruct toks as [|tok' toks].
  - cbn [join_space]. rewrite <- (string_app_empty_r tok) at 1.
    rewrite split_from_word, string_app_nil by done.
    cbn [split_from]. by destruct tok.
  - rewrite join_space_cons, split_from_word, string_app_nil by done.
    cbn [split_from]. change (isspace " ") with true. cbn match.
    rewrite IH. by destruct tok.
Qed.

Lemma rstrip_word (s : string) :
  all_chars (λ c, negb (isspace c)) s = true → rstrip s = s.
Proof.
  induction s as [|c s IH]; [done|].
  cbn [all_chars rstrip]. intros [Hc Hs]%andb_true_iff.
  apply negb_true_iff in Hc. rewrite IH, Hc by done. by destruct s.
Qed.

Lemma rstrip_app (s t : string) :
  rstrip t ≠ "" → rstrip (s +:+ t) = s +:+ rstrip t.
Proof.
  intros Ht. induction s as [|c s IH]; [by rewrite !string_app_nil|].
  rewrite !string_app_cons. cbn [rstrip]. rewrite IH.
  destruct (s +:+ rstrip t) eqn:E; [|done].
  destruct s; [rewrite string_app_nil in E; done|].
  by rewrite string_app_cons in E.
Qed.

Lemma rstrip_join_space (toks : list string) :
  Forall (λ tok, tok ≠ "" ∧ all_chars (λ c, negb (isspace c)) tok = true)
    toks →
  rstrip (join_space toks) = join_space toks
  ∧ (toks ≠ [] → join_space toks ≠ "").
Proof.
  induction 1 as [|tok toks [Hne Hns] Htoks [IH IHne]]; [done|].
  destruct toks as [|tok' toks].
  - cbn [join_space]. split; [by apply rstrip_word|done].
  - rewrite join_space_cons.
    assert (join_space (tok' :: toks) ≠ "") as Hrest by by apply IHne.
    split.
    + assert (rstrip (String " " (join_space (tok' :: toks)))
              = String " " (join_space (tok' :: toks))) as Hr.
      { rewrite rstrip_cons; rewrite IH; done. }
      rewrite rstrip_app; rewrite Hr; done.
    + intros _. destruct tok; [done|]. by rewrite string_app_cons.
Qed.

Lemma lower_app (s t : string) : lower (s +:+ t) = lower s +:+ lower t.
Proof.
  induction s as [|c s IH]; [by rewrite !string_app_nil|].
  rewrite string_app_cons. cbn [lower]. by rewrite string_app_cons, IH.
Qed.

Lemma lower_join_space (toks : list string) :
  Forall (λ tok, lower tok = tok) toks →
  lower (join_space toks) = join_space toks.
Proof.
  induction 1 as [|tok toks Htok Htoks IH]; [done|].
  destruct toks as [|tok' toks]; [done|].
  rewrite join_space_cons, lower_app. cbn [lower].
  rewrite IH, Htok. reflexivity.
Qed.

Lemma In_lower (c : ascii) (s : string) :
  In c (list_ascii_of_string (lower s)) →
  ∃ c', c = lower_char c' ∧ In c' (list_ascii_of_string s).
Proof.
  induction s as [|c0 s IH]; [done|].
  cbn. intros [<-|Hin].
  - exists c0. split; [done|by left].
  - destruct (IH Hin) as (c' & -> & Hin'). exists c'. split; [done|by right].
Qed.

Lemma tokens_word (s tok : string) :
  tok ∈ tokens s →
  tok ≠ ""
  ∧ all_chars (λ c, negb (isspace c)) tok = true
  ∧ lower tok = tok.
Proof.
  unfold tokens, split. intros Hin.
  destruct (split_from_tokens (λ c, bool_decide (lower_char c = c))
              (lower (rstrip s)) "" tok) as (Hne & Hns & Hlow);
    [|done|done|done|].
  - intros c _ (c' & -> & _)%In_lower.
    apply bool_decide_eq_true, lower_char_idemp.
  - split; [done|]. split; [done|]. by apply lower_fixed.
Qed.

(** Every token of a line is not empty, holds no whitespace and no capital
    letter: lowering it leaves it as it is. *)
Theorem tokens_are_lowercase_words (s tok : string) :
  tok ∈ tokens s →
  tok ≠ ""
  ∧ all_chars (λ c, negb (isspace c)) tok = true
  ∧ lower tok = tok.
Proof. apply tokens_word. Qed.

Lemma tokens_are_lowercase_words_witness :
  "lda" ∈ tokens "ROT, LDA  Val 	I  "
  ∧ "lda" ≠ ""
  ∧ all_chars (λ c, negb (isspace c)) "lda" = true
  ∧ lower "lda" = "lda".
Proof.
  assert ("lda" ∈ tokens "ROT, LDA  Val 	I  ") as Hin.
  { vm_compute. apply elem_of_cons. right. apply elem_of_cons. by left. }
  split; [exact Hin|].
  exact (tokens_are_lowercase_words "ROT, LDA  Val 	I  " "lda" Hin).
Defined.

(** A line written as lowercase words with one space between them is read
    back as these words. *)
Theorem tokens_of_joined_words (toks : list string) :
  Forall (λ tok, tok ≠ ""
                 ∧ all_chars (λ c, negb (isspace c)) tok = true
                 ∧ lower tok = tok) toks →
  tokens (join_space toks) = toks.
Proof.
  intros Htoks. unfold tokens.
  assert (Forall (λ tok, tok ≠ ""
            ∧ all_chars (λ c, negb (isspace c)) tok = true) toks) as Hw.
  { eapply Forall_impl; [exact Htoks|]. by intros tok (? & ? & ?). }
  destruct (rstrip_join_space toks Hw) as [-> _].
  rewrite lower_join_space.
  - by apply split_join_space.
  - eapply Forall_impl; [exact Htoks|]. by intros tok (? & ? & ?).
Qed.

Lemma tokens_of_joined_words_witness :
  Forall (λ tok, tok ≠ ""
                 ∧ all_chars (λ c, negb (isspace c)) tok = true
                 ∧ lower tok = tok) ["rot,"; "lda"; "val"; "i"]
  ∧ tokens (join_space ["rot,"; "lda"; "val"; "i"])
    = ["rot,"; "lda"; "val"; "i"].
Proof.
  assert (Forall (λ tok, tok ≠ ""
                 ∧ all_chars (λ c, negb (isspace c)) tok = true
                 ∧ lower tok = tok) ["rot,"; "lda"; "val"; "i"]) as H.
  { repeat constructor; discriminate. }
  split; [exact H|].
  exact (tokens_of_joined_words ["rot,"; "lda"; "val"; "i"] H).
Defined.

Lemma split_from_blank (s : string) :
  all_chars isspace s = true → split_from "" s = [].
Proof.
  induction s as [|c s IH]; [done|].
  cbn [all_chars split_from]. intros [-> Hs]%andb_true_iff. by apply IH.
Qed.

Lemma split_from_nonempty (s cur : string) :
  cur ≠ "" → split_from cur s ≠ [].
Proof.
  revert cur. induction s as [|c s IH]; intros cur Hne.
  - cbn [split_from]. by destruct cur.
  - cbn [split_from]. destruct (isspace c); [by destruct cur|].
    apply IH, string_app_snoc_ne.
Qed.

Lemma split_from_nil (s : string) :
  split_from "" s = [] → all_chars isspace s = true.
Proof.
  induction s as [|c s IH]; [done|].
  cbn [split_from all_chars]. destruct (isspace c); [done|].
  rewrite string_app_nil. intros H.
  by apply split_from_nonempty in H.
Qed.

Lemma all_chars_isspace_lower (s : string) :
  all_chars isspace (lower s) = all_chars isspace s.
Proof.
  induction s as [|c s IH]; [done|].
  cbn [lower all_chars]. by rewrite isspace_lower_char, IH.
Qed.

Lemma rstrip_blank (s : string) :
  all_chars isspace s = true → rstrip s = "".
Proof.
  induction s as [|c s IH]; [done|].
  cbn [all_chars rstrip]. intros [-> Hs]%andb_true_iff. by rewrite IH.
Qed.

Lemma all_chars_isspace_rstrip (s : string) :
  all_chars isspace (rstrip s) = true → all_chars isspace s = true.
Proof.
  induction s as [|c s IH]; [done|].
  cbn [rstrip]. destruct (rstrip s) as [|c' r] eqn:E.
  - destruct (isspace c) eqn:Hc.
    + intros _. cbn [all_chars]. rewrite Hc. by apply IH.
    + cbn [all_chars]. by rewrite Hc.
  - cbn [all_chars]. intros [-> Hr]%andb_true_iff. by apply IH.
Qed.

(** A line gives no token exactly when it holds whitespace only. *)
Theorem tokens_nil_iff_blank (s : string) :
  tokens s = [] ↔ all_chars isspace s = true.
Proof.
  unfold tokens, split. split.
  - intros H%split_from_nil. rewrite all_chars_isspace_lower in H.
    by apply all_chars_isspace_rstrip.
  - intros H. by rewrite (rstrip_blank s H).
Qed.

Lemma load_rows_Ok (rows : list (list string)) (d : gmap string string) :
  Forall (λ row, length row = 2%nat) rows → ∃ d', load_rows rows d = Ok d'.
Proof.
  intros H. revert d. induction H as [|row rows Hrow Hrows IH]; intros d.
  - by exists d.
  - destruct row as [|o [|b [|]]]; try done. cbn [load_rows]. apply IH.
Qed.

Lemma load_rows_Err (rows : list (list string)) (d : gmap string string)
    (e : exn) :
  load_rows rows d = Err e →
  e = ValueError ∧ Exists (λ row, length row ≠ 2%nat) rows.
Proof.
  revert d. induction rows as [|row rows IH]; intros d; [done|].
  destruct row as [|o [|b [|]]]; cbn [load_rows];
    try (intros [= <-]; split; [done|]; by apply Exists_cons_hd).
  intros [-> He]%IH. split; [done|]. by apply Exists_cons_tl.
Qed.

(** [__load_table] returns exactly when every line of the table holds two
    words; otherwise it raises [ValueError], which is how an empty line in
    a table file shows. *)
Theorem load_table_returns_iff (lines : list string) :
  (is_ok (load_table lines) = true
   ↔ Forall (λ s, length (tokens s) = 2%nat) lines)
  ∧ (is_ok (load_table lines) = false
     → load_table lines = Err ValueError).
Proof.
  unfold load_table. split; [split|].
  - intros Hok. apply Forall_forall. intros s Hs.
    destruct (decide (length (tokens s) = 2%nat)) as [|Hlen]; [done|].
    exfalso.
    assert (∀ rows d, tokens s ∈ rows → is_ok (load_rows rows d) = false)
      as Hbad.
    { induction rows as [|row rows IH]; intros d Hin;
        [by apply elem_of_nil in Hin|].
      apply elem_of_cons in Hin as [<-|Hin].
      - by destruct (tokens s) as [|o [|b [|]]].
      - destruct row as [|o [|b [|]]]; try done. cbn [load_rows].
        by apply IH. }
    rewrite (Hbad (tokens <$> lines) ∅) in Hok; [done|].
    apply list_elem_of_fmap. by exists s.
  - intros Hall.
    destruct (load_rows_Ok (tokens <$> lines) ∅) as [d' ->]; [|done].
    by apply Forall_fmap.
  - destruct (load_rows (tokens <$> lines) ∅) as [d|e] eqn:E; [done|].
    intros _. by apply load_rows_Err in E as [-> _].
Qed.

Lemma load_rows_lookup (rows : list (list string)) (d d' : gmap string string)
    (k : string) :
  load_rows rows d = Ok d' →
  d' !! k
  = match last (filter (λ row, row !! 0%nat = Some k) rows) with
    | Some row => row !! 1%nat
    | None => d !! k
    end.
Proof.
  revert d. induction rows as [|row rows IH]; intros d.
  - intros [= ->]. done.
  - destruct row as [|o [|b [|]]]; try done. cbn [load_rows]. intros H.
    rewrite (IH _ H).
    destruct (decide (o = k)) as [->|Hne].
    + rewrite filter_cons_True by done.
      destruct (filter _ rows) as [|r rs] eqn:E.
      * cbn. by rewrite lookup_insert_eq.
      * rewrite last_cons_cons.
        destruct (last (r :: rs)) eqn:El; [done|].
        by apply last_None in El.
    + rewrite filter_cons_False by (cbn; congruence).
      destruct (last _); [done|]. by rewrite lookup_insert_ne.
Qed.

(** The table [__load_table] returns binds a mnemonic to the second word
    of the last line that starts with it, and binds nothing else: a
    mnemonic that starts no line is not in the table. *)
Theorem load_table_last_line_wins (lines : list string)
    (tab : gmap string string) (k : string) :
  load_table lines = Ok tab →
  tab !! k
  = row ← last (filter (λ row, row !! 0%nat = Some k) (tokens <$> lines));
    row !! 1%nat.
Proof.
  unfold load_table. intros H. rewrite (load_rows_lookup _ _ _ k H).
  by destruct (last _).
Qed.

Lemma load_table_last_line_wins_witness :
  load_table ["AND 000"; "add 001"; "and 111"]
  = Ok (<["and" := "111"]> (<["add" := "001"]> (<["and" := "000"]> ∅)))
  ∧ (<["and" := "111"]> (<["add" := "001"]> (<["and" := "000"]> ∅))
       : gmap string string) !! "and"
    = row ← last (filter (λ row, row !! 0%nat = Some "and")
                    (tokens <$> ["AND 000"; "add 001"; "and 111"]));
      row !! 1%nat.
Proof.
  assert (load_table ["AND 000"; "add 001"; "and 111"]
          = Ok (<["and" := "111"]> (<["add" := "001"]>
                  (<["and" := "000"]> ∅)))) as H by reflexivity.
  split; [exact H|].
  exact (load_table_last_line_wins _ _ "and" H).
Defined.

(** The keys and the values of a loaded table are lowercase words: a
    mnemonic of the program can only be found in this form. *)
Theorem load_table_holds_lowercase_words (lines : list string)
    (tab : gmap string string) (k v : string) :
  load_table lines = Ok tab →
  tab !! k = Some v →
  k ≠ "" ∧ lower k = k ∧ v ≠ "" ∧ lower v = v.
Proof.
  unfold load_table. intros H Hk.
  rewrite (load_rows_lookup _ _ _ k H) in Hk.
  destruct (last _) as [row|] eqn:E; [|done].
  apply last_Some_elem_of in E.
  apply list_elem_of_filter in E as [H0 Hin].
  apply list_elem_of_fmap in Hin as (s & -> & _).
  apply list_elem_of_lookup_2 in H0, Hk.
  apply tokens_word in H0 as (? & _ & ?).
  apply tokens_word in Hk as (? & _ & ?).
  done.
Qed.

Lemma load_table_holds_lowercase_words_witness :
  load_table ["AND 000"; "add 001"; "and 111"]
  = Ok (<["and" := "111"]> (<["add" := "001"]> (<["and" := "000"]> ∅)))
  ∧ (<["and" := "111"]> (<["add" := "001"]> (<["and" := "000"]> ∅))
       : gmap string string) !! "add" = Some "001"
  ∧ "add" ≠ "" ∧ lower "add" = "add" ∧ "001" ≠ "" ∧ lower "001" = "001".
Proof.
  assert (load_table ["AND 000"; "add 001"; "and 111"]
          = Ok (<["and" := "111"]> (<["add" := "001"]>
                  (<["and" := "000"]> ∅)))) as H by reflexivity.
  assert ((<["and" := "111"]> (<["add" := "001"]> (<["and" := "000"]> ∅))
            : gmap string string) !! "add" = Some "001") as Hk
    by reflexivity.
  split; [exact H|]. split; [exact Hk|].
  exact (load_table_holds_lowercase_words _ _ "add" "001" H Hk).
Defined.

Lemma rstrip_lower (s : string) : rstrip (lower s) = lower (rstrip s).
Proof.
  induction s as [|c s IH]; [done|].
  cbn [lower rstrip]. rewrite IH, isspace_lower_char.
  destruct (rstrip s) as [|c' r] eqn:E.
  - cbn [lower]. by destruct (isspace c).
  - reflexivity.
Qed.

Lemma lower_idemp (s : string) : lower (lower s) = lower s.
Proof.
  induction s as [|c s IH]; [done|].
  cbn [lower]. by rewrite lower_char_idemp, IH.
Qed.

(** Case is lost when the program is read: a file and the same file
    with every line in lower case give the same result, the program or
    the failed assertion on the path. *)
Theorem read_code_ignores_case (path : string) (lines : list string) :
  read_code path (lower <$> lines) = read_code path lines.
Proof.
  unfold read_code.
  destruct (Py.endswith path ".asm" || Py.endswith path ".S"); [|done].
  f_equal. rewrite <- list_fmap_compose. apply list_fmap_ext.
  intros i s _. unfold compose, tokens.
  by rewrite rstrip_lower, lower_idemp.
Qed.

End reading.
